(** * ClopiNet sequence embedding (pyannote/audio/embedding/models.py)

    A shallow embedding of the [ClopiNet] module: its constructor
    ([__init__]), the [output_dim] property and [forward].

    Conventions of the embedding.
    - Tensors are a shape together with an indexing function.  Scalars are
      real numbers: floating-point rounding is idealised away, so "equal
      within tolerance" in the prose becomes equality in [R].  Infinities
      and NaN have no counterpart.
    - Python exceptions are values of [Exception]; a computation that may
      raise returns a [Result].  [forward] additionally threads the module,
      because batch normalisation updates its running statistics.
    - The layers of [torch.nn] ([Linear], [LSTM], [GRU], [BatchNorm1d]) and
      the tensor operations [forward] calls are written out after the
      framework's documentation, including the shape checks that make them
      raise.  Freshly constructed modules are in training mode.
    - Device placement ([is_cuda], [.cuda()]) and the registration of
      sub-modules under a name ([add_module]) have no counterpart here.
    - The initial values of trainable parameters are drawn at random by the
      framework; the constructor takes them from an [Initializer]. *)

From Stdlib Require Import Reals Lra Lia List String Bool Arith PeanoNat.
Import ListNotations.

(* ================================================================= *)
(** ** Exceptions and results *)

Inductive Exception : Type :=
| ValueError_rnn
    (* rnn must be one of LSTM, GRU *)
| ValueError_feature (found expected : nat)
    (* Wrong feature dimension. Found [found], should be [expected] *)
| UnboundLocalError (name : string)
    (* a local variable read before any assignment *)
| TypeError (msg : string)
| TorchError (msg : string).
    (* raised inside the tensor framework *)

Inductive Result (A : Type) : Type :=
| Ok (a : A)
| Raise (e : Exception).

Arguments Ok {A} a.
Arguments Raise {A} e.

Definition rbind {A B : Type} (r : Result A) (k : A -> Result B) : Result B :=
  match r with
  | Ok a => k a
  | Raise e => Raise e
  end.

Declare Scope result_scope.
Delimit Scope result_scope with result.
Notation "x <- r ;; k" := (rbind r (fun x => k))
  (at level 61, r at next level, right associativity) : result_scope.
Notation "' p <- r ;; k" := (rbind r (fun p => k))
  (at level 61, p pattern, r at next level, right associativity) : result_scope.

Definition is_ok {A : Type} (r : Result A) : bool :=
  match r with Ok _ => true | Raise _ => false end.

(* ================================================================= *)
(** ** Tensors *)

Record Tensor1 : Type := mkT1 {
  t1_len : nat;
  t1_at : nat -> R
}.

Record Tensor2 : Type := mkT2 {
  t2_rows : nat;
  t2_cols : nat;
  t2_at : nat -> nat -> R
}.

Record Tensor3 : Type := mkT3 {
  t3_time : nat;
  t3_batch : nat;
  t3_feat : nat;
  t3_at : nat -> nat -> nat -> R
}.

Definition size2 (x : Tensor2) : nat * nat := (t2_rows x, t2_cols x).
Definition size3 (x : Tensor3) : nat * nat * nat :=
  (t3_time x, t3_batch x, t3_feat x).

(** [rsum n f] is [f 0 + ... + f (n-1)]. *)
Fixpoint rsum (n : nat) (f : nat -> R) : R :=
  match n with
  | O => 0%R
  | S k => (rsum k f + f k)%R
  end.

(** Broadcasting of one axis: two extents are compatible when they are
    equal or one of them is 1. *)
Definition broadcast_dim (a b : nat) : option nat :=
  if a =? b then Some a
  else if a =? 1 then Some b
  else if b =? 1 then Some a
  else None.

(** Index into an axis of extent [n] that was broadcast. *)
Definition bidx (n i : nat) : nat := if n =? 1 then 0 else i.

Definition broadcast3 (op : R -> R -> R) (x y : Tensor3) : Result Tensor3 :=
  match broadcast_dim (t3_time x) (t3_time y),
        broadcast_dim (t3_batch x) (t3_batch y),
        broadcast_dim (t3_feat x) (t3_feat y) with
  | Some n, Some b, Some d =>
      Ok (mkT3 n b d (fun t i j =>
            op (t3_at x (bidx (t3_time x) t) (bidx (t3_batch x) i)
                        (bidx (t3_feat x) j))
               (t3_at y (bidx (t3_time y) t) (bidx (t3_batch y) i)
                        (bidx (t3_feat y) j))))
  | _, _, _ => Raise (TorchError "The size of tensor a must match the size of tensor b")
  end.

Definition broadcast2 (op : R -> R -> R) (x y : Tensor2) : Result Tensor2 :=
  match broadcast_dim (t2_rows x) (t2_rows y),
        broadcast_dim (t2_cols x) (t2_cols y) with
  | Some b, Some d =>
      Ok (mkT2 b d (fun i j =>
            op (t2_at x (bidx (t2_rows x) i) (bidx (t2_cols x) j))
               (t2_at y (bidx (t2_rows y) i) (bidx (t2_cols y) j))))
  | _, _ => Raise (TorchError "The size of tensor a must match the size of tensor b")
  end.

(** [x * v] for a 3D tensor and a vector: the vector is aligned with the
    last axis. *)
Definition mul_vec3 (x : Tensor3) (v : Tensor1) : Result Tensor3 :=
  match broadcast_dim (t3_feat x) (t1_len v) with
  | Some d =>
      Ok (mkT3 (t3_time x) (t3_batch x) d (fun t i j =>
            (t3_at x t i (bidx (t3_feat x) j) * t1_at v (bidx (t1_len v) j))%R))
  | None => Raise (TorchError "The size of tensor a must match the size of tensor b")
  end.

Definition mul3 := broadcast3 Rmult.
Definition add3 := broadcast3 Rplus.
Definition div3 := broadcast3 Rdiv.
Definition div2 := broadcast2 Rdiv.

(** [c * x] for a Python float [c]. *)
Definition scale3 (c : R) (x : Tensor3) : Tensor3 :=
  mkT3 (t3_time x) (t3_batch x) (t3_feat x)
       (fun t i j => (c * t3_at x t i j)%R).

(** [x[:, :, :k]] and [x[:, :, k:]]; slice bounds are clamped. *)
Definition slice_to (k : nat) (x : Tensor3) : Tensor3 :=
  mkT3 (t3_time x) (t3_batch x) (Nat.min k (t3_feat x)) (t3_at x).

Definition slice_from (k : nat) (x : Tensor3) : Tensor3 :=
  mkT3 (t3_time x) (t3_batch x) (t3_feat x - k)
       (fun t i j => t3_at x t i (k + j)).

(** [torch.cat(xs, dim=2)]. *)
Definition cat2 (x y : Tensor3) : Result Tensor3 :=
  if (t3_time x =? t3_time y) && (t3_batch x =? t3_batch y)
  then Ok (mkT3 (t3_time x) (t3_batch x) (t3_feat x + t3_feat y)
             (fun t i j => if j <? t3_feat x then t3_at x t i j
                           else t3_at y t i (j - t3_feat x)))
  else Raise (TorchError "Sizes of tensors must match except in dimension 2").

Fixpoint cat_dim2 (xs : list Tensor3) : Result Tensor3 :=
  match xs with
  | [] => Raise (TorchError "expected a non-empty list of Tensors")
  | [x] => Ok x
  | x :: rest => rbind (cat_dim2 rest) (cat2 x)
  end.

(** [F.tanh(x)]. *)
Definition tanh3 (x : Tensor3) : Tensor3 :=
  mkT3 (t3_time x) (t3_batch x) (t3_feat x)
       (fun t i j => tanh (t3_at x t i j)).

(** [F.softmax(x, dim=0)]. *)
Definition softmax_dim0 (x : Tensor3) : Tensor3 :=
  mkT3 (t3_time x) (t3_batch x) (t3_feat x)
       (fun t i j => (exp (t3_at x t i j)
                      / rsum (t3_time x) (fun s => exp (t3_at x s i j)))%R).

(** [x.sum(dim=0)]. *)
Definition sum_dim0 (x : Tensor3) : Tensor2 :=
  mkT2 (t3_batch x) (t3_feat x)
       (fun i j => rsum (t3_time x) (fun t => t3_at x t i j)).

(** [torch.norm(x, 2, 2, keepdim=True)] and [torch.norm(x, 2, 1, keepdim=True)]. *)
Definition norm3 (x : Tensor3) : Tensor3 :=
  mkT3 (t3_time x) (t3_batch x) 1
       (fun t i _ => sqrt (rsum (t3_feat x) (fun j => (t3_at x t i j * t3_at x t i j)%R))).

Definition norm2 (x : Tensor2) : Tensor2 :=
  mkT2 (t2_rows x) 1
       (fun i _ => sqrt (rsum (t2_cols x) (fun j => (t2_at x i j * t2_at x i j)%R))).

(** [torch.zeros(a, b, c)]. *)
Definition zeros3 (a b c : nat) : Tensor3 := mkT3 a b c (fun _ _ _ => 0%R).

(** The Euclidean norm of one row of a 2D tensor and of one time step of
    one batch element of a 3D tensor, for stating properties. *)
Definition l2_row (x : Tensor2) (i : nat) : R :=
  sqrt (rsum (t2_cols x) (fun j => (t2_at x i j * t2_at x i j)%R)).

Definition l2_step (x : Tensor3) (t i : nat) : R :=
  sqrt (rsum (t3_feat x) (fun j => (t3_at x t i j * t3_at x t i j)%R)).

(* ================================================================= *)
(** ** Layers of the framework *)

(** *** [nn.Linear(in_features, out_features, bias=True)] *)

Record LinearParams : Type := mkLinearParams {
  lp_weight : nat -> nat -> R;     (* out_features x in_features *)
  lp_bias : nat -> R
}.

Record Linear : Type := mkLinear {
  in_features : nat;
  out_features : nat;
  lin_params : LinearParams
}.

Definition nn_Linear (input_dim hidden_dim : nat) (p : LinearParams) : Linear :=
  mkLinear input_dim hidden_dim p.

(** [w[j, :] . v + b[j]] over the first [n] entries of [v]. *)
Definition affine (w : nat -> nat -> R) (b : nat -> R) (n : nat)
           (v : nat -> R) (j : nat) : R :=
  (rsum n (fun k => w j k * v k) + b j)%R.

Definition linear_apply (layer : Linear) (x : Tensor3) : Result Tensor3 :=
  if t3_feat x =? in_features layer
  then Ok (mkT3 (t3_time x) (t3_batch x) (out_features layer)
             (fun t i j => affine (lp_weight (lin_params layer))
                                  (lp_bias (lin_params layer))
                                  (in_features layer) (t3_at x t i) j))
  else Raise (TorchError "size mismatch").

(** *** [nn.LSTM] and [nn.GRU] with one layer *)

Inductive RNNKind : Type := LSTM | GRU.

Record RNNParams : Type := mkRNNParams {
  w_ih : nat -> nat -> R;          (* gates x input_size *)
  w_hh : nat -> nat -> R;          (* gates x hidden_size *)
  b_ih : nat -> R;
  b_hh : nat -> R
}.

Record RNNLayer : Type := mkRNNLayer {
  rnn_kind : RNNKind;
  input_size : nat;
  hidden_size : nat;
  rnn_bidirectional : bool;
  rnn_params : nat -> RNNParams    (* one set per direction *)
}.

(** Both constructors refuse a hidden size that is not positive. *)
Definition nn_LSTM (input_dim hidden_dim : nat) (bidirectional : bool)
           (p : nat -> RNNParams) : Result RNNLayer :=
  if hidden_dim =? 0
  then Raise (TorchError "hidden_size must be greater than zero")
  else Ok (mkRNNLayer LSTM input_dim hidden_dim bidirectional p).

Definition nn_GRU (input_dim hidden_dim : nat) (bidirectional : bool)
           (p : nat -> RNNParams) : Result RNNLayer :=
  if hidden_dim =? 0
  then Raise (TorchError "hidden_size must be greater than zero")
  else Ok (mkRNNLayer GRU input_dim hidden_dim bidirectional p).

(** The initial state handed to a recurrent layer: [(h, c)] for an LSTM,
    [h] for a GRU. *)
Inductive Hidden : Type :=
| HiddenLSTM (h c : Tensor3)
| HiddenGRU (h : Tensor3).

Definition sigmoid (x : R) : R := (1 / (1 + exp (- x)))%R.

(** The state of one direction: hidden and cell values per batch element. *)
Definition CellState : Type := ((nat -> nat -> R) * (nat -> nat -> R))%type.

Definition lstm_cell (p : RNNParams) (n_in n_hid : nat)
           (x : nat -> nat -> R) (s : CellState) : CellState :=
  let h := fst s in
  let c := snd s in
  let gate i j := (affine (w_ih p) (b_ih p) n_in (x i) j
                   + affine (w_hh p) (b_hh p) n_hid (h i) j)%R in
  let c' i j := (sigmoid (gate i (n_hid + j)%nat) * c i j
                 + sigmoid (gate i j) * tanh (gate i (2 * n_hid + j)%nat))%R in
  (fun i j => (sigmoid (gate i (3 * n_hid + j)%nat) * tanh (c' i j))%R, c').

Definition gru_cell (p : RNNParams) (n_in n_hid : nat)
           (x : nat -> nat -> R) (s : CellState) : CellState :=
  let h := fst s in
  let gi i j := affine (w_ih p) (b_ih p) n_in (x i) j in
  let gh i j := affine (w_hh p) (b_hh p) n_hid (h i) j in
  let r i j := sigmoid (gi i j + gh i j)%R in
  let z i j := sigmoid (gi i (n_hid + j)%nat + gh i (n_hid + j)%nat)%R in
  let n i j := tanh (gi i (2 * n_hid + j)%nat
                     + r i j * gh i (2 * n_hid + j)%nat)%R in
  (fun i j => ((1 - z i j) * n i j + z i j * h i j)%R, snd s).

(** State after the steps [0 .. t] of the sequence [xs]. *)
Fixpoint scan (cell : (nat -> nat -> R) -> CellState -> CellState)
         (xs : nat -> nat -> nat -> R) (s0 : CellState) (t : nat) : CellState :=
  match t with
  | O => cell (xs 0) s0
  | S t' => cell (xs t) (scan cell xs s0 t')
  end.

Definition rnn_cell (layer : RNNLayer) (dir : nat) :=
  match rnn_kind layer with
  | LSTM => lstm_cell (rnn_params layer dir) (input_size layer) (hidden_size layer)
  | GRU => gru_cell (rnn_params layer dir) (input_size layer) (hidden_size layer)
  end.

Definition num_directions (layer : RNNLayer) : nat :=
  if rnn_bidirectional layer then 2 else 1.

Definition hidden_ok (layer : RNNLayer) (batch : nat) (h : Tensor3) : bool :=
  (t3_time h =? num_directions layer) && (t3_batch h =? batch)
  && (t3_feat h =? hidden_size layer).

(** The hidden values of the direction that reads the sequence from its
    first step, and of the one that reads it from its last step. *)
Definition forward_direction (layer : RNNLayer) (x h0 c0 : Tensor3)
           (t : nat) : nat -> nat -> R :=
  fst (scan (rnn_cell layer 0) (t3_at x) (t3_at h0 0, t3_at c0 0) t).

Definition backward_direction (layer : RNNLayer) (x h0 c0 : Tensor3)
           (t : nat) : nat -> nat -> R :=
  fst (scan (rnn_cell layer 1) (fun s => t3_at x (t3_time x - 1 - s))
            (t3_at h0 1, t3_at c0 1) (t3_time x - 1 - t)).

(** The output sequence of the layer, of shape
    (time, batch, num_directions * hidden_size): the forward direction
    fills the first [hidden_size] features, the backward direction the
    following ones. *)
Definition rnn_output (layer : RNNLayer) (x : Tensor3) (h0 c0 : Tensor3) : Tensor3 :=
  mkT3 (t3_time x) (t3_batch x) (num_directions layer * hidden_size layer)
       (fun t i j => if j <? hidden_size layer
                     then forward_direction layer x h0 c0 t i j
                     else backward_direction layer x h0 c0 t i
                                             (j - hidden_size layer)).

(** The layer runs only on a sequence with at least one step. *)
Definition run_rnn (layer : RNNLayer) (x h0 c0 : Tensor3) : Result Tensor3 :=
  if t3_time x =? 0
  then Raise (TorchError "Expected sequence length to be larger than 0 in RNN")
  else Ok (rnn_output layer x h0 c0).

(** [layer(input, hidden)]: the arguments are checked, then the layer is
    run; the final state the framework returns next to the output sequence
    is dropped by the caller and left out here. *)
Definition rnn_apply (layer : RNNLayer) (x : Tensor3) (hidden : Hidden)
  : Result Tensor3 :=
  if negb (t3_feat x =? input_size layer)
  then Raise (TorchError "input.size(-1) must be equal to input_size")
  else
    match rnn_kind layer, hidden with
    | LSTM, HiddenLSTM h c =>
        if hidden_ok layer (t3_batch x) h && hidden_ok layer (t3_batch x) c
        then run_rnn layer x h c
        else Raise (TorchError "Expected hidden size")
    | GRU, HiddenGRU h =>
        if hidden_ok layer (t3_batch x) h
        then run_rnn layer x h h
        else Raise (TorchError "Expected hidden size")
    | _, _ => Raise (TorchError "hidden state of the wrong kind")
    end.

(** *** [nn.BatchNorm1d(num_features, eps, momentum, affine=False)] *)

Record BatchNorm1d : Type := mkBatchNorm1d {
  num_features : nat;
  bn_eps : R;
  bn_momentum : R;
  running_mean : nat -> R;
  running_var : nat -> R
}.

Definition nn_BatchNorm1d (input_dim : nat) (eps momentum : R) : BatchNorm1d :=
  mkBatchNorm1d input_dim eps momentum (fun _ => 0%R) (fun _ => 1%R).

Definition batch_mean (x : Tensor2) (j : nat) : R :=
  (rsum (t2_rows x) (fun i => t2_at x i j) / INR (t2_rows x))%R.

Definition batch_sqdev (x : Tensor2) (j : nat) : R :=
  rsum (t2_rows x) (fun i => (t2_at x i j - batch_mean x j)
                             * (t2_at x i j - batch_mean x j))%R.

(** Training mode: the batch is normalised with its own mean and (biased)
    variance, and the running statistics move towards the batch's mean and
    unbiased variance.  A batch of one vector is refused. *)
Definition batch_norm_apply (bn : BatchNorm1d) (x : Tensor2)
  : Result (Tensor2 * BatchNorm1d) :=
  if negb (t2_cols x =? num_features bn)
  then Raise (TorchError "running_mean should contain as many elements as features")
  else if t2_rows x =? 1
  then Raise (TorchError "Expected more than 1 value per channel when training")
  else
    let var j := (batch_sqdev x j / INR (t2_rows x))%R in
    let uvar j := (batch_sqdev x j / INR (t2_rows x - 1))%R in
    let m := bn_momentum bn in
    Ok (mkT2 (t2_rows x) (t2_cols x)
             (fun i j => ((t2_at x i j - batch_mean x j)
                          / sqrt (var j + bn_eps bn))%R),
        mkBatchNorm1d (num_features bn) (bn_eps bn) (bn_momentum bn)
          (fun j => ((1 - m) * running_mean bn j + m * batch_mean x j)%R)
          (fun j => ((1 - m) * running_var bn j + m * uvar j)%R)).

(* ================================================================= *)
(** ** The module *)

(** The arguments of [ClopiNet.__init__].  [attention] is [None] for
    Python's [False]. *)
Record Config : Type := mkConfig {
  n_features : nat;
  rnn : string;
  recurrent : list nat;
  bidirectional : bool;
  linear : list nat;
  weighted : bool;
  internal : bool;
  normalize : bool;
  attention : option (list nat);
  return_attention : bool;
  batch_normalization : bool
}.

(** Initial parameter values for the layer with a given index. *)
Record Initializer : Type := mkInitializer {
  init_recurrent : nat -> nat -> RNNParams;     (* layer, direction *)
  init_linear : nat -> LinearParams;
  init_attention : nat -> LinearParams
}.

Record ClopiNet : Type := mkClopiNet {
  config : Config;
  num_directions_ : nat;
  recurrent_layers_ : list RNNLayer;
  linear_layers_ : list Linear;
  alphas_ : option Tensor1;
  batch_norm_ : option BatchNorm1d;
  attention_layers_ : list Linear
}.

(** Python's truth value of the [attention] argument: [False] and the
    empty list are false. *)
Definition attention_truthy (a : option (list nat)) : bool :=
  match a with
  | None => false
  | Some [] => false
  | Some (_ :: _) => true
  end.

(** *** [__init__] *)

Local Open Scope result_scope.

Definition new_recurrent_layer (rnn : string) (bidirectional : bool)
           (p : nat -> RNNParams) (input_dim hidden_dim : nat) : Result RNNLayer :=
  if String.eqb rnn "LSTM" then nn_LSTM input_dim hidden_dim bidirectional p
  else if String.eqb rnn "GRU" then nn_GRU input_dim hidden_dim bidirectional p
  else Raise ValueError_rnn.

(** The loop creating the recurrent layers, from layer number [i] on. *)
Fixpoint build_recurrent (rnn : string) (bidirectional : bool)
         (init : nat -> nat -> RNNParams) (i input_dim : nat) (dims : list nat)
  : Result (list RNNLayer) :=
  match dims with
  | [] => Ok []
  | hidden_dim :: rest =>
      recurrent_layer <- new_recurrent_layer rnn bidirectional (init i)
                                             input_dim hidden_dim ;;
      layers <- build_recurrent rnn bidirectional init (S i) hidden_dim rest ;;
      Ok (recurrent_layer :: layers)
  end.

(** The loop creating a chain of linear layers; returns the layers and the
    value of [input_dim] after the loop. *)
Fixpoint build_linear (init : nat -> LinearParams) (i input_dim : nat)
         (dims : list nat) : list Linear * nat :=
  match dims with
  | [] => ([], input_dim)
  | hidden_dim :: rest =>
      let linear_layer := nn_Linear input_dim hidden_dim (init i) in
      let '(layers, d) := build_linear init (S i) hidden_dim rest in
      (linear_layer :: layers, d)
  end.

Definition ones (n : nat) : Tensor1 := mkT1 n (fun _ => 1%R).

Definition ClopiNet_init (cfg : Config) (init : Initializer) : Result ClopiNet :=
  let num_directions_ := if bidirectional cfg then 2 else 1 in
  recurrent_layers_ <- build_recurrent (rnn cfg) (bidirectional cfg)
                         (init_recurrent init) 0 (n_features cfg) (recurrent cfg) ;;
  let input_dim := list_sum (recurrent cfg) in
  let '(linear_layers_, input_dim) :=
    build_linear (init_linear init) 0 input_dim (linear cfg) in
  let alphas_ := if weighted cfg then Some (ones input_dim) else None in
  let batch_norm_ :=
    if batch_normalization cfg
    then Some (nn_BatchNorm1d input_dim (1 / 100000)%R (1 / 10)%R)
    else None in
  if negb (attention_truthy (attention cfg))
  then Ok (mkClopiNet cfg num_directions_ recurrent_layers_ linear_layers_
                      alphas_ batch_norm_ [])
  else
    let dims := match attention cfg with Some l => l | None => [] end in
    let '(attention_layers_, input_dim) :=
      build_linear (init_attention init) 0 (n_features cfg) dims in
    let attention_layers_ :=
      if 1 <? input_dim
      then attention_layers_
             ++ [nn_Linear input_dim 1 (init_attention init (List.length dims))]
      else attention_layers_ in
    Ok (mkClopiNet cfg num_directions_ recurrent_layers_ linear_layers_
                   alphas_ batch_norm_ attention_layers_).

(** *** [output_dim] *)

Definition output_dim (self : ClopiNet) : nat :=
  match linear (config self) with
  | [] => list_sum (recurrent (config self))
  | _ :: _ => last (linear (config self)) 0
  end.

(** *** [forward] *)

(** What [forward] returns: the per-step embeddings in internal mode, one
    embedding per sequence otherwise, paired with the attention weights
    when [return_attention] is set. *)
Inductive Output : Type :=
| PerStep (output : Tensor3)
| Embedding (output : Tensor2)
| WithAttention (output : Tensor2) (attn : Tensor3).

(** Computations that may raise and may update the module. *)
Definition M (A : Type) : Type := ClopiNet -> Result A * ClopiNet.

Definition mret {A : Type} (a : A) : M A := fun self => (Ok a, self).

Definition mbind {A B : Type} (m : M A) (k : A -> M B) : M B :=
  fun self =>
    match m self with
    | (Ok a, self') => k a self'
    | (Raise e, self') => (Raise e, self')
    end.

Definition lift {A : Type} (r : Result A) : M A := fun self => (r, self).

Definition raise {A : Type} (e : Exception) : M A := fun self => (Raise e, self).

Declare Scope module_scope.
Delimit Scope module_scope with module.
Notation "x <-- m ;; k" := (mbind m (fun x => k))
  (at level 61, m at next level, right associativity) : module_scope.
Notation "' p <-- m ;; k" := (mbind m (fun p => k))
  (at level 61, p pattern, m at next level, right associativity) : module_scope.

(** The initial state of a recurrent layer; [hidden] stays unassigned when
    [rnn] is neither kind. *)
Definition initial_hidden (self : ClopiNet) (batch_size hidden_dim : nat)
  : Result Hidden :=
  if String.eqb (rnn (config self)) "LSTM"
  then Ok (HiddenLSTM (zeros3 (num_directions_ self) batch_size hidden_dim)
                      (zeros3 (num_directions_ self) batch_size hidden_dim))
  else if String.eqb (rnn (config self)) "GRU"
  then Ok (HiddenGRU (zeros3 (num_directions_ self) batch_size hidden_dim))
  else Raise (UnboundLocalError "hidden").

(** [.5 * (output[:, :, :hidden_dim] + output[:, :, hidden_dim:])] *)
Definition average_directions (hidden_dim : nat) (output : Tensor3)
  : Result Tensor3 :=
  s <- add3 (slice_to hidden_dim output) (slice_from hidden_dim output) ;;
  Ok (scale3 (1 / 2)%R s).

(** The body of the loop over the recurrent layers. *)
Definition recurrent_step (self : ClopiNet) (batch_size hidden_dim : nat)
           (layer : RNNLayer) (output : Tensor3) : Result Tensor3 :=
  hidden <- initial_hidden self batch_size hidden_dim ;;
  output <- rnn_apply layer output hidden ;;
  if bidirectional (config self)
  then average_directions hidden_dim output
  else Ok output.

(** The loop over [zip(self.recurrent, self.recurrent_layers_)]: returns
    the list [outputs]. *)
Fixpoint recurrent_loop (self : ClopiNet) (batch_size : nat)
         (zipped : list (nat * RNNLayer)) (output : Tensor3)
         (outputs : list Tensor3) : Result (list Tensor3) :=
  match zipped with
  | [] => Ok outputs
  | (hidden_dim, layer) :: rest =>
      output <- recurrent_step self batch_size hidden_dim layer output ;;
      recurrent_loop self batch_size rest output (outputs ++ [output])
  end.

(** A chain of linear layers, each followed by tanh. *)
Fixpoint tanh_layers (layers : list Linear) (output : Tensor3) : Result Tensor3 :=
  match layers with
  | [] => Ok output
  | layer :: rest =>
      output <- linear_apply layer output ;;
      tanh_layers rest (tanh3 output)
  end.

(** The recurrent stack and the concatenation of its outputs. *)
Definition recurrent_stage (self : ClopiNet) (sequence : Tensor3)
  : Result Tensor3 :=
  outputs <- recurrent_loop self (t3_batch sequence)
               (combine (recurrent (config self)) (recurrent_layers_ self))
               sequence [] ;;
  cat_dim2 outputs.

(** The loop over [zip(self.linear, self.linear_layers_)]. *)
Definition linear_stage (self : ClopiNet) (output : Tensor3) : Result Tensor3 :=
  tanh_layers (map snd (combine (linear (config self)) (linear_layers_ self)))
              output.

Definition weight_stage (self : ClopiNet) (output : Tensor3) : Result Tensor3 :=
  if weighted (config self)
  then match alphas_ self with
       | Some alphas => mul_vec3 output alphas
       | None => Raise (TypeError "alphas_")
       end
  else Ok output.

(** [attention + [1]]. *)
Definition attention_plus_one (self : ClopiNet) : Result (list nat) :=
  match attention (config self) with
  | Some l => Ok (l ++ [1])
  | None => Raise (TypeError "unsupported operand type(s) for +")
  end.

(** The attention weights: the attention layers applied to the input
    sequence, then softmax over time. *)
Definition attention_weights (self : ClopiNet) (sequence : Tensor3)
  : Result Tensor3 :=
  dims <- attention_plus_one self ;;
  attn <- tanh_layers (map fst (combine (attention_layers_ self) dims))
                      sequence ;;
  Ok (softmax_dim0 attn).

(** The attention block: the weighted output and the local variable
    [attn], which is unassigned ([None]) when there are no attention
    layers. *)
Definition attention_stage (self : ClopiNet) (sequence output : Tensor3)
  : Result (Tensor3 * option Tensor3) :=
  match attention_layers_ self with
  | [] => Ok (output, None)
  | _ :: _ =>
      attn <- attention_weights self sequence ;;
      output <- mul3 output attn ;;
      Ok (output, Some attn)
  end.

(** [output / torch.norm(output, 2, 2, keepdim=True)] and
    [output / torch.norm(output, 2, 1, keepdim=True)]: the division is
    applied to every vector, with no test on the norm.  For a vector whose
    norm is zero the floating-point quotient is NaN, which a real number
    cannot stand for (the real quotient by zero is 0); what is stated
    about normalised values is therefore stated for vectors that are not
    all zeros. *)
Definition normalize_steps (output : Tensor3) : Result Tensor3 :=
  div3 output (norm3 output).

Definition normalize_rows (output : Tensor2) : Result Tensor2 :=
  div2 output (norm2 output).

(** [self.batch_norm_(output)]: the running statistics of the sub-module
    are updated in place. *)
Definition call_batch_norm (output : Tensor2) : M Tensor2 :=
  fun self =>
    match batch_norm_ self with
    | None => (Raise (TypeError "batch_norm_"), self)
    | Some bn =>
        match batch_norm_apply bn output with
        | Raise e => (Raise e, self)
        | Ok (output, bn') =>
            (Ok output,
             mkClopiNet (config self) (num_directions_ self)
                        (recurrent_layers_ self) (linear_layers_ self)
                        (alphas_ self) (Some bn') (attention_layers_ self))
        end
    end.

Local Open Scope module_scope.

Definition forward (sequence : Tensor3) : M Output :=
  fun self =>
  let cfg := config self in
  let '(n_samples, batch_size, n_feat) := size3 sequence in
  if negb (n_feat =? n_features cfg)
  then (Raise (ValueError_feature n_feat (n_features cfg)), self)
  else
    (output <-- lift (recurrent_stage self sequence) ;;
     output <-- lift (linear_stage self output) ;;
     output <-- lift (weight_stage self output) ;;
     if internal cfg
     then
       output <-- (if normalize cfg then lift (normalize_steps output)
                   else mret output) ;;
       mret (PerStep output)
     else
       ' (output, attn) <-- lift (attention_stage self sequence output) ;;
       let output := sum_dim0 output in
       output <-- (if normalize cfg then lift (normalize_rows output)
                   else mret output) ;;
       output <-- (if batch_normalization cfg then call_batch_norm output
                   else mret output) ;;
       if return_attention cfg
       then match attn with
            | Some attn => mret (WithAttention output attn)
            | None => raise (UnboundLocalError "attn")
            end
       else mret (Embedding output)) self.

(** The pure part of [forward] up to the branch on [internal]: the
    per-step embeddings. *)
Definition frame_embeddings (self : ClopiNet) (sequence : Tensor3)
  : Result Tensor3 :=
  (output <- recurrent_stage self sequence ;;
   output <- linear_stage self output ;;
   weight_stage self output)%result.

(** The per-step embeddings after the attention block, and their sum over
    time. *)
Definition weighted_frames (self : ClopiNet) (sequence : Tensor3)
  : Result Tensor3 :=
  (output <- frame_embeddings self sequence ;;
   r <- attention_stage self sequence output ;;
   Ok (fst r))%result.

Definition pooled_output (self : ClopiNet) (sequence : Tensor3)
  : Result Tensor2 :=
  (output <- weighted_frames self sequence ;;
   Ok (sum_dim0 output))%result.

(** The embedding inside a returned value, if it is a pooled one. *)
Definition embedding_of (r : Output) : option Tensor2 :=
  match r with
  | PerStep _ => None
  | Embedding e => Some e
  | WithAttention e _ => Some e
  end.

Definition attention_of (r : Output) : option Tensor3 :=
  match r with
  | WithAttention _ a => Some a
  | _ => None
  end.

(** Every hidden dimension of the attention layers is at least 1. *)
Definition attention_dims_positive (cfg : Config) : Prop :=
  match attention cfg with
  | Some dims => Forall (fun d => 0 < d) dims
  | None => True
  end.

(** The constructor's default arguments. *)
Definition default_config (n : nat) : Config :=
  mkConfig n "LSTM" [16] false [16] false false true None false false.

(* ================================================================= *)
(** ** Notions used in the statements, and fixtures for the examples *)

(** The attention layers a configuration asks for. *)
Definition attention_chain (cfg : Config) (init : Initializer) : list Linear :=
  if attention_truthy (attention cfg)
  then
    let dims := match attention cfg with Some l => l | None => [] end in
    let built := build_linear (init_attention init) 0 (n_features cfg) dims in
    if 1 <? snd built
    then fst built ++ [nn_Linear (snd built) 1
                                 (init_attention init (List.length dims))]
    else fst built
  else [].

(** [o] has the time and batch extents of [x]. *)
Definition same_frame (o x : Tensor3) : Prop :=
  t3_time o = t3_time x /\ t3_batch o = t3_batch x.

(** The [return] statements that end the pooled path of [forward]. *)
Definition return_value (cfg : Config) (attn : option Tensor3)
           (output : Tensor2) : Result Output :=
  if return_attention cfg
  then match attn with
       | Some attn => Ok (WithAttention output attn)
       | None => Raise (UnboundLocalError "attn")
       end
  else Ok (Embedding output).

(** Every exception except the feature-dimension one. *)
Definition other_error (e : Exception) : Prop :=
  match e with
  | ValueError_feature _ _ => False
  | _ => True
  end.

Definition raises_only (P : Exception -> Prop) {A : Type} (r : Result A) : Prop :=
  forall e, r = Raise e -> P e.

(** The conditions under which a call goes through every stage: an input
    of the right feature dimension with at least one time step and one
    sequence, at least one recurrent layer, and outside internal mode
    positive attention dimensions, more than one sequence for batch
    normalisation, and no [return_attention] without attention layers. *)
Record call_ready (cfg : Config) (x : Tensor3) : Prop := mkCallReady {
  ready_features : t3_feat x = n_features cfg;
  ready_time : 0 < t3_time x;
  ready_sequences : 0 < t3_batch x;
  ready_recurrent : recurrent cfg <> [];
  ready_attention :
    internal cfg = false -> attention_dims_positive cfg;
  ready_batch :
    internal cfg = false -> batch_normalization cfg = true -> t3_batch x <> 1;
  ready_return :
    internal cfg = false -> return_attention cfg = true ->
    attention_truthy (attention cfg) = true
}.

Definition zero_rnn_params : RNNParams :=
  mkRNNParams (fun _ _ => 0%R) (fun _ _ => 0%R) (fun _ => 0%R) (fun _ => 0%R).

(** A linear layer with zero weights and the bias [b] everywhere. *)
Definition bias_only (b : R) : LinearParams :=
  mkLinearParams (fun _ _ => 0%R) (fun _ => b).

Definition bias_init (b : R) : Initializer :=
  mkInitializer (fun _ _ => zero_rnn_params) (fun _ => bias_only b)
                (fun _ => bias_only 0%R).

Definition constant_sequence (n b d : nat) (v : R) : Tensor3 :=
  mkT3 n b d (fun _ _ _ => v).

(** [ClopiNet(4, recurrent=[8], linear=[5])]. *)
Definition example_config : Config :=
  mkConfig 4 "LSTM" [8] false [5] false false true None false false.

(** [ClopiNet(4, return_attention=True)], attention left at its default. *)
Definition return_attention_config : Config :=
  mkConfig 4 "LSTM" [16] false [16] false false true None true false.

(** [ClopiNet(4, recurrent=[])]. *)
Definition no_recurrent_config : Config :=
  mkConfig 4 "LSTM" [] false [16] false false true None false false.

(** [ClopiNet(4, rnn='RNN', recurrent=[])] and [ClopiNet(4, rnn='RNN')]. *)
Definition unknown_kind_config (recurrent : list nat) : Config :=
  mkConfig 4 "RNN" recurrent false [16] false false true None false false.


(** [ClopiNet(4, recurrent=[8], linear=[5], attention=[6],
    return_attention=True)]. *)
Definition attention_config : Config :=
  mkConfig 4 "LSTM" [8] false [5] false false true (Some [6]) true false.

(** [ClopiNet(4, recurrent=[8, 6], bidirectional=True, linear=[5])]. *)
Definition bidirectional_config : Config :=
  mkConfig 4 "LSTM" [8; 6] true [5] false false true None false false.

(** [ClopiNet(4, recurrent=[8], linear=[5], normalize=False)]. *)
Definition plain_sum_config : Config :=
  mkConfig 4 "LSTM" [8] false [5] false false false None false false.

(** [ClopiNet(1, recurrent=[1], linear=[1], batch_normalization=True)];
    [normalize] is True by default. *)
Definition batch_norm_config : Config :=
  mkConfig 1 "LSTM" [1] false [1] false false true None false true.

(** The statement C5 makes about pooled embeddings. *)
Definition unit_norm_claim : Prop :=
  forall cfg init m x r m' e i,
    ClopiNet_init cfg init = Ok m ->
    normalize cfg = true ->
    forward x m = (Ok r, m') ->
    embedding_of r = Some e ->
    i < t3_batch x ->
    l2_row e i = 1%R.

(** Batch-normalisation sub-modules that differ at most in their running
    statistics. *)
Definition same_batch_norm (a b : option BatchNorm1d) : Prop :=
  match a, b with
  | None, None => True
  | Some p, Some q =>
      num_features p = num_features q /\ bn_eps p = bn_eps q
      /\ bn_momentum p = bn_momentum q
  | _, _ => False
  end.

(** Modules with the same configuration, layers and parameters. *)
Definition same_layers (a b : ClopiNet) : Prop :=
  config a = config b
  /\ num_directions_ a = num_directions_ b
  /\ recurrent_layers_ a = recurrent_layers_ b
  /\ linear_layers_ a = linear_layers_ b
  /\ alphas_ a = alphas_ b
  /\ attention_layers_ a = attention_layers_ b
  /\ same_batch_norm (batch_norm_ a) (batch_norm_ b).

(** Configurations that agree on every argument the per-step embeddings
    are computed from. *)
Definition same_embedding_options (a b : Config) : Prop :=
  n_features a = n_features b
  /\ rnn a = rnn b
  /\ recurrent a = recurrent b
  /\ bidirectional a = bidirectional b
  /\ linear a = linear b
  /\ weighted a = weighted b
  /\ normalize a = normalize b.

(** [ClopiNet(4, recurrent=[8], linear=[5], weighted=True, internal=True,
    attention=[6], batch_normalization=True)]. *)
Definition internal_all_config : Config :=
  mkConfig 4 "LSTM" [8] false [5] true true true (Some [6]) false true.

(** [ClopiNet(4, recurrent=[8], linear=[5], weighted=True, internal=True)]. *)
Definition internal_weighted_config : Config :=
  mkConfig 4 "LSTM" [8] false [5] true true true None false false.

(** [ClopiNet(4, recurrent=[8], linear=[5], normalize=False,
    batch_normalization=True)]. *)
Definition batch_norm_only_config : Config :=
  mkConfig 4 "LSTM" [8] false [5] false false false None false true.



(* ================================================================= *)
(** ** Tensor operations: shapes and values *)

Lemma broadcast_dim_same (n : nat) : broadcast_dim n n = Some n.
Proof. unfold broadcast_dim. now rewrite Nat.eqb_refl. Qed.

Lemma broadcast_dim_one_r (n : nat) : broadcast_dim n 1 = Some n.
Proof.
  unfold broadcast_dim.
  destruct (n =? 1) eqn:E; [reflexivity | now rewrite Nat.eqb_refl].
Qed.

Lemma bidx_lt (n i : nat) : i < n -> bidx n i = i.
Proof.
  unfold bidx. intros H.
  destruct (n =? 1) eqn:E; [apply Nat.eqb_eq in E; lia | reflexivity].
Qed.

Lemma rsum_ext (n : nat) (f g : nat -> R) :
  (forall k, k < n -> f k = g k) -> rsum n f = rsum n g.
Proof.
  induction n as [|n IH]; intros H; simpl; [reflexivity|].
  rewrite IH by (intros; apply H; lia). rewrite H by lia. reflexivity.
Qed.

Lemma rsum_zero (n : nat) (f : nat -> R) :
  (forall k, k < n -> f k = 0%R) -> rsum n f = 0%R.
Proof.
  induction n as [|n IH]; intros H; simpl; [reflexivity|].
  rewrite IH by (intros; apply H; lia). rewrite H by lia. lra.
Qed.

Lemma rsum_scale (n : nat) (c : R) (f : nat -> R) :
  rsum n (fun k => (f k * c)%R) = (rsum n f * c)%R.
Proof.
  induction n as [|n IH]; simpl; [lra|]. rewrite IH. lra.
Qed.

Lemma rsum_nonneg (n : nat) (f : nat -> R) :
  (forall k, k < n -> (0 <= f k)%R) -> (0 <= rsum n f)%R.
Proof.
  induction n as [|n IH]; intros H; simpl; [lra|].
  assert (0 <= rsum n f)%R by (apply IH; intros; apply H; lia).
  assert (0 <= f n)%R by (apply H; lia). lra.
Qed.

Lemma rsum_pos (n : nat) (f : nat -> R) :
  0 < n -> (forall k, k < n -> (0 < f k)%R) -> (0 < rsum n f)%R.
Proof.
  intros Hn H. destruct n as [|n]; [lia|]. simpl.
  assert (0 <= rsum n f)%R
    by (apply rsum_nonneg; intros; apply Rlt_le, H; lia).
  assert (0 < f n)%R by (apply H; lia). lra.
Qed.

(** A sum of squares with a non-zero term is positive. *)
Lemma rsum_squares_pos (n : nat) (f : nat -> R) :
  (exists k, k < n /\ f k <> 0%R) -> (0 < rsum n (fun k => f k * f k))%R.
Proof.
  induction n as [|n IH]; intros [k [Hk Hne]]; [lia|]. simpl.
  assert (Hsq : forall a : R, (0 <= a * a)%R) by (intros; nra).
  assert (0 <= rsum n (fun k => f k * f k))%R
    by (apply rsum_nonneg; intros; apply Hsq).
  destruct (Nat.eq_dec k n) as [->|Hkn].
  - assert (0 < f n * f n)%R by nra. lra.
  - assert (0 < rsum n (fun k => f k * f k))%R
      by (apply IH; exists k; split; [lia | assumption]).
    specialize (Hsq (f n)). lra.
Qed.

Lemma last_cons {A : Type} (a : A) (l : list A) (d : A) :
  last (a :: l) d = last l a.
Proof.
  revert a d. induction l as [|b l IH]; intros a d; [reflexivity|].
  change (last (a :: b :: l) d) with (last (b :: l) d).
  rewrite !IH. reflexivity.
Qed.

(* ================================================================= *)
(** ** The constructor *)

Lemma build_linear_snd (init : nat -> LinearParams) (dims : list nat) :
  forall i d, snd (build_linear init i d dims) = last dims d.
Proof.
  induction dims as [|h rest IH]; intros i d; [reflexivity|].
  simpl build_linear. specialize (IH (S i) h).
  destruct (build_linear init (S i) h rest) as [ls e]. simpl in *.
  rewrite IH. symmetry. apply last_cons.
Qed.

Lemma build_linear_length (init : nat -> LinearParams) (dims : list nat) :
  forall i d, List.length (fst (build_linear init i d dims)) = List.length dims.
Proof.
  induction dims as [|h rest IH]; intros i d; [reflexivity|].
  simpl build_linear. specialize (IH (S i) h).
  destruct (build_linear init (S i) h rest) as [ls e]. simpl in *. lia.
Qed.

Lemma ClopiNet_init_inv (cfg : Config) (init : Initializer) (m : ClopiNet) :
  ClopiNet_init cfg init = Ok m ->
  config m = cfg
  /\ num_directions_ m = (if bidirectional cfg then 2 else 1)
  /\ build_recurrent (rnn cfg) (bidirectional cfg) (init_recurrent init) 0
       (n_features cfg) (recurrent cfg) = Ok (recurrent_layers_ m)
  /\ linear_layers_ m
     = fst (build_linear (init_linear init) 0 (list_sum (recurrent cfg))
                         (linear cfg))
  /\ alphas_ m
     = (if weighted cfg
        then Some (ones (last (linear cfg) (list_sum (recurrent cfg))))
        else None)
  /\ batch_norm_ m
     = (if batch_normalization cfg
        then Some (nn_BatchNorm1d (last (linear cfg) (list_sum (recurrent cfg)))
                                  (1 / 100000)%R (1 / 10)%R)
        else None)
  /\ attention_layers_ m = attention_chain cfg init.
Proof.
  unfold ClopiNet_init, attention_chain. intros H.
  destruct (build_recurrent _ _ _ _ _ _) as [rl|e] eqn:Hrec; [|discriminate].
  simpl in H.
  pose proof (build_linear_snd (init_linear init) (linear cfg) 0
                               (list_sum (recurrent cfg))) as Hsnd.
  destruct (build_linear (init_linear init) 0 _ (linear cfg)) as [ll d] eqn:Hlin.
  simpl in Hsnd. subst d.
  destruct (attention_truthy (attention cfg)); simpl in H.
  - destruct (build_linear (init_attention init) 0 _ _) as [al d']; simpl.
    inversion H; subst m; simpl. repeat split; reflexivity.
  - inversion H; subst m; simpl. repeat split; reflexivity.
Qed.

(* ================================================================= *)
(** ** The stages of [forward] *)

Lemma map_snd_combine {A B : Type} (l1 : list A) (l2 : list B) :
  List.length l2 <= List.length l1 -> map snd (combine l1 l2) = l2.
Proof.
  revert l1. induction l2 as [|b l2 IH]; intros [|a l1] H; simpl in *;
    try reflexivity; try lia.
  f_equal. apply IH. lia.
Qed.

Lemma map_fst_combine {A B : Type} (l1 : list A) (l2 : list B) :
  List.length l1 <= List.length l2 -> map fst (combine l1 l2) = l1.
Proof.
  revert l2. induction l1 as [|a l1 IH]; intros [|b l2] H; simpl in *;
    try reflexivity; try lia.
  f_equal. apply IH. lia.
Qed.

Lemma linear_apply_ok (layer : Linear) (x : Tensor3) :
  t3_feat x = in_features layer ->
  exists o, linear_apply layer x = Ok o
            /\ same_frame o x /\ t3_feat o = out_features layer
            /\ forall t i j, t3_at o t i j
                 = affine (lp_weight (lin_params layer))
                          (lp_bias (lin_params layer))
                          (in_features layer) (t3_at x t i) j.
Proof.
  intros H. unfold linear_apply. rewrite H, Nat.eqb_refl.
  eexists. split; [reflexivity|]. repeat split.
Qed.

Lemma tanh_layers_app (l1 l2 : list Linear) :
  forall x, tanh_layers (l1 ++ l2) x = rbind (tanh_layers l1 x) (tanh_layers l2).
Proof.
  induction l1 as [|a l1 IH]; intros x; simpl; [reflexivity|].
  destruct (linear_apply a x) as [o|e]; simpl; [apply IH | reflexivity].
Qed.

(** A chain built by the constructor accepts any input of the chain's
    input dimension and produces the chain's last hidden dimension. *)
Lemma tanh_layers_built (init : nat -> LinearParams) (dims : list nat) :
  forall i d x,
    t3_feat x = d ->
    exists o, tanh_layers (fst (build_linear init i d dims)) x = Ok o
              /\ same_frame o x /\ t3_feat o = last dims d.
Proof.
  induction dims as [|h rest IH]; intros i d x Hx.
  - exists x. simpl. repeat split. assumption.
  - simpl build_linear.
    destruct (build_linear init (S i) h rest) as [ls e] eqn:Hb.
    simpl fst. simpl tanh_layers.
    destruct (@linear_apply_ok (nn_Linear d h (init i)) x Hx)
      as [o [Ho [[Ht Hbt] [Hf _]]]].
    rewrite Ho. simpl rbind.
    destruct (IH (S i) h (tanh3 o) Hf) as [o' [Ho' [[Ht' Hb'] Hf']]].
    rewrite Hb in Ho'. simpl in Ho'.
    exists o'. split; [exact Ho'|]. unfold same_frame.
    simpl in Ht', Hb'. rewrite last_cons. repeat split; congruence.
Qed.

Lemma new_recurrent_layer_inv (r : string) (bi : bool) (p : nat -> RNNParams)
      (input_dim hidden_dim : nat) (layer : RNNLayer) :
  new_recurrent_layer r bi p input_dim hidden_dim = Ok layer ->
  input_size layer = input_dim /\ hidden_size layer = hidden_dim
  /\ rnn_bidirectional layer = bi
  /\ ((String.eqb r "LSTM" = true /\ rnn_kind layer = LSTM)
      \/ (String.eqb r "LSTM" = false /\ String.eqb r "GRU" = true
          /\ rnn_kind layer = GRU)).
Proof.
  unfold new_recurrent_layer, nn_LSTM, nn_GRU. intros H.
  destruct (String.eqb r "LSTM") eqn:E1.
  - destruct (hidden_dim =? 0); [discriminate|].
    inversion H; subst; simpl. repeat split. left. split; reflexivity.
  - destruct (String.eqb r "GRU") eqn:E2; [|discriminate].
    destruct (hidden_dim =? 0); [discriminate|].
    inversion H; subst; simpl. repeat split. right. repeat split.
Qed.

Lemma new_recurrent_layer_positive (r : string) (bi : bool)
      (p : nat -> RNNParams) (input_dim hidden_dim : nat) (layer : RNNLayer) :
  new_recurrent_layer r bi p input_dim hidden_dim = Ok layer ->
  0 < hidden_dim /\ rnn_params layer = p.
Proof.
  unfold new_recurrent_layer, nn_LSTM, nn_GRU. intros H.
  destruct (hidden_dim =? 0) eqn:E0.
  - destruct (String.eqb r "LSTM"); [discriminate|].
    destruct (String.eqb r "GRU"); discriminate.
  - apply Nat.eqb_neq in E0. split; [lia|].
    destruct (String.eqb r "LSTM"); [inversion H; reflexivity|].
    destruct (String.eqb r "GRU"); [inversion H; reflexivity | discriminate].
Qed.

Lemma rnn_apply_empty (layer : RNNLayer) (x : Tensor3) (hidden : Hidden) :
  t3_time x = 0 -> is_ok (rnn_apply layer x hidden) = false.
Proof.
  intros Ht. unfold rnn_apply, run_rnn. rewrite Ht. simpl.
  destruct (negb (t3_feat x =? input_size layer)); [reflexivity|].
  destruct (rnn_kind layer), hidden as [h c|h]; try reflexivity.
  - destruct (hidden_ok layer (t3_batch x) h && hidden_ok layer (t3_batch x) c);
      reflexivity.
  - destruct (hidden_ok layer (t3_batch x) h); reflexivity.
Qed.

Lemma average_directions_ok (h : nat) (x : Tensor3) :
  t3_feat x = 2 * h ->
  exists o, average_directions h x = Ok o
            /\ same_frame o x /\ t3_feat o = h
            /\ forall t i j, t < t3_time x -> i < t3_batch x -> j < h ->
                 t3_at o t i j
                 = (1 / 2 * (t3_at x t i j + t3_at x t i (h + j)))%R.
Proof.
  intros Hf. unfold average_directions, add3, broadcast3, slice_to, slice_from.
  simpl. rewrite !broadcast_dim_same.
  replace (Nat.min h (t3_feat x)) with h by lia.
  replace (t3_feat x - h) with h by lia.
  rewrite broadcast_dim_same. simpl.
  eexists. split; [reflexivity|]. unfold same_frame. simpl.
  repeat split. intros t i j Ht Hi Hj.
  rewrite !bidx_lt by assumption. reflexivity.
Qed.

Section RecurrentStack.

Variable self : ClopiNet.
Hypothesis Hdirs :
  num_directions_ self = (if bidirectional (config self) then 2 else 1).

(** The output of a layer built by the constructor, before the two
    directions are averaged. *)
Lemma rnn_apply_built (p : nat -> RNNParams) (input_dim h : nat)
      (layer : RNNLayer) (x : Tensor3) :
  new_recurrent_layer (rnn (config self)) (bidirectional (config self))
                      p input_dim h = Ok layer ->
  t3_feat x = input_dim ->
  0 < t3_time x ->
  let z := zeros3 (num_directions_ self) (t3_batch x) h in
  exists hidden,
    initial_hidden self (t3_batch x) h = Ok hidden
    /\ rnn_apply layer x hidden = Ok (rnn_output layer x z z)
    /\ same_frame (rnn_output layer x z z) x
    /\ t3_feat (rnn_output layer x z z)
       = (if bidirectional (config self) then 2 else 1) * h.
Proof.
  intros Hl Hx Htime z.
  destruct (new_recurrent_layer_inv _ _ _ _ _ _ Hl)
    as [Hin [Hhid [Hbi Hkind]]].
  assert (Hrun : forall h0 c0,
             run_rnn layer x h0 c0 = Ok (rnn_output layer x h0 c0)).
  { intros h0 c0. unfold run_rnn.
    destruct (t3_time x =? 0) eqn:E; [apply Nat.eqb_eq in E; lia | reflexivity]. }
  assert (Hzeros : hidden_ok layer (t3_batch x) z = true).
  { unfold hidden_ok, num_directions, z. simpl.
    rewrite Hdirs, Hbi, Hhid, !Nat.eqb_refl. reflexivity. }
  assert (Hshape : same_frame (rnn_output layer x z z) x
                   /\ t3_feat (rnn_output layer x z z)
                      = (if bidirectional (config self) then 2 else 1) * h).
  { unfold same_frame, rnn_output, num_directions. simpl.
    rewrite Hbi, Hhid. repeat split. }
  unfold initial_hidden, rnn_apply.
  rewrite Hx, Hin, Nat.eqb_refl. simpl negb.
  destruct Hkind as [[E1 Hk]|[E1 [E2 Hk]]]; rewrite E1, ?E2, Hk.
  - eexists. split; [reflexivity|].
    cbv beta iota. fold z. rewrite Hzeros. simpl andb. cbv beta iota.
    split; [apply Hrun | exact Hshape].
  - eexists. split; [reflexivity|].
    cbv beta iota. fold z. rewrite Hzeros. cbv beta iota.
    split; [apply Hrun | exact Hshape].
Qed.

Lemma recurrent_step_ok (p : nat -> RNNParams) (input_dim h : nat)
      (layer : RNNLayer) (x : Tensor3) :
  new_recurrent_layer (rnn (config self)) (bidirectional (config self))
                      p input_dim h = Ok layer ->
  t3_feat x = input_dim ->
  0 < t3_time x ->
  exists o, recurrent_step self (t3_batch x) h layer x = Ok o
            /\ same_frame o x /\ t3_feat o = h.
Proof.
  intros Hl Hx Htime.
  destruct (@rnn_apply_built p input_dim h layer x Hl Hx Htime)
    as [hid [Hh [Hr [[Ht Hb] Hf]]]].
  set (raw := rnn_output layer x
                (zeros3 (num_directions_ self) (t3_batch x) h)
                (zeros3 (num_directions_ self) (t3_batch x) h)) in *.
  unfold recurrent_step. rewrite Hh. simpl rbind. rewrite Hr. simpl rbind.
  destruct (bidirectional (config self)).
  - destruct (@average_directions_ok h raw Hf) as [o [Ho [[Ht' Hb'] [Hf' _]]]].
    exists o. split; [exact Ho|]. unfold same_frame.
    repeat split; congruence.
  - exists raw. split; [reflexivity|]. unfold same_frame.
    repeat split; try assumption. lia.
Qed.

Lemma recurrent_loop_built (init : nat -> nat -> RNNParams) (dims : list nat) :
  forall i input_dim layers x acc,
    build_recurrent (rnn (config self)) (bidirectional (config self))
                    init i input_dim dims = Ok layers ->
    t3_feat x = input_dim ->
    0 < t3_time x ->
    exists outs,
      recurrent_loop self (t3_batch x) (combine dims layers) x acc
      = Ok (acc ++ outs)
      /\ map t3_feat outs = dims
      /\ Forall (fun o => same_frame o x) outs.
Proof.
  induction dims as [|h rest IH];
    intros i input_dim layers x acc Hb Hx Htime.
  - exists []. simpl. rewrite app_nil_r. repeat split. constructor.
  - simpl in Hb.
    destruct (new_recurrent_layer _ _ _ _ _) as [layer|e] eqn:Hl;
      [|discriminate]. simpl in Hb.
    destruct (build_recurrent _ _ _ _ _ rest) as [ls|e] eqn:Hrest;
      [|discriminate]. simpl in Hb. inversion Hb; subst layers; clear Hb.
    simpl combine. simpl recurrent_loop.
    destruct (@recurrent_step_ok (init i) input_dim h layer x Hl Hx Htime)
      as [o [Ho [[Ht Hbt] Hf]]].
    rewrite Ho. simpl rbind.
    destruct (IH (S i) h ls o (acc ++ [o]) Hrest Hf ltac:(lia))
      as [outs [Hloop [Hmap Hall]]].
    rewrite Hbt in Hloop.
    exists (o :: outs). rewrite Hloop, <- app_assoc. simpl.
    split; [reflexivity|]. split; [congruence|].
    constructor; [split; assumption|].
    eapply Forall_impl; [|exact Hall].
    intros a [Ha1 Ha2]. split; congruence.
Qed.

End RecurrentStack.

Lemma cat2_ok (x y : Tensor3) :
  same_frame y x ->
  exists o, cat2 x y = Ok o /\ same_frame o x
            /\ t3_feat o = t3_feat x + t3_feat y.
Proof.
  intros [Ht Hb]. unfold cat2. rewrite Ht, Hb, !Nat.eqb_refl. simpl.
  eexists. split; [reflexivity|]. repeat split.
Qed.

Lemma cat_dim2_ok (x0 : Tensor3) (xs : list Tensor3) :
  xs <> [] ->
  Forall (fun o => same_frame o x0) xs ->
  exists o, cat_dim2 xs = Ok o /\ same_frame o x0
            /\ t3_feat o = list_sum (map t3_feat xs).
Proof.
  induction xs as [|x rest IH]; intros Hne Hall; [congruence|].
  inversion Hall as [|? ? Hx Hrest]; subst.
  destruct rest as [|y rest'].
  - exists x. simpl. repeat split; try apply Hx. lia.
  - destruct IH as [o [Ho [[Ht Hb] Hf]]]; [discriminate | assumption |].
    change (cat_dim2 (x :: y :: rest'))
      with (rbind (cat_dim2 (y :: rest')) (cat2 x)).
    rewrite Ho. simpl rbind.
    destruct (@cat2_ok x o) as [o' [Ho' [[Ht' Hb'] Hf']]].
    { destruct Hx. split; congruence. }
    exists o'. split; [exact Ho'|]. destruct Hx.
    split; [split; congruence|].
    rewrite Hf', Hf. reflexivity.
Qed.

(** [forward], with its sequencing written out. *)
Lemma forward_eq (self : ClopiNet) (x : Tensor3) :
  forward x self =
  let cfg := config self in
  if negb (t3_feat x =? n_features cfg)
  then (Raise (ValueError_feature (t3_feat x) (n_features cfg)), self)
  else
    match frame_embeddings self x with
    | Raise e => (Raise e, self)
    | Ok frames =>
        if internal cfg
        then (rbind (if normalize cfg then normalize_steps frames else Ok frames)
                    (fun o => Ok (PerStep o)), self)
        else
          match attention_stage self x frames with
          | Raise e => (Raise e, self)
          | Ok (w, attn) =>
              match (if normalize cfg then normalize_rows (sum_dim0 w)
                     else Ok (sum_dim0 w)) with
              | Raise e => (Raise e, self)
              | Ok normed =>
                  if batch_normalization cfg
                  then match call_batch_norm normed self with
                       | (Ok out, self') => (return_value cfg attn out, self')
                       | (Raise e, self') => (Raise e, self')
                       end
                  else (return_value cfg attn normed, self)
              end
          end
    end.
Proof.
  unfold forward, frame_embeddings, return_value, size3. cbv zeta.
  destruct (negb (t3_feat x =? n_features (config self))); [reflexivity|].
  unfold mbind, lift, mret, raise.
  destruct (recurrent_stage self x) as [o1|e]; simpl; [|reflexivity].
  destruct (linear_stage self o1) as [o2|e]; simpl; [|reflexivity].
  destruct (weight_stage self o2) as [o3|e]; simpl; [|reflexivity].
  destruct (internal (config self)).
  - destruct (normalize (config self)); simpl; [|reflexivity].
    destruct (normalize_steps o3); reflexivity.
  - destruct (attention_stage self x o3) as [[w attn]|e]; simpl; [|reflexivity].
    destruct (normalize (config self)); simpl.
    + destruct (normalize_rows (sum_dim0 w)) as [n|e]; simpl; [|reflexivity].
      destruct (batch_normalization (config self)).
      * destruct (call_batch_norm n self) as [[out|e] self']; [|reflexivity].
        destruct (return_attention (config self)); [|reflexivity].
        destruct attn; reflexivity.
      * destruct (return_attention (config self)); [|reflexivity].
        destruct attn; reflexivity.
    + destruct (batch_normalization (config self)).
      * destruct (call_batch_norm (sum_dim0 w) self) as [[out|e] self'];
          [|reflexivity].
        destruct (return_attention (config self)); [|reflexivity].
        destruct attn; reflexivity.
      * destruct (return_attention (config self)); [|reflexivity].
        destruct attn; reflexivity.
Qed.

Lemma last_default {A : Type} (l : list A) (d d' : A) :
  l <> [] -> last l d = last l d'.
Proof.
  induction l as [|a l IH]; intros H; [congruence|].
  destruct l as [|b l]; [reflexivity|].
  change (last (b :: l) d = last (b :: l) d'). apply IH. discriminate.
Qed.

Lemma output_dim_last (self : ClopiNet) :
  output_dim self
  = last (linear (config self)) (list_sum (recurrent (config self))).
Proof.
  unfold output_dim. destruct (linear (config self)) as [|a l] eqn:E;
    [reflexivity|].
  apply last_default. discriminate.
Qed.

Lemma div3_norm3 (x : Tensor3) :
  exists o, normalize_steps x = Ok o
            /\ size3 o = size3 x
            /\ forall t i j, t < t3_time x -> i < t3_batch x -> j < t3_feat x ->
                 t3_at o t i j = (t3_at x t i j / l2_step x t i)%R.
Proof.
  unfold normalize_steps, div3, broadcast3, norm3. simpl.
  rewrite !broadcast_dim_same, broadcast_dim_one_r.
  eexists. split; [reflexivity|]. split; [reflexivity|].
  intros t i j Ht Hi Hj. simpl. rewrite !bidx_lt by assumption. reflexivity.
Qed.

Lemma div2_norm2 (x : Tensor2) :
  exists o, normalize_rows x = Ok o
            /\ size2 o = size2 x
            /\ forall i j, i < t2_rows x -> j < t2_cols x ->
                 t2_at o i j = (t2_at x i j / l2_row x i)%R.
Proof.
  unfold normalize_rows, div2, broadcast2, norm2. simpl.
  rewrite !broadcast_dim_same, broadcast_dim_one_r.
  eexists. split; [reflexivity|]. split; [reflexivity|].
  intros i j Hi Hj. simpl. rewrite !bidx_lt by assumption. reflexivity.
Qed.

(** Dividing a vector with a non-zero entry by its Euclidean norm gives a
    vector of norm 1. *)
Lemma unit_after_division (n : nat) (v : nat -> R) :
  (exists k, k < n /\ v k <> 0%R) ->
  let s := sqrt (rsum n (fun k => v k * v k)%R) in
  sqrt (rsum n (fun k => (v k / s) * (v k / s))%R) = 1%R.
Proof.
  intros Hnz s.
  pose proof (rsum_squares_pos n v Hnz) as Hpos.
  assert (Hs : (0 < s)%R) by (apply sqrt_lt_R0; exact Hpos).
  assert (Hss : (s * s = rsum n (fun k => v k * v k)%R)%R)
    by (apply sqrt_sqrt; lra).
  rewrite (rsum_ext n _ (fun k => (v k * v k * / (s * s))%R)).
  - rewrite rsum_scale, <- Hss.
    replace (s * s * / (s * s))%R with 1%R by (field; lra).
    apply sqrt_1.
  - intros k _. field. lra.
Qed.

(* ================================================================= *)
(** ** Stages of a constructed module *)

Section Constructed.

Variables (cfg : Config) (init : Initializer) (m : ClopiNet).
Hypothesis Hinit : ClopiNet_init cfg init = Ok m.

Lemma constructed_config : config m = cfg.
Proof. apply (ClopiNet_init_inv cfg init m Hinit). Qed.

Lemma recurrent_stage_empty (x : Tensor3) :
  recurrent cfg = [] -> is_ok (recurrent_stage m x) = false.
Proof.
  intros He. unfold recurrent_stage.
  rewrite constructed_config, He. reflexivity.
Qed.

(** A recurrent stack never returns on a sequence without steps. *)
Lemma recurrent_stage_time (x o : Tensor3) :
  recurrent_stage m x = Ok o -> 0 < t3_time x.
Proof.
  intros Ho.
  destruct (t3_time x) as [|n] eqn:Ht; [exfalso | lia].
  destruct (ClopiNet_init_inv cfg init m Hinit) as [Hc [_ [Hr _]]].
  destruct (recurrent cfg) as [|h rest] eqn:Hrec.
  - pose proof (recurrent_stage_empty x Hrec) as Hbad.
    rewrite Ho in Hbad. discriminate Hbad.
  - simpl in Hr.
    destruct (new_recurrent_layer _ _ _ _ _) as [layer|e]; [|discriminate].
    simpl in Hr.
    destruct (build_recurrent _ _ _ _ _ rest) as [ls|e]; [|discriminate].
    simpl in Hr. inversion Hr as [Hlayers].
    unfold recurrent_stage in Ho. rewrite Hc, Hrec, <- Hlayers in Ho.
    simpl in Ho. unfold recurrent_step in Ho.
    destruct (initial_hidden m (t3_batch x) h) as [hidden|e];
      [|discriminate Ho]. simpl in Ho.
    pose proof (rnn_apply_empty layer x hidden Ht) as Hbad.
    destruct (rnn_apply layer x hidden); [discriminate Hbad | discriminate Ho].
Qed.

Lemma recurrent_stage_ok (x : Tensor3) :
  t3_feat x = n_features cfg ->
  0 < t3_time x ->
  recurrent cfg <> [] ->
  exists o, recurrent_stage m x = Ok o
            /\ same_frame o x /\ t3_feat o = list_sum (recurrent cfg).
Proof.
  intros Hx Htime Hne.
  destruct (ClopiNet_init_inv cfg init m Hinit) as [Hc [Hd [Hr _]]].
  rewrite <- Hc in Hd, Hr, Hx.
  destruct (@recurrent_loop_built m Hd (init_recurrent init)
              (recurrent (config m)) 0 _ _ x [] Hr Hx Htime)
    as [outs [Hloop [Hmap Hall]]].
  unfold recurrent_stage. rewrite Hloop. simpl.
  destruct (@cat_dim2_ok x outs) as [o [Ho [Hfr Hf]]].
  - intros ->. simpl in Hmap. rewrite Hc in Hmap. congruence.
  - exact Hall.
  - exists o. rewrite Hf, Hmap, Hc. auto.
Qed.

Lemma linear_stage_ok (o1 : Tensor3) :
  t3_feat o1 = list_sum (recurrent cfg) ->
  exists o, linear_stage m o1 = Ok o
            /\ same_frame o o1
            /\ t3_feat o = last (linear cfg) (list_sum (recurrent cfg)).
Proof.
  intros Hf.
  destruct (ClopiNet_init_inv cfg init m Hinit) as [Hc [_ [_ [Hl _]]]].
  unfold linear_stage. rewrite Hc, Hl, map_snd_combine.
  - apply tanh_layers_built. exact Hf.
  - rewrite build_linear_length. lia.
Qed.

Lemma weight_stage_ok (o2 : Tensor3) :
  t3_feat o2 = last (linear cfg) (list_sum (recurrent cfg)) ->
  exists o, weight_stage m o2 = Ok o
            /\ same_frame o o2 /\ t3_feat o = t3_feat o2.
Proof.
  intros Hf.
  destruct (ClopiNet_init_inv cfg init m Hinit) as [Hc [_ [_ [_ [Ha _]]]]].
  unfold weight_stage. rewrite Hc, Ha.
  destruct (weighted cfg).
  - unfold mul_vec3, ones. simpl. rewrite Hf, broadcast_dim_same.
    eexists. split; [reflexivity|]. unfold same_frame. simpl. auto.
  - exists o2. unfold same_frame. auto.
Qed.

Lemma frame_embeddings_ok (x : Tensor3) :
  t3_feat x = n_features cfg ->
  0 < t3_time x ->
  recurrent cfg <> [] ->
  exists o, frame_embeddings m x = Ok o
            /\ same_frame o x /\ t3_feat o = output_dim m.
Proof.
  intros Hx Htime Hne. unfold frame_embeddings.
  destruct (recurrent_stage_ok x Hx Htime Hne) as [o1 [H1 [[Ht1 Hb1] Hf1]]].
  destruct (linear_stage_ok o1 Hf1) as [o2 [H2 [[Ht2 Hb2] Hf2]]].
  destruct (weight_stage_ok o2 Hf2) as [o3 [H3 [[Ht3 Hb3] Hf3]]].
  rewrite H1. simpl. rewrite H2. simpl. rewrite H3.
  exists o3. split; [reflexivity|]. unfold same_frame.
  rewrite output_dim_last, constructed_config.
  repeat split; congruence.
Qed.

Lemma frame_embeddings_inv (x o : Tensor3) :
  t3_feat x = n_features cfg ->
  frame_embeddings m x = Ok o ->
  recurrent cfg <> [] /\ same_frame o x /\ t3_feat o = output_dim m.
Proof.
  intros Hx Ho.
  assert (Hne : recurrent cfg <> []).
  { intros He. pose proof (recurrent_stage_empty x He) as Hbad.
    unfold frame_embeddings in Ho.
    destruct (recurrent_stage m x); [discriminate Hbad | discriminate Ho]. }
  split; [exact Hne|].
  assert (Htime : 0 < t3_time x).
  { unfold frame_embeddings in Ho.
    destruct (recurrent_stage m x) as [o1|e] eqn:H1; [|discriminate Ho].
    exact (recurrent_stage_time x o1 H1). }
  destruct (frame_embeddings_ok x Hx Htime Hne) as [o' [Ho' Hrest]].
  rewrite Ho in Ho'. inversion Ho'; subst o'. exact Hrest.
Qed.

Lemma frame_embeddings_time (x o : Tensor3) :
  frame_embeddings m x = Ok o -> 0 < t3_time x.
Proof.
  intros Ho. unfold frame_embeddings in Ho.
  destruct (recurrent_stage m x) as [o1|e] eqn:H1; [|discriminate Ho].
  exact (recurrent_stage_time x o1 H1).
Qed.

(** *** The attention layers *)

Lemma attention_layers_nonempty :
  attention_truthy (attention cfg) = true <-> attention_layers_ m <> [].
Proof.
  destruct (ClopiNet_init_inv cfg init m Hinit) as [_ [_ [_ [_ [_ [_ Ha]]]]]].
  rewrite Ha. unfold attention_chain.
  destruct (attention cfg) as [[|d dims]|]; simpl; split;
    try congruence; try discriminate; intros _; try reflexivity.
  destruct (build_linear (init_attention init) 1 d dims) as [ls e]. simpl.
  destruct (1 <? e); discriminate.
Qed.

Lemma attention_weights_ok (x : Tensor3) :
  t3_feat x = n_features cfg ->
  attention_truthy (attention cfg) = true ->
  exists pre, tanh_layers (attention_layers_ m) x = Ok pre
              /\ attention_weights m x = Ok (softmax_dim0 pre)
              /\ same_frame pre x
              /\ (attention_dims_positive cfg -> t3_feat pre = 1).
Proof.
  intros Hx Htr.
  destruct (ClopiNet_init_inv cfg init m Hinit) as [Hc [_ [_ [_ [_ [_ Ha]]]]]].
  unfold attention_weights, attention_plus_one, attention_dims_positive.
  rewrite Hc, Ha. unfold attention_chain. rewrite Htr.
  destruct (attention cfg) as [dims|] eqn:Hatt; [|discriminate].
  simpl rbind.
  pose proof (build_linear_length (init_attention init) dims 0
                                  (n_features cfg)) as Hlen.
  pose proof (build_linear_snd (init_attention init) dims 0
                               (n_features cfg)) as Hsnd.
  destruct (@tanh_layers_built (init_attention init) dims 0 (n_features cfg)
                               x Hx) as [o [Ho [Hfr Hf]]].
  destruct (build_linear (init_attention init) 0 (n_features cfg) dims)
    as [ls e]. simpl in Hlen, Hsnd, Ho. simpl fst. simpl snd.
  destruct (1 <? e) eqn:Hgt.
  - rewrite map_fst_combine by (rewrite !length_app; simpl; lia).
    rewrite tanh_layers_app, Ho. simpl rbind.
    destruct (@linear_apply_ok
                (nn_Linear e 1 (init_attention init (List.length dims)))
                o) as [o' [Ho' [[Ht' Hb'] [Hf' _]]]].
    { simpl. congruence. }
    simpl tanh_layers. rewrite Ho'. simpl.
    eexists. split; [reflexivity|]. split; [reflexivity|].
    destruct Hfr. unfold same_frame. simpl.
    repeat split; try congruence. intros _. exact Hf'.
  - rewrite map_fst_combine by (rewrite length_app; simpl; lia).
    rewrite Ho. simpl.
    exists o. split; [reflexivity|]. split; [reflexivity|].
    split; [exact Hfr|]. intros Hpos.
    apply Nat.ltb_ge in Hgt.
    destruct dims as [|d dims']; [discriminate Htr|].
    assert (Hin : In (last (d :: dims') (n_features cfg)) (d :: dims')).
    { rewrite (last_default (d :: dims') _ d) by discriminate.
      destruct (@exists_last _ (d :: dims')) as [l' [a Hl]];
        [discriminate|].
      rewrite Hl, last_last. apply in_or_app. right. left. reflexivity. }
    rewrite Forall_forall in Hpos. specialize (Hpos _ Hin). lia.
Qed.

End Constructed.

(* ================================================================= *)
(** ** Which exceptions the stages raise *)

Lemma raises_only_ok (P : Exception -> Prop) {A : Type} (a : A) :
  raises_only P (Ok a).
Proof. intros e H. discriminate. Qed.

Lemma raises_only_raise (P : Exception -> Prop) {A : Type} (e : Exception) :
  P e -> raises_only P (@Raise A e).
Proof. intros H e' E. inversion E. subst. exact H. Qed.

Lemma raises_only_bind (P : Exception -> Prop) {A B : Type}
      (r : Result A) (k : A -> Result B) :
  raises_only P r -> (forall a, raises_only P (k a)) ->
  raises_only P (rbind r k).
Proof.
  intros Hr Hk e. destruct r as [a|e']; simpl.
  - apply Hk.
  - intros E. apply Hr. inversion E. reflexivity.
Qed.

Ltac raise_cases :=
  repeat match goal with
         | |- raises_only _ (Ok _) => apply raises_only_ok
         | |- raises_only _ (Raise _) => apply raises_only_raise; exact I
         | |- raises_only _ (rbind _ _) => apply raises_only_bind; [|intros ?]
         | |- raises_only _ (if ?b then _ else _) => destruct b
         | |- raises_only _ (match ?x with _ => _ end) => destruct x
         end.

Lemma broadcast3_raises (op : R -> R -> R) (x y : Tensor3) :
  raises_only other_error (broadcast3 op x y).
Proof. unfold broadcast3. raise_cases. Qed.

Lemma broadcast2_raises (op : R -> R -> R) (x y : Tensor2) :
  raises_only other_error (broadcast2 op x y).
Proof. unfold broadcast2. raise_cases. Qed.

Lemma linear_apply_raises (layer : Linear) (x : Tensor3) :
  raises_only other_error (linear_apply layer x).
Proof. unfold linear_apply. raise_cases. Qed.

Lemma tanh_layers_raises (layers : list Linear) :
  forall x, raises_only other_error (tanh_layers layers x).
Proof.
  induction layers as [|l ls IH]; intros x; simpl.
  - apply raises_only_ok.
  - apply raises_only_bind; [apply linear_apply_raises | intros a; apply IH].
Qed.

Lemma recurrent_step_raises (self : ClopiNet) (b h : nat) (layer : RNNLayer)
      (x : Tensor3) :
  raises_only other_error (recurrent_step self b h layer x).
Proof.
  unfold recurrent_step, initial_hidden, rnn_apply, run_rnn,
    average_directions, add3.
  raise_cases; apply broadcast3_raises.
Qed.

Lemma recurrent_loop_raises (self : ClopiNet) (b : nat)
      (zipped : list (nat * RNNLayer)) :
  forall x acc, raises_only other_error (recurrent_loop self b zipped x acc).
Proof.
  induction zipped as [|[h layer] rest IH]; intros x acc; simpl.
  - apply raises_only_ok.
  - apply raises_only_bind; [apply recurrent_step_raises | intros a; apply IH].
Qed.

Lemma cat_dim2_raises (xs : list Tensor3) :
  raises_only other_error (cat_dim2 xs).
Proof.
  induction xs as [|x rest IH].
  - apply raises_only_raise. exact I.
  - destruct rest as [|y rest']; [apply raises_only_ok|].
    change (cat_dim2 (x :: y :: rest'))
      with (rbind (cat_dim2 (y :: rest')) (cat2 x)).
    apply raises_only_bind; [exact IH|].
    intros a. unfold cat2. raise_cases.
Qed.

Lemma frame_embeddings_raises (self : ClopiNet) (x : Tensor3) :
  raises_only other_error (frame_embeddings self x).
Proof.
  unfold frame_embeddings, recurrent_stage, linear_stage, weight_stage, mul_vec3.
  apply raises_only_bind.
  - apply raises_only_bind; [apply recurrent_loop_raises|].
    intros a. apply cat_dim2_raises.
  - intros a. apply raises_only_bind; [apply tanh_layers_raises|].
    intros a'. raise_cases.
Qed.

Lemma attention_stage_raises (self : ClopiNet) (x frames : Tensor3) :
  raises_only other_error (attention_stage self x frames).
Proof.
  unfold attention_stage, attention_weights, attention_plus_one, mul3.
  destruct (attention_layers_ self); [apply raises_only_ok|].
  apply raises_only_bind.
  - apply raises_only_bind; [raise_cases|].
    intros a. apply raises_only_bind; [apply tanh_layers_raises|].
    intros a'. apply raises_only_ok.
  - intros a. apply raises_only_bind; [apply broadcast3_raises|].
    intros a'. apply raises_only_ok.
Qed.

Lemma call_batch_norm_raises (self self' : ClopiNet) (x : Tensor2) (e : Exception) :
  call_batch_norm x self = (Raise e, self') -> other_error e /\ self' = self.
Proof.
  unfold call_batch_norm, batch_norm_apply.
  destruct (batch_norm_ self) as [bn|].
  - destruct (negb (t2_cols x =? num_features bn)).
    + intros H. inversion H. split; [exact I | reflexivity].
    + destruct (t2_rows x =? 1); intros H; inversion H.
      split; [exact I | reflexivity].
  - intros H. inversion H. split; [exact I | reflexivity].
Qed.

Lemma return_value_raises (cfg : Config) (attn : option Tensor3) (o : Tensor2) :
  raises_only other_error (return_value cfg attn o).
Proof. unfold return_value. raise_cases. Qed.

(* ================================================================= *)
(** ** Attention, pooling and batch normalisation *)


Lemma mul3_frame (a b o : Tensor3) :
  same_frame b a -> mul3 a b = Ok o ->
  same_frame o a /\ broadcast_dim (t3_feat a) (t3_feat b) = Some (t3_feat o).
Proof.
  intros [Ht Hb]. unfold mul3, broadcast3.
  rewrite Ht, Hb, !broadcast_dim_same.
  destruct (broadcast_dim (t3_feat a) (t3_feat b)) as [d|]; [|discriminate].
  intros H. inversion H; subst o. unfold same_frame. simpl. auto.
Qed.

Lemma mul3_scalar_weights (a b : Tensor3) :
  same_frame b a -> t3_feat b = 1 ->
  exists o, mul3 a b = Ok o /\ size3 o = size3 a
            /\ forall t i j, t < t3_time a -> i < t3_batch a -> j < t3_feat a ->
                 t3_at o t i j = (t3_at a t i j * t3_at b t i 0)%R.
Proof.
  intros [Ht Hb] Hf. unfold mul3, broadcast3.
  rewrite Ht, Hb, Hf, !broadcast_dim_same, broadcast_dim_one_r.
  eexists. split; [reflexivity|]. split; [reflexivity|].
  intros t i j HT HB HD. simpl. rewrite !bidx_lt by assumption. reflexivity.
Qed.

Section ConstructedAttention.

Variables (cfg : Config) (init : Initializer) (m : ClopiNet).
Hypothesis Hinit : ClopiNet_init cfg init = Ok m.
Variable x : Tensor3.
Hypothesis Hx : t3_feat x = n_features cfg.

Lemma attention_stage_off (frames : Tensor3) :
  attention_truthy (attention cfg) = false ->
  attention_stage m x frames = Ok (frames, None).
Proof.
  intros Hoff. unfold attention_stage.
  destruct (attention_layers_ m) as [|l ls] eqn:E; [reflexivity|].
  assert (Hne : attention_layers_ m <> []) by (rewrite E; discriminate).
  apply (attention_layers_nonempty cfg init m Hinit) in Hne. congruence.
Qed.

Lemma attention_stage_on (frames : Tensor3) :
  attention_truthy (attention cfg) = true ->
  exists pre,
    tanh_layers (attention_layers_ m) x = Ok pre
    /\ same_frame pre x
    /\ (attention_dims_positive cfg -> t3_feat pre = 1)
    /\ attention_stage m x frames
       = rbind (mul3 frames (softmax_dim0 pre))
               (fun w => Ok (w, Some (softmax_dim0 pre))).
Proof.
  intros Hon.
  destruct (attention_weights_ok cfg init m Hinit x Hx Hon)
    as [pre [Hpre [Hw [Hfr Hpos]]]].
  exists pre. repeat split; try assumption; try apply Hfr.
  unfold attention_stage.
  destruct (attention_layers_ m) as [|l ls] eqn:E.
  - apply (attention_layers_nonempty cfg init m Hinit) in Hon. congruence.
  - rewrite Hw. reflexivity.
Qed.

(** The shape of the attention-weighted frames. *)
Lemma attention_stage_frame (frames w : Tensor3) (attn : option Tensor3) :
  same_frame frames x ->
  attention_stage m x frames = Ok (w, attn) ->
  same_frame w x
  /\ (attention_dims_positive cfg -> t3_feat w = t3_feat frames).
Proof.
  intros Hfr Hst.
  destruct (attention_truthy (attention cfg)) eqn:Htr.
  - destruct (attention_stage_on frames Htr) as [pre [_ [Hpf [Hp1 Heq]]]].
    rewrite Heq in Hst.
    destruct (mul3 frames (softmax_dim0 pre)) as [w'|e] eqn:Hmul;
      [|discriminate].
    simpl in Hst. inversion Hst; subst w' attn.
    destruct (mul3_frame frames (softmax_dim0 pre) w) as [[Ht Hb] Hbd];
      [|exact Hmul|].
    { destruct Hpf, Hfr. split; simpl; congruence. }
    destruct Hfr. split; [split; congruence|].
    intros Hpos. simpl in Hbd. rewrite (Hp1 Hpos), broadcast_dim_one_r in Hbd.
    congruence.
  - rewrite (attention_stage_off frames Htr) in Hst.
    inversion Hst; subst. auto.
Qed.

End ConstructedAttention.

Lemma batch_norm_apply_size (bn bn' : BatchNorm1d) (x out : Tensor2) :
  batch_norm_apply bn x = Ok (out, bn') -> size2 out = size2 x.
Proof.
  unfold batch_norm_apply.
  destruct (negb (t2_cols x =? num_features bn)); [discriminate|].
  destruct (t2_rows x =? 1); [discriminate|].
  intros H. inversion H. reflexivity.
Qed.

Lemma call_batch_norm_size (self self' : ClopiNet) (x out : Tensor2) :
  call_batch_norm x self = (Ok out, self') ->
  size2 out = size2 x /\ config self' = config self.
Proof.
  unfold call_batch_norm.
  destruct (batch_norm_ self) as [bn|]; [|discriminate].
  destruct (batch_norm_apply bn x) as [[o bn']|e] eqn:E; [|discriminate].
  intros H. inversion H; subst. split; [|reflexivity].
  eapply batch_norm_apply_size. exact E.
Qed.

Lemma call_batch_norm_ok (cfg : Config) (init : Initializer) (m : ClopiNet)
      (x : Tensor2) :
  ClopiNet_init cfg init = Ok m ->
  batch_normalization cfg = true ->
  t2_cols x = output_dim m ->
  t2_rows x <> 1 ->
  exists out m', call_batch_norm x m = (Ok out, m').
Proof.
  intros Hinit Hbn Hc Hr.
  destruct (ClopiNet_init_inv cfg init m Hinit)
    as [Hcfg [_ [_ [_ [_ [Hb _]]]]]].
  unfold call_batch_norm, batch_norm_apply. rewrite Hb, Hbn. simpl.
  rewrite Hc, output_dim_last, Hcfg, Nat.eqb_refl. simpl.
  destruct (t2_rows x =? 1) eqn:E; [apply Nat.eqb_eq in E; contradiction|].
  do 2 eexists. reflexivity.
Qed.

Lemma return_value_embedding (cfg : Config) (attn : option Tensor3)
      (out : Tensor2) (r : Output) :
  return_value cfg attn out = Ok r ->
  embedding_of r = Some out
  /\ (if return_attention cfg then attn <> None /\ attention_of r = attn
      else r = Embedding out).
Proof.
  unfold return_value. destruct (return_attention cfg).
  - destruct attn as [a|]; [|discriminate].
    intros H. inversion H. simpl. repeat split. discriminate.
  - intros H. inversion H. simpl. auto.
Qed.

(* ================================================================= *)
(** ** What a successful call went through *)

Section Calls.

Variables (cfg : Config) (init : Initializer) (m : ClopiNet).
Hypothesis Hinit : ClopiNet_init cfg init = Ok m.

Lemma forward_ok_feature (x : Tensor3) (r : Output) (m' : ClopiNet) :
  forward x m = (Ok r, m') -> t3_feat x = n_features cfg.
Proof.
  rewrite forward_eq. cbv zeta.
  rewrite (constructed_config cfg init m Hinit).
  destruct (t3_feat x =? n_features cfg) eqn:E; simpl; [|discriminate].
  intros _. apply Nat.eqb_eq. exact E.
Qed.

Lemma forward_pooled_inv (x : Tensor3) (r : Output) (m' : ClopiNet) :
  internal cfg = false ->
  forward x m = (Ok r, m') ->
  t3_feat x = n_features cfg
  /\ exists frames w attn normed out,
      frame_embeddings m x = Ok frames
      /\ attention_stage m x frames = Ok (w, attn)
      /\ (if normalize cfg then normalize_rows (sum_dim0 w)
          else Ok (sum_dim0 w)) = Ok normed
      /\ (if batch_normalization cfg
          then call_batch_norm normed m = (Ok out, m')
          else out = normed /\ m' = m)
      /\ return_value cfg attn out = Ok r.
Proof.
  intros Hint Hfw. split; [eapply forward_ok_feature; exact Hfw|].
  pose proof (forward_ok_feature x r m' Hfw) as Hx.
  rewrite forward_eq in Hfw. cbv zeta in Hfw.
  rewrite (constructed_config cfg init m Hinit), Hx, Nat.eqb_refl, Hint
    in Hfw. simpl negb in Hfw. cbv iota in Hfw.
  destruct (frame_embeddings m x) as [frames|e] eqn:Hfr; [|discriminate].
  destruct (attention_stage m x frames) as [[w attn]|e] eqn:Hat;
    [|discriminate].
  destruct (if normalize cfg then normalize_rows (sum_dim0 w)
            else Ok (sum_dim0 w)) as [normed|e] eqn:Hn; [|discriminate].
  destruct (batch_normalization cfg).
  - destruct (call_batch_norm normed m) as [[out|e] m''] eqn:Hbn;
      [|discriminate].
    inversion Hfw; subst m''.
    exists frames, w, attn, normed, out. repeat split; assumption.
  - inversion Hfw; subst m'.
    exists frames, w, attn, normed, normed. repeat split; assumption.
Qed.

Lemma forward_internal_inv (x : Tensor3) (r : Output) (m' : ClopiNet) :
  internal cfg = true ->
  forward x m = (Ok r, m') ->
  t3_feat x = n_features cfg /\ m' = m
  /\ exists frames o,
      frame_embeddings m x = Ok frames
      /\ (if normalize cfg then normalize_steps frames else Ok frames) = Ok o
      /\ r = PerStep o.
Proof.
  intros Hint Hfw. split; [eapply forward_ok_feature; exact Hfw|].
  pose proof (forward_ok_feature x r m' Hfw) as Hx.
  rewrite forward_eq in Hfw. cbv zeta in Hfw.
  rewrite (constructed_config cfg init m Hinit), Hx, Nat.eqb_refl, Hint
    in Hfw. simpl negb in Hfw. cbv iota in Hfw.
  destruct (frame_embeddings m x) as [frames|e] eqn:Hfr; [|discriminate].
  destruct (if normalize cfg then normalize_steps frames else Ok frames)
    as [o|e] eqn:Hn; simpl in Hfw; [|discriminate].
  inversion Hfw. split; [reflexivity|].
  exists frames, o. repeat split. exact Hn.
Qed.

End Calls.

(* ================================================================= *)
(** ** Calls that return *)

Lemma pooled_stages_ok (cfg : Config) (init : Initializer) (m : ClopiNet)
      (x : Tensor3) :
  ClopiNet_init cfg init = Ok m ->
  t3_feat x = n_features cfg ->
  0 < t3_time x ->
  recurrent cfg <> [] ->
  attention_dims_positive cfg ->
  exists frames w attn normed,
    frame_embeddings m x = Ok frames
    /\ attention_stage m x frames = Ok (w, attn)
    /\ (attn = None <-> attention_truthy (attention cfg) = false)
    /\ (if normalize cfg then normalize_rows (sum_dim0 w)
        else Ok (sum_dim0 w)) = Ok normed
    /\ size2 normed = (t3_batch x, output_dim m).
Proof.
  intros Hinit Hx Htime Hne Hpos.
  destruct (frame_embeddings_ok cfg init m Hinit x Hx Htime Hne)
    as [frames [Hfr [Hframe Hfeat]]].
  assert (Hatt : exists w attn,
             attention_stage m x frames = Ok (w, attn)
             /\ (attn = None <-> attention_truthy (attention cfg) = false)).
  { destruct (attention_truthy (attention cfg)) eqn:Htr.
    - destruct (attention_stage_on cfg init m Hinit x Hx frames Htr)
        as [pre [_ [Hpf [Hp1 Heq]]]].
      destruct (mul3_scalar_weights frames (softmax_dim0 pre))
        as [w [Hw _]].
      { destruct Hpf, Hframe. split; simpl; congruence. }
      { simpl. apply Hp1, Hpos. }
      exists w, (Some (softmax_dim0 pre)). rewrite Heq, Hw. simpl.
      split; [reflexivity|]. split; discriminate.
    - exists frames, None.
      rewrite (attention_stage_off cfg init m Hinit x frames Htr).
      repeat split. }
  destruct Hatt as [w [attn [Hst Hnone]]].
  destruct (attention_stage_frame cfg init m Hinit x Hx frames w attn
                                  Hframe Hst) as [[Htw Hbw] Hfw].
  specialize (Hfw Hpos).
  assert (Hsum : size2 (sum_dim0 w) = (t3_batch x, output_dim m))
    by (unfold size2; simpl; congruence).
  destruct (normalize cfg).
  - destruct (div2_norm2 (sum_dim0 w)) as [n [Hn [Hsz _]]].
    exists frames, w, attn, n. repeat split; try assumption; try apply Hnone.
    congruence.
  - exists frames, w, attn, (sum_dim0 w).
    repeat split; try assumption; apply Hnone.
Qed.

Lemma forward_succeeds (cfg : Config) (init : Initializer) (m : ClopiNet)
      (x : Tensor3) :
  ClopiNet_init cfg init = Ok m ->
  call_ready cfg x ->
  exists r m', forward x m = (Ok r, m').
Proof.
  intros Hinit [Hx Htime _ Hne Hpos Hbatch Hret].
  rewrite forward_eq. cbv zeta.
  rewrite (constructed_config cfg init m Hinit), Hx, Nat.eqb_refl.
  simpl negb. cbv iota.
  destruct (internal cfg) eqn:Hint.
  - destruct (frame_embeddings_ok cfg init m Hinit x Hx Htime Hne)
      as [frames [Hfr _]].
    rewrite Hfr. destruct (normalize cfg).
    + destruct (div3_norm3 frames) as [o [Ho _]]. rewrite Ho. simpl.
      do 2 eexists. reflexivity.
    + simpl. do 2 eexists. reflexivity.
  - destruct (pooled_stages_ok cfg init m x Hinit Hx Htime Hne (Hpos eq_refl))
      as [frames [w [attn [normed [Hfr [Hst [Hnone [Hn Hsz]]]]]]]].
    rewrite Hfr, Hst, Hn.
    assert (Hrv : forall out, exists r, return_value cfg attn out = Ok r).
    { intros out. unfold return_value.
      destruct (return_attention cfg) eqn:Hra; [|eexists; reflexivity].
      destruct attn as [a|]; [eexists; reflexivity|].
      pose proof (Hret eq_refl eq_refl) as Htr.
      destruct Hnone as [Hnone _]. rewrite Hnone in Htr by reflexivity.
      discriminate. }
    inversion Hsz as [[Hrows Hcols]].
    destruct (batch_normalization cfg) eqn:Hbn.
    + destruct (call_batch_norm_ok cfg init m normed Hinit Hbn Hcols)
        as [out [m' Hcall]].
      { rewrite Hrows. apply Hbatch; reflexivity. }
      rewrite Hcall. destruct (Hrv out) as [r Hr]. rewrite Hr.
      do 2 eexists. reflexivity.
    + destruct (Hrv normed) as [r Hr]. rewrite Hr.
      do 2 eexists. reflexivity.
Qed.

(** Readiness of a concrete configuration and input. *)
Ltac solve_ready :=
  constructor; simpl;
  first [ solve [reflexivity]
        | solve [lia]
        | solve [discriminate]
        | solve [intros _; exact I]
        | solve [intros _; repeat constructor]
        | solve [intros H; discriminate H]
        | solve [intros _ H; discriminate H]
        | solve [intros _ _; simpl; lia]
        | solve [intros _ _; reflexivity] ].

Lemma weighted_frames_eq (self : ClopiNet) (x frames w : Tensor3)
      (attn : option Tensor3) :
  frame_embeddings self x = Ok frames ->
  attention_stage self x frames = Ok (w, attn) ->
  weighted_frames self x = Ok w /\ pooled_output self x = Ok (sum_dim0 w).
Proof.
  intros Hfr Hst. unfold pooled_output, weighted_frames.
  rewrite Hfr. simpl. rewrite Hst. simpl. auto.
Qed.

Lemma attention_off_positive (cfg : Config) :
  attention_truthy (attention cfg) = false -> attention_dims_positive cfg.
Proof.
  unfold attention_dims_positive.
  destruct (attention cfg) as [[|d l]|]; simpl; intros H;
    [constructor | discriminate | exact I].
Qed.

(** The shape of a pooled embedding that [forward] returned. *)
Lemma forward_pooled_shape (cfg : Config) (init : Initializer) (m : ClopiNet)
      (x : Tensor3) (r : Output) (m' : ClopiNet) :
  ClopiNet_init cfg init = Ok m ->
  attention_dims_positive cfg ->
  internal cfg = false ->
  forward x m = (Ok r, m') ->
  exists e, embedding_of r = Some e
            /\ size2 e = (t3_batch x, output_dim m)
            /\ (return_attention cfg = false -> r = Embedding e).
Proof.
  intros Hinit Hpos Hint Hfw.
  destruct (forward_pooled_inv cfg init m Hinit x r m' Hint Hfw)
    as [Hx [frames [w [attn [normed [out [Hfr [Hst [Hn [Hbn Hrv]]]]]]]]]].
  destruct (frame_embeddings_inv cfg init m Hinit x frames Hx Hfr)
    as [Hne [Hframe Hfeat]].
  destruct (attention_stage_frame cfg init m Hinit x Hx frames w attn
                                  Hframe Hst) as [[Htw Hbw] Hfw'].
  specialize (Hfw' Hpos).
  assert (Hnsz : size2 normed = (t3_batch x, output_dim m)).
  { destruct (normalize cfg).
    - destruct (div2_norm2 (sum_dim0 w)) as [n [Hn' [Hsz _]]].
      rewrite Hn in Hn'. inversion Hn'; subst n. rewrite Hsz.
      unfold size2. simpl. congruence.
    - inversion Hn; subst normed. unfold size2. simpl. congruence. }
  assert (Hosz : size2 out = (t3_batch x, output_dim m)).
  { destruct (batch_normalization cfg).
    - destruct (call_batch_norm_size m m' normed out Hbn) as [Hsz _].
      congruence.
    - destruct Hbn; subst out. exact Hnsz. }
  destruct (return_value_embedding cfg attn out r Hrv) as [He Hr].
  exists out. repeat split; try assumption.
  intros Hra. rewrite Hra in Hr. exact Hr.
Qed.

(* ================================================================= *)
(** ** Construction and the recurrent-layer kind *)

Lemma build_recurrent_known (r : string) (bi : bool)
      (init : nat -> nat -> RNNParams) (dims : list nat) :
  r = "LSTM"%string \/ r = "GRU"%string ->
  Forall (fun d => 0 < d) dims ->
  forall i d, is_ok (build_recurrent r bi init i d dims) = true.
Proof.
  intros Hk Hpos. induction dims as [|h rest IH]; intros i d; [reflexivity|].
  inversion Hpos as [|? ? Hh Hrest]; subst.
  simpl. unfold new_recurrent_layer, nn_LSTM, nn_GRU.
  replace (h =? 0) with false by (symmetry; apply Nat.eqb_neq; lia).
  assert (Hl : exists l, (if String.eqb r "LSTM"
                          then Ok (mkRNNLayer LSTM d h bi (init i))
                          else if String.eqb r "GRU"
                               then Ok (mkRNNLayer GRU d h bi (init i))
                               else Raise ValueError_rnn) = Ok l).
  { destruct Hk as [-> | ->]; eexists; reflexivity. }
  destruct Hl as [l ->]. simpl.
  specialize (IH Hrest (S i) h).
  destruct (build_recurrent r bi init (S i) h rest); [reflexivity|discriminate].
Qed.

Lemma build_recurrent_unknown (r : string) (bi : bool)
      (init : nat -> nat -> RNNParams) (dims : list nat) (i d : nat) :
  r <> "LSTM"%string -> r <> "GRU"%string -> dims <> [] ->
  build_recurrent r bi init i d dims = Raise ValueError_rnn.
Proof.
  intros H1 H2 Hne. destruct dims as [|h rest]; [congruence|].
  simpl. unfold new_recurrent_layer.
  apply String.eqb_neq in H1, H2. rewrite H1, H2. reflexivity.
Qed.

Lemma ClopiNet_init_is_ok (cfg : Config) (init : Initializer) :
  is_ok (ClopiNet_init cfg init)
  = is_ok (build_recurrent (rnn cfg) (bidirectional cfg) (init_recurrent init)
                           0 (n_features cfg) (recurrent cfg)).
Proof.
  unfold ClopiNet_init.
  destruct (build_recurrent _ _ _ _ _ _) as [rl|e]; [|reflexivity]. simpl.
  destruct (build_linear (init_linear init) 0 _ (linear cfg)) as [ll d].
  destruct (negb (attention_truthy (attention cfg))); [reflexivity|].
  destruct (build_linear (init_attention init) 0 _ _) as [al d'].
  reflexivity.
Qed.

(* ================================================================= *)
(** ** L2 normalisation *)

Lemma normalize_rows_unit (p e : Tensor2) (i : nat) :
  normalize_rows p = Ok e ->
  i < t2_rows p ->
  (exists j, j < t2_cols p /\ t2_at p i j <> 0%R) ->
  l2_row e i = 1%R.
Proof.
  intros Hn Hi Hnz.
  destruct (div2_norm2 p) as [e' [He' [Hsz Hval]]].
  rewrite Hn in He'. inversion He'; subst e'.
  assert (Hc : t2_cols e = t2_cols p) by (unfold size2 in Hsz; congruence).
  unfold l2_row at 1. rewrite Hc.
  rewrite (rsum_ext (t2_cols p) _
             (fun j => (t2_at p i j / l2_row p i * (t2_at p i j / l2_row p i))%R)).
  - apply (unit_after_division (t2_cols p) (t2_at p i) Hnz).
  - intros j Hj. rewrite (Hval i j Hi Hj). reflexivity.
Qed.

Lemma normalize_steps_unit (f o : Tensor3) (t i : nat) :
  normalize_steps f = Ok o ->
  t < t3_time f -> i < t3_batch f ->
  (exists j, j < t3_feat f /\ t3_at f t i j <> 0%R) ->
  l2_step o t i = 1%R.
Proof.
  intros Hn Ht Hi Hnz.
  destruct (div3_norm3 f) as [o' [Ho' [Hsz Hval]]].
  rewrite Hn in Ho'. inversion Ho'; subst o'.
  assert (Hc : t3_feat o = t3_feat f) by (unfold size3 in Hsz; congruence).
  unfold l2_step at 1. rewrite Hc.
  rewrite (rsum_ext (t3_feat f) _
             (fun j => (t3_at f t i j / l2_step f t i
                        * (t3_at f t i j / l2_step f t i))%R)).
  - apply (unit_after_division (t3_feat f) (t3_at f t i) Hnz).
  - intros j Hj. rewrite (Hval t i j Ht Hi Hj). reflexivity.
Qed.

(* ================================================================= *)
(** ** Failure conditions *)

(** C3.  [forward] raises the feature-dimension error exactly when the
    last axis of the input differs from [n_features]; the error comes with
    no output and with the module as it was. *)
Theorem forward_feature_mismatch (self : ClopiNet) (x : Tensor3) :
  (t3_feat x <> n_features (config self) ->
   forward x self
   = (Raise (ValueError_feature (t3_feat x) (n_features (config self))), self))
  /\ (forall found expected,
         fst (forward x self) = Raise (ValueError_feature found expected) ->
         t3_feat x <> n_features (config self)).
Proof.
  split.
  - intros Hne. rewrite forward_eq. cbv zeta.
    apply Nat.eqb_neq in Hne. rewrite Hne. reflexivity.
  - intros found expected Hraise Heq.
    rewrite forward_eq in Hraise. cbv zeta in Hraise.
    rewrite Heq, Nat.eqb_refl in Hraise. simpl negb in Hraise.
    cbv iota in Hraise.
    assert (Hno : forall A (r : Result A),
               raises_only other_error r ->
               r <> Raise (ValueError_feature found expected)).
    { intros A r Hr E. apply (Hr _ E). }
    destruct (frame_embeddings self x) as [frames|e] eqn:Hfr.
    + destruct (internal (config self)).
      * simpl in Hraise. revert Hraise. apply Hno.
        unfold normalize_steps, div3.
        apply raises_only_bind; [|intros a; apply raises_only_ok].
        destruct (normalize (config self));
          [apply broadcast3_raises | apply raises_only_ok].
      * destruct (attention_stage self x frames) as [[w attn]|e] eqn:Hst.
        -- destruct (if normalize (config self)
                     then normalize_rows (sum_dim0 w)
                     else Ok (sum_dim0 w)) as [normed|e] eqn:Hn.
           ++ destruct (batch_normalization (config self)).
              ** destruct (call_batch_norm normed self) as [[out|e] s'] eqn:Hbn.
                 --- simpl in Hraise. revert Hraise.
                     apply Hno, return_value_raises.
                 --- simpl in Hraise. inversion Hraise; subst e.
                     apply call_batch_norm_raises in Hbn. apply Hbn.
              ** simpl in Hraise. revert Hraise.
                 apply Hno, return_value_raises.
           ++ simpl in Hraise. inversion Hraise; subst e. revert Hn.
              apply Hno. unfold normalize_rows, div2.
              destruct (normalize (config self));
                [apply broadcast2_raises | apply raises_only_ok].
        -- simpl in Hraise. inversion Hraise; subst e. revert Hst.
           apply Hno, attention_stage_raises.
    + simpl in Hraise. inversion Hraise; subst e. revert Hfr.
      apply Hno, frame_embeddings_raises.
Qed.

Lemma forward_feature_mismatch_witness :
  exists m, ClopiNet_init example_config (bias_init 0%R) = Ok m
            /\ forward (constant_sequence 10 3 5 0%R) m
               = (Raise (ValueError_feature 5 4), m).
Proof.
  eexists. split; [reflexivity|].
  refine (proj1 (forward_feature_mismatch _ (constant_sequence 10 3 5 0%R)) _).
  simpl. lia.
Defined.

(** C1.  Besides the two documented failures, [forward] fails on a
    non-empty input of the right feature dimension when [return_attention]
    is set without attention layers, because the local [attn] was never
    assigned, and when the recurrent list is empty, because there is
    nothing to concatenate. *)
Theorem forward_undocumented_failures :
  (forall cfg init m x,
      ClopiNet_init cfg init = Ok m ->
      t3_feat x = n_features cfg ->
      0 < t3_time x ->
      0 < t3_batch x ->
      recurrent cfg <> [] ->
      internal cfg = false ->
      attention_truthy (attention cfg) = false ->
      return_attention cfg = true ->
      (batch_normalization cfg = true -> t3_batch x <> 1) ->
      fst (forward x m) = Raise (UnboundLocalError "attn"))
  /\ (forall cfg init m x,
         ClopiNet_init cfg init = Ok m ->
         t3_feat x = n_features cfg ->
         recurrent cfg = [] ->
         forward x m
         = (Raise (TorchError "expected a non-empty list of Tensors"), m)).
Proof.
  split.
  - intros cfg init m x Hinit Hx Htime _ Hne Hint Hoff Hra Hbatch.
    destruct (pooled_stages_ok cfg init m x Hinit Hx Htime Hne
                               (attention_off_positive cfg Hoff))
      as [frames [w [attn [normed [Hfr [Hst [Hnone [Hn Hsz]]]]]]]].
    assert (attn = None) by (apply Hnone; exact Hoff). subst attn.
    rewrite forward_eq. cbv zeta.
    rewrite (constructed_config cfg init m Hinit), Hx, Nat.eqb_refl, Hint.
    simpl negb. cbv iota. rewrite Hfr, Hst, Hn.
    inversion Hsz as [[Hrows Hcols]].
    destruct (batch_normalization cfg) eqn:Hbn.
    + destruct (call_batch_norm_ok cfg init m normed Hinit Hbn Hcols)
        as [out [m' Hcall]].
      { rewrite Hrows. apply Hbatch. reflexivity. }
      rewrite Hcall. unfold return_value. rewrite Hra. reflexivity.
    + unfold return_value. rewrite Hra. reflexivity.
  - intros cfg init m x Hinit Hx He.
    rewrite forward_eq. cbv zeta.
    rewrite (constructed_config cfg init m Hinit), Hx, Nat.eqb_refl.
    simpl negb. cbv iota.
    unfold frame_embeddings, recurrent_stage.
    rewrite (constructed_config cfg init m Hinit), He. reflexivity.
Qed.

Lemma forward_undocumented_failures_witness :
  (exists m, ClopiNet_init return_attention_config (bias_init 0%R) = Ok m
             /\ fst (forward (constant_sequence 10 3 4 0%R) m)
                = Raise (UnboundLocalError "attn"))
  /\ (exists m, ClopiNet_init no_recurrent_config (bias_init 0%R) = Ok m
                /\ fst (forward (constant_sequence 10 3 4 0%R) m)
                   = Raise (TorchError "expected a non-empty list of Tensors")).
Proof.
  split.
  - eexists. split; [reflexivity|].
    eapply (proj1 forward_undocumented_failures return_attention_config);
      try reflexivity; simpl; try lia; try discriminate.
  - eexists. split; [reflexivity|].
    erewrite (proj2 forward_undocumented_failures no_recurrent_config);
      reflexivity.
Defined.

(** C4.  Construction raises the invalid-configuration error for an
    unsupported [rnn] when there is at least one recurrent layer to create,
    and succeeds for "LSTM" and "GRU" when every recurrent hidden dimension
    is positive; with an empty recurrent list the kind is never looked at
    and construction succeeds whatever [rnn] is. *)
Theorem init_rnn_kind (cfg : Config) (init : Initializer) :
  (rnn cfg <> "LSTM"%string -> rnn cfg <> "GRU"%string ->
   recurrent cfg <> [] ->
   ClopiNet_init cfg init = Raise ValueError_rnn)
  /\ (recurrent cfg = [] -> is_ok (ClopiNet_init cfg init) = true)
  /\ (rnn cfg = "LSTM"%string \/ rnn cfg = "GRU"%string ->
      Forall (fun d => 0 < d) (recurrent cfg) ->
      is_ok (ClopiNet_init cfg init) = true).
Proof.
  repeat split.
  - intros H1 H2 Hne. unfold ClopiNet_init.
    rewrite build_recurrent_unknown by assumption. reflexivity.
  - intros He. rewrite ClopiNet_init_is_ok, He. reflexivity.
  - intros Hk Hpos. rewrite ClopiNet_init_is_ok.
    apply build_recurrent_known; assumption.
Qed.

Lemma init_rnn_kind_witness :
  ClopiNet_init (unknown_kind_config [16]) (bias_init 0%R) = Raise ValueError_rnn
  /\ is_ok (ClopiNet_init (unknown_kind_config []) (bias_init 0%R)) = true
  /\ is_ok (ClopiNet_init (default_config 4) (bias_init 0%R)) = true.
Proof.
  split; [|split].
  - apply (proj1 (init_rnn_kind (unknown_kind_config [16]) (bias_init 0%R)));
      simpl; discriminate.
  - apply (proj1 (proj2 (init_rnn_kind (unknown_kind_config [])
                                       (bias_init 0%R)))).
    reflexivity.
  - apply (proj2 (proj2 (init_rnn_kind (default_config 4) (bias_init 0%R)))).
    + left. reflexivity.
    + repeat constructor.
Defined.

(* ================================================================= *)
(** ** Shapes of what [forward] returns *)






(* ================================================================= *)
(** ** Attention weights *)




(* ================================================================= *)
(** ** Bidirectional layers *)

Lemma build_recurrent_nth (r : string) (bi : bool)
      (init : nat -> nat -> RNNParams) (dims : list nat) :
  forall i d layers k layer h,
    build_recurrent r bi init i d dims = Ok layers ->
    nth_error layers k = Some layer ->
    nth_error dims k = Some h ->
    exists p d', new_recurrent_layer r bi p d' h = Ok layer.
Proof.
  induction dims as [|h0 rest IH]; intros i d layers k layer h Hb Hl Hd.
  - destruct k; discriminate Hd.
  - simpl in Hb.
    destruct (new_recurrent_layer r bi (init i) d h0) as [l0|e] eqn:Hnew;
      [|discriminate]. simpl in Hb.
    destruct (build_recurrent r bi init (S i) h0 rest) as [ls|e] eqn:Hrest;
      [|discriminate]. simpl in Hb. inversion Hb; subst layers.
    destruct k as [|k].
    + simpl in Hl, Hd. inversion Hl; inversion Hd; subst.
      exists (init i), d. exact Hnew.
    + simpl in Hl, Hd. eapply IH; eassumption.
Qed.

Lemma recurrent_loop_steps (self : ClopiNet) (batch : nat)
      (zipped : list (nat * RNNLayer)) :
  forall x acc res,
    recurrent_loop self batch zipped x acc = Ok res ->
    exists outs,
      res = acc ++ outs
      /\ List.length outs = List.length zipped
      /\ forall k h layer o,
          nth_error zipped k = Some (h, layer) ->
          nth_error outs k = Some o ->
          recurrent_step self batch h layer (nth k (x :: outs) x) = Ok o.
Proof.
  induction zipped as [|[h0 l0] rest IH]; intros x acc res Hloop.
  - simpl in Hloop. inversion Hloop; subst res.
    exists []. rewrite app_nil_r. repeat split.
    intros [|k] h layer o Hk; discriminate Hk.
  - simpl in Hloop.
    destruct (recurrent_step self batch h0 l0 x) as [o0|e] eqn:Hstep;
      [|discriminate]. simpl in Hloop.
    destruct (IH o0 (acc ++ [o0]) res Hloop) as [outs [Hres [Hlen Hnth]]].
    exists (o0 :: outs). rewrite Hres, <- app_assoc.
    split; [reflexivity|]. split; [simpl; congruence|].
    intros [|k] h layer o Hk Ho.
    + simpl in Hk, Ho. inversion Hk; inversion Ho; subst. exact Hstep.
    + simpl in Hk, Ho.
      change (nth (S k) (x :: o0 :: outs) x) with (nth k (o0 :: outs) x).
      rewrite (nth_indep (o0 :: outs) x o0).
      * apply Hnth; assumption.
      * simpl. apply Nat.lt_lt_succ_r. apply nth_error_Some. congruence.
Qed.

Lemma nth_error_zip {A B : Type} (l : list A) :
  forall (l' : list B) k a b,
    nth_error l k = Some a ->
    nth_error l' k = Some b ->
    nth_error (combine l l') k = Some (a, b).
Proof.
  induction l as [|a0 l IH]; intros [|b0 l'] [|k] a b Ha Hb;
    try discriminate Ha; try discriminate Hb; simpl in *.
  - congruence.
  - apply IH; assumption.
Qed.

(** What a layer call that returns says about its arguments, when the
    initial state is the zero state [forward] builds. *)
Lemma rnn_apply_zeros_inv (layer : RNNLayer) (x : Tensor3) (n B h : nat)
      (hidden : Hidden) (raw : Tensor3) :
  hidden = HiddenLSTM (zeros3 n B h) (zeros3 n B h)
  \/ hidden = HiddenGRU (zeros3 n B h) ->
  rnn_apply layer x hidden = Ok raw ->
  0 < t3_time x
  /\ t3_feat x = input_size layer
  /\ t3_batch x = B
  /\ hidden_size layer = h
  /\ num_directions layer = n
  /\ raw = rnn_output layer x (zeros3 n B h) (zeros3 n B h).
Proof.
  intros Hh Hraw. unfold rnn_apply, run_rnn in Hraw.
  destruct (t3_feat x =? input_size layer) eqn:Ef; [|discriminate Hraw].
  simpl negb in Hraw. cbv iota in Hraw.
  assert (Hok : hidden_ok layer (t3_batch x) (zeros3 n B h) = true
                /\ (if t3_time x =? 0
                    then Raise (TorchError
                           "Expected sequence length to be larger than 0 in RNN")
                    else Ok (rnn_output layer x (zeros3 n B h) (zeros3 n B h)))
                   = Ok raw).
  { destruct Hh as [-> | ->]; destruct (rnn_kind layer); try discriminate Hraw;
      destruct (hidden_ok layer (t3_batch x) (zeros3 n B h));
      try discriminate Hraw; split; try reflexivity; exact Hraw. }
  destruct Hok as [Hok Hrun].
  destruct (t3_time x =? 0) eqn:Et; [discriminate Hrun|].
  inversion Hrun as [Hr]. apply Nat.eqb_neq in Et. apply Nat.eqb_eq in Ef.
  unfold hidden_ok in Hok. simpl in Hok.
  apply andb_true_iff in Hok. destruct Hok as [Hok H3].
  apply andb_true_iff in Hok. destruct Hok as [H1 H2].
  apply Nat.eqb_eq in H1, H2, H3.
  repeat split; first [lia | congruence | reflexivity].
Qed.

(** What one turn of the loop that returns has done. *)
Lemma recurrent_step_inv (self : ClopiNet) (B h : nat) (layer : RNNLayer)
      (prev o : Tensor3) :
  recurrent_step self B h layer prev = Ok o ->
  let z := zeros3 (num_directions_ self) B h in
  0 < t3_time prev
  /\ t3_feat prev = input_size layer
  /\ t3_batch prev = B
  /\ hidden_size layer = h
  /\ num_directions layer = num_directions_ self
  /\ (if bidirectional (config self)
      then average_directions h (rnn_output layer prev z z) = Ok o
      else o = rnn_output layer prev z z).
Proof.
  intros Hstep z. unfold recurrent_step in Hstep.
  destruct (initial_hidden self B h) as [hidden|e] eqn:Hh; [|discriminate Hstep].
  simpl rbind in Hstep.
  destruct (rnn_apply layer prev hidden) as [raw|e] eqn:Hraw;
    [|discriminate Hstep].
  simpl rbind in Hstep.
  assert (Hz : hidden = HiddenLSTM z z \/ hidden = HiddenGRU z).
  { unfold initial_hidden in Hh.
    destruct (String.eqb (rnn (config self)) "LSTM").
    - left. inversion Hh. reflexivity.
    - destruct (String.eqb (rnn (config self)) "GRU"); [|discriminate Hh].
      right. inversion Hh. reflexivity. }
  destruct (rnn_apply_zeros_inv layer prev _ B h hidden raw Hz Hraw)
    as [Ht [Hf [Hb [Hhid [Hnd Hr]]]]].
  fold z in Hr. subst raw.
  repeat (split; [assumption|]).
  destruct (bidirectional (config self)); [exact Hstep | congruence].
Qed.

(** Where the kept outputs end up in the concatenation. *)
Lemma cat_dim2_values (xs : list Tensor3) :
  forall c,
    cat_dim2 xs = Ok c ->
    forall k o, nth_error xs k = Some o ->
    forall t i j, j < t3_feat o ->
      t3_at c t i (list_sum (firstn k (map t3_feat xs)) + j) = t3_at o t i j.
Proof.
  induction xs as [|x rest IH]; intros c Hc k o Hk t i j Hj.
  - destruct k; discriminate Hk.
  - destruct rest as [|y rest'].
    + simpl in Hc. inversion Hc; subst c.
      destruct k as [|k]; [|destruct k; discriminate Hk].
      simpl in Hk. inversion Hk; subst o. reflexivity.
    + change (cat_dim2 (x :: y :: rest'))
        with (rbind (cat_dim2 (y :: rest')) (cat2 x)) in Hc.
      destruct (cat_dim2 (y :: rest')) as [c'|e] eqn:Hc'; [|discriminate Hc].
      simpl rbind in Hc. unfold cat2 in Hc.
      destruct ((t3_time x =? t3_time c') && (t3_batch x =? t3_batch c'));
        [|discriminate Hc].
      inversion Hc; subst c. cbn [t3_at].
      destruct k as [|k].
      * simpl in Hk. inversion Hk; subst o. simpl.
        replace (j <? t3_feat x) with true
          by (symmetry; apply Nat.ltb_lt; exact Hj).
        reflexivity.
      * change (nth_error (x :: y :: rest') (S k))
          with (nth_error (y :: rest') k) in Hk.
        change (list_sum (firstn (S k) (map t3_feat (x :: y :: rest'))))
          with (t3_feat x
                + list_sum (firstn k (map t3_feat (y :: rest')))).
        set (s := list_sum (firstn k (map t3_feat (y :: rest')))).
        replace (t3_feat x + s + j <? t3_feat x) with false
          by (symmetry; apply Nat.ltb_ge; lia).
        replace (t3_feat x + s + j - t3_feat x) with (s + j) by lia.
        exact (IH c' eq_refl k o Hk t i j Hj).
Qed.

Section ConstructedStack.

Variables (cfg : Config) (init : Initializer) (m : ClopiNet).
Hypothesis Hinit : ClopiNet_init cfg init = Ok m.

(** The first recurrent layer refuses an input of another feature
    dimension than the one it was built for. *)
Lemma recurrent_stage_feature (x o : Tensor3) :
  recurrent_stage m x = Ok o -> t3_feat x = n_features cfg.
Proof.
  intros Ho.
  destruct (ClopiNet_init_inv cfg init m Hinit) as [Hc [_ [Hr _]]].
  destruct (recurrent cfg) as [|h rest] eqn:Hrec.
  - pose proof (recurrent_stage_empty cfg init m Hinit x Hrec) as Hbad.
    rewrite Ho in Hbad. discriminate Hbad.
  - simpl in Hr.
    destruct (new_recurrent_layer _ _ _ _ _) as [layer|e] eqn:Hnew;
      [|discriminate]. simpl in Hr.
    destruct (build_recurrent _ _ _ _ _ rest) as [ls|e]; [|discriminate].
    simpl in Hr. inversion Hr as [Hlayers].
    unfold recurrent_stage in Ho. rewrite Hc, Hrec, <- Hlayers in Ho.
    simpl in Ho.
    destruct (recurrent_step m (t3_batch x) h layer x) as [o0|e] eqn:Hstep;
      [|discriminate Ho].
    destruct (recurrent_step_inv m _ h layer x o0 Hstep) as [_ [Hf _]].
    destruct (new_recurrent_layer_inv _ _ _ _ _ _ Hnew) as [Hin _].
    congruence.
Qed.

(** The loop of a call whose recurrent stage returns. *)
Lemma recurrent_stage_inv (x c : Tensor3) :
  recurrent_stage m x = Ok c ->
  exists outs,
    recurrent_loop m (t3_batch x)
                   (combine (recurrent cfg) (recurrent_layers_ m)) x []
    = Ok outs
    /\ map t3_feat outs = recurrent cfg
    /\ Forall (fun o => same_frame o x) outs
    /\ cat_dim2 outs = Ok c
    /\ size3 c = (t3_time x, t3_batch x, list_sum (recurrent cfg)).
Proof.
  intros Hc.
  pose proof (recurrent_stage_time cfg init m Hinit x c Hc) as Htime.
  pose proof (recurrent_stage_feature x c Hc) as Hx.
  destruct (ClopiNet_init_inv cfg init m Hinit) as [Hcfg [Hd [Hr _]]].
  rewrite <- Hcfg in Hd, Hr, Hx.
  destruct (recurrent_loop_built m Hd (init_recurrent init)
              (recurrent (config m)) 0 _ _ x [] Hr Hx Htime)
    as [outs [Hloop [Hmap Hall]]].
  simpl in Hloop. unfold recurrent_stage in Hc. rewrite Hloop in Hc.
  simpl rbind in Hc. rewrite Hcfg in Hloop, Hmap.
  exists outs. split; [exact Hloop|]. split; [exact Hmap|].
  split; [exact Hall|]. split; [exact Hc|].
  destruct (cat_dim2_ok x outs) as [c' [Hc' [[Ht Hb] Hf]]].
  - intros ->. simpl in Hc. discriminate Hc.
  - exact Hall.
  - rewrite Hc in Hc'. inversion Hc'; subst c'.
    unfold size3. rewrite Ht, Hb, Hf, Hmap. reflexivity.
Qed.

End ConstructedStack.

(** C9.  In a bidirectional module whose recurrent stack returns, the loop
    keeps one output per configured hidden dimension.  The output kept for
    layer [k] is one half of the sum of the forward and the backward
    direction of that layer, feature by feature, run from zero states on
    the input sequence ([k = 0]) or on the output kept for the layer before
    it; it has the layer's configured hidden dimension, while the layer's
    own output has twice it.  The kept outputs are concatenated along the
    feature axis in configuration order, so the result has the sum of the
    hidden dimensions as feature dimension, and the output of layer [k]
    sits after the features of the layers before it. *)
Theorem bidirectional_average
        (cfg : Config) (init : Initializer) (m : ClopiNet) (x c : Tensor3) :
  ClopiNet_init cfg init = Ok m ->
  bidirectional cfg = true ->
  recurrent_stage m x = Ok c ->
  exists outs,
    recurrent_loop m (t3_batch x)
                   (combine (recurrent cfg) (recurrent_layers_ m)) x []
    = Ok outs
    /\ List.length outs = List.length (recurrent cfg)
    /\ map t3_feat outs = recurrent cfg
    /\ (forall k h layer o,
           nth_error (recurrent cfg) k = Some h ->
           nth_error (recurrent_layers_ m) k = Some layer ->
           nth_error outs k = Some o ->
           let prev := nth k (x :: outs) x in
           let z := zeros3 2 (t3_batch x) h in
           size3 o = (t3_time x, t3_batch x, h)
           /\ size3 (rnn_output layer prev z z)
              = (t3_time x, t3_batch x, 2 * h)
           /\ forall t i j,
               t < t3_time x -> i < t3_batch x -> j < h ->
               t3_at o t i j
               = (1 / 2 * (forward_direction layer prev z z t i j
                           + backward_direction layer prev z z t i j))%R)
    /\ cat_dim2 outs = Ok c
    /\ size3 c = (t3_time x, t3_batch x, list_sum (recurrent cfg))
    /\ (forall k o,
           nth_error outs k = Some o ->
           forall t i j,
             j < t3_feat o ->
             t3_at c t i (list_sum (firstn k (recurrent cfg)) + j)
             = t3_at o t i j).
Proof.
  intros Hinit Hbi Hc.
  destruct (ClopiNet_init_inv cfg init m Hinit) as [Hcfg [Hd _]].
  assert (Hnd : num_directions_ m = 2) by (rewrite Hd, Hbi; reflexivity).
  destruct (recurrent_stage_inv cfg init m Hinit x c Hc)
    as [outs [Hloop [Hmap [Hall [Hcat Hsz]]]]].
  destruct (recurrent_loop_steps m _ _ x [] outs Hloop)
    as [outs' [Hres [_ Hnth]]].
  simpl in Hres. subst outs'.
  exists outs. split; [exact Hloop|].
  split; [rewrite <- Hmap; symmetry; apply length_map|].
  split; [exact Hmap|]. split; [|split; [exact Hcat|split; [exact Hsz|]]].
  - intros k h layer o Hh Hl Ho prev z.
    pose proof (Hnth k h layer o (nth_error_zip _ _ k h layer Hh Hl) Ho)
      as Hstep.
    fold prev in Hstep.
    destruct (recurrent_step_inv m _ h layer prev o Hstep)
      as [_ [_ [Hb [Hhid [Hdir Havg]]]]].
    rewrite Hcfg, Hbi, Hnd in Havg. fold z in Havg.
    assert (Hprev : same_frame prev x).
    { unfold prev. destruct k as [|k]; [split; reflexivity|].
      simpl. rewrite Forall_forall in Hall. apply Hall. apply nth_In.
      apply Nat.lt_succ_l. apply nth_error_Some. congruence. }
    destruct Hprev as [Hpt Hpb].
    assert (Hf : t3_feat (rnn_output layer prev z z) = 2 * h).
    { unfold rnn_output. simpl. rewrite Hdir, Hnd, Hhid. reflexivity. }
    destruct (average_directions_ok h (rnn_output layer prev z z) Hf)
      as [o' [Ho' [[Ht' Hb'] [Hf' Hval]]]].
    rewrite Havg in Ho'. inversion Ho'; subst o'.
    simpl in Ht', Hb'.
    split; [unfold size3; congruence|].
    split; [unfold size3; rewrite Hf; simpl; congruence|].
    intros t i j HT HB Hj.
    rewrite Hval by (simpl; congruence || lia).
    unfold rnn_output. simpl. rewrite Hhid.
    replace (j <? h) with true by (symmetry; apply Nat.ltb_lt; exact Hj).
    replace (h + j <? h) with false by (symmetry; apply Nat.ltb_ge; lia).
    replace (h + j - h) with j by lia. reflexivity.
  - intros k o Ho t i j Hj. rewrite <- Hmap.
    exact (cat_dim2_values outs c Hcat k o Ho t i j Hj).
Qed.

Lemma bidirectional_average_witness :
  exists m c outs,
    ClopiNet_init bidirectional_config (bias_init 1%R) = Ok m
    /\ recurrent_stage m (constant_sequence 10 3 4 0%R) = Ok c
    /\ recurrent_loop m 3 (combine [8; 6] (recurrent_layers_ m))
                      (constant_sequence 10 3 4 0%R) [] = Ok outs
    /\ map t3_feat outs = [8; 6]
    /\ size3 c = (10, 3, 14).
Proof.
  eexists.
  match goal with
  | |- exists c outs, ?I = Ok ?m /\ _ =>
      assert (Hinit : I = Ok m) by reflexivity;
      set (fixture := m) in *
  end.
  destruct (recurrent_stage_ok bidirectional_config (bias_init 1%R) fixture
              Hinit (constant_sequence 10 3 4 0%R) eq_refl
              ltac:(simpl; lia) ltac:(discriminate))
    as [c [Hc _]].
  destruct (bidirectional_average bidirectional_config (bias_init 1%R)
              fixture (constant_sequence 10 3 4 0%R) c Hinit eq_refl Hc)
    as [outs [Hloop [_ [Hmap [_ [_ [Hsz _]]]]]]].
  exists c, outs. split; [exact Hinit|]. split; [exact Hc|].
  split; [exact Hloop|]. split; [exact Hmap | exact Hsz].
Defined.

(* ================================================================= *)
(** ** Pooling *)

(** C8.  With [internal] off, a call that returns has pooled, for every
    batch element and feature, the sum over the time steps of the output
    of the linear and weighting stages (multiplied by the attention
    weights when there are attention layers); nothing divides the sum by
    the number of steps.  The returned embedding is this sum, passed
    through the L2 and batch normalisations that are switched on. *)
Theorem forward_sum_pooling
        (cfg : Config) (init : Initializer) (m : ClopiNet) (x : Tensor3)
        (r : Output) (m' : ClopiNet) :
  ClopiNet_init cfg init = Ok m ->
  internal cfg = false ->
  forward x m = (Ok r, m') ->
  exists frames w pooled normed out,
    frame_embeddings m x = Ok frames
    /\ weighted_frames m x = Ok w
    /\ (attention_truthy (attention cfg) = false -> w = frames)
    /\ (attention_truthy (attention cfg) = true ->
        exists a, attention_weights m x = Ok a /\ mul3 frames a = Ok w)
    /\ pooled_output m x = Ok pooled
    /\ size2 pooled = (t3_batch x, t3_feat w)
    /\ (forall i j,
           t2_at pooled i j = rsum (t3_time x) (fun t => t3_at w t i j))
    /\ (if normalize cfg then normalize_rows pooled else Ok pooled) = Ok normed
    /\ (if batch_normalization cfg
        then call_batch_norm normed m = (Ok out, m')
        else out = normed)
    /\ embedding_of r = Some out.
Proof.
  intros Hinit Hint Hfw.
  destruct (forward_pooled_inv cfg init m Hinit x r m' Hint Hfw)
    as [Hx [frames [w [attn [normed [out [Hfr [Hst [Hn [Hbn Hrv]]]]]]]]]].
  destruct (frame_embeddings_inv cfg init m Hinit x frames Hx Hfr)
    as [_ [Hframe _]].
  destruct (attention_stage_frame cfg init m Hinit x Hx frames w attn
                                  Hframe Hst) as [[Htw Hbw] _].
  destruct (weighted_frames_eq m x frames w attn Hfr Hst) as [Hw Hp].
  exists frames, w, (sum_dim0 w), normed, out.
  split; [exact Hfr|]. split; [exact Hw|]. split; [|split].
  - intros Hoff.
    rewrite (attention_stage_off cfg init m Hinit x frames Hoff) in Hst.
    inversion Hst. reflexivity.
  - intros Hon.
    destruct (attention_stage_on cfg init m Hinit x Hx frames Hon)
      as [pre [Hpre [_ [_ Heq]]]].
    destruct (attention_weights_ok cfg init m Hinit x Hx Hon)
      as [pre' [Hpre' [Ha _]]].
    rewrite Hpre in Hpre'. inversion Hpre'; subst pre'.
    rewrite Heq in Hst.
    destruct (mul3 frames (softmax_dim0 pre)) as [w'|e] eqn:Hmul;
      [|discriminate].
    simpl in Hst. inversion Hst; subst w'.
    exists (softmax_dim0 pre). split; [exact Ha | exact Hmul].
  - split; [exact Hp|]. split; [unfold size2; simpl; congruence|].
    split; [intros i j; simpl; rewrite Htw; reflexivity|].
    split; [exact Hn|]. split.
    + destruct (batch_normalization cfg); [exact Hbn | apply Hbn].
    + apply (return_value_embedding cfg attn out r Hrv).
Qed.

Lemma forward_sum_pooling_witness :
  exists m frames e m',
    ClopiNet_init plain_sum_config (bias_init 1%R) = Ok m
    /\ forward (constant_sequence 10 3 4 0%R) m = (Ok (Embedding e), m')
    /\ frame_embeddings m (constant_sequence 10 3 4 0%R) = Ok frames
    /\ forall i j, t2_at e i j = rsum 10 (fun t => t3_at frames t i j).
Proof.
  eexists.
  match goal with
  | |- exists frames e m', ?I = Ok ?m /\ _ =>
      assert (Hinit : I = Ok m) by reflexivity
  end.
  assert (Hready : call_ready plain_sum_config (constant_sequence 10 3 4 0%R))
    by solve_ready.
  destruct (forward_succeeds plain_sum_config (bias_init 1%R) _ _ Hinit Hready)
    as [r [m' Hfw]].
  destruct (forward_pooled_shape plain_sum_config (bias_init 1%R) _ _ r m'
                                 Hinit I eq_refl Hfw) as [e [_ [_ Hr]]].
  specialize (Hr eq_refl). subst r.
  destruct (forward_sum_pooling plain_sum_config (bias_init 1%R) _
              (constant_sequence 10 3 4 0%R) (Embedding e) m'
              Hinit eq_refl Hfw)
    as [frames [w [pooled [normed [out [Hfr [_ [Hoff [_ [_ [_ [Hsum
        [Hn [Hbn He]]]]]]]]]]]]]].
  specialize (Hoff eq_refl). subst w.
  simpl in Hn, Hbn, He.
  assert (Hep : e = pooled) by congruence.
  exists frames, e, m'.
  split; [exact Hinit|]. split; [exact Hfw|]. split; [exact Hfr|].
  rewrite Hep. exact Hsum.
Defined.

(* ================================================================= *)
(** ** Values on the fixtures *)

Lemma tanh_0 : tanh 0 = 0%R.
Proof. unfold tanh. rewrite sinh_0. unfold Rdiv. ring. Qed.

Lemma tanh_pos (a : R) : (0 < a)%R -> (0 < tanh a)%R.
Proof.
  intros Ha. unfold tanh, sinh, cosh.
  pose proof (exp_pos a). pose proof (exp_pos (- a)).
  assert (exp (- a) < exp a)%R by (apply exp_increasing; lra).
  apply Rdiv_lt_0_compat; lra.
Qed.

Lemma rsum_const (n : nat) (c : R) :
  rsum n (fun _ => c) = (INR n * c)%R.
Proof.
  induction n as [|n IH]; [simpl; ring|].
  change (rsum (S n) (fun _ => c)) with (rsum n (fun _ => c) + c)%R.
  rewrite IH, S_INR. ring.
Qed.

(** A chain of layers with zero weights and bias [b] outputs [tanh b]
    everywhere. *)
Lemma tanh_layers_bias_only (b : R) (dims : list nat) :
  dims <> [] ->
  forall i d x o,
    tanh_layers (fst (build_linear (fun _ => bias_only b) i d dims)) x = Ok o ->
    forall t k j, t3_at o t k j = tanh b.
Proof.
  induction dims as [|h rest IH]; intros Hne i d x o Ho t k j; [congruence|].
  simpl build_linear in Ho.
  destruct (build_linear (fun _ => bias_only b) (S i) h rest) as [ls e] eqn:Hb.
  simpl fst in Ho. simpl tanh_layers in Ho.
  destruct (linear_apply (nn_Linear d h (bias_only b)) x) as [o1|e1] eqn:H1;
    [|discriminate]. simpl rbind in Ho.
  destruct rest as [|h' rest'].
  - simpl in Hb. inversion Hb; subst ls e. simpl in Ho. inversion Ho; subst o.
    unfold linear_apply in H1.
    destruct (t3_feat x =? in_features (nn_Linear d h (bias_only b)));
      [|discriminate].
    inversion H1; subst o1. simpl. unfold affine. simpl.
    rewrite rsum_zero by (intros; ring).
    f_equal. ring.
  - apply (IH ltac:(discriminate) (S i) h (tanh3 o1) o).
    rewrite Hb. exact Ho.
Qed.

Lemma frames_bias_init (cfg : Config) (b : R) (m : ClopiNet)
      (x frames : Tensor3) :
  ClopiNet_init cfg (bias_init b) = Ok m ->
  linear cfg <> [] ->
  weighted cfg = false ->
  frame_embeddings m x = Ok frames ->
  forall t i j, t3_at frames t i j = tanh b.
Proof.
  intros Hinit Hne Hw Hfr.
  destruct (ClopiNet_init_inv cfg (bias_init b) m Hinit)
    as [Hc [_ [_ [Hl _]]]].
  unfold frame_embeddings in Hfr.
  destruct (recurrent_stage m x) as [o1|e]; [|discriminate].
  simpl rbind in Hfr.
  unfold linear_stage, weight_stage in Hfr.
  rewrite Hc, Hl, Hw, map_snd_combine in Hfr
    by (rewrite build_linear_length; lia).
  simpl init_linear in Hfr.
  destruct (tanh_layers _ o1) as [o2|e] eqn:H2; [|discriminate].
  simpl in Hfr. inversion Hfr; subst frames.
  eapply tanh_layers_bias_only; eassumption.
Qed.

(** Without attention layers, the pooled vector of such a module is the
    same for every batch element and feature. *)
Lemma pooled_bias_init (cfg : Config) (b : R) (m : ClopiNet)
      (x : Tensor3) (pooled : Tensor2) :
  ClopiNet_init cfg (bias_init b) = Ok m ->
  t3_feat x = n_features cfg ->
  linear cfg <> [] ->
  weighted cfg = false ->
  attention_truthy (attention cfg) = false ->
  pooled_output m x = Ok pooled ->
  size2 pooled = (t3_batch x, output_dim m)
  /\ forall i j, t2_at pooled i j = (INR (t3_time x) * tanh b)%R.
Proof.
  intros Hinit Hx Hne Hw Hoff Hp.
  unfold pooled_output, weighted_frames in Hp.
  destruct (frame_embeddings m x) as [frames|e] eqn:Hfr; [|discriminate].
  simpl rbind in Hp.
  rewrite (attention_stage_off cfg (bias_init b) m Hinit x frames Hoff) in Hp.
  simpl in Hp. inversion Hp; subst pooled.
  destruct (frame_embeddings_inv cfg (bias_init b) m Hinit x frames Hx Hfr)
    as [_ [[Ht Hbt] Hf]].
  split; [unfold size2; simpl; congruence|].
  intros i j. simpl. rewrite Ht.
  rewrite (rsum_ext (t3_time x) _ (fun _ => tanh b)), rsum_const;
    [reflexivity|].
  intros t _. eapply frames_bias_init; eassumption.
Qed.

(* ================================================================= *)
(** ** Batch normalisation after L2 normalisation *)

Lemma call_batch_norm_value (self self' : ClopiNet) (x out : Tensor2) :
  call_batch_norm x self = (Ok out, self') ->
  size2 out = size2 x
  /\ exists eps,
      forall i j,
        t2_at out i j
        = ((t2_at x i j - batch_mean x j)
           / sqrt (batch_sqdev x j / INR (t2_rows x) + eps))%R.
Proof.
  intros H. split; [apply (call_batch_norm_size self self' x out H)|].
  unfold call_batch_norm in H.
  destruct (batch_norm_ self) as [bn|]; [|discriminate].
  unfold batch_norm_apply in H.
  destruct (negb (t2_cols x =? num_features bn)); [discriminate|].
  destruct (t2_rows x =? 1); [discriminate|].
  inversion H; subst. exists (bn_eps bn). intros i j. reflexivity.
Qed.

Lemma batch_mean_constant (x : Tensor2) (j : nat) (c : R) :
  0 < t2_rows x ->
  (forall i, i < t2_rows x -> t2_at x i j = c) ->
  batch_mean x j = c.
Proof.
  intros Hpos Hc. unfold batch_mean.
  rewrite (rsum_ext (t2_rows x) _ (fun _ => c)) by exact Hc.
  rewrite rsum_const. field. apply not_0_INR. lia.
Qed.

(** Batch normalisation sends a batch of identical vectors to zero
    vectors. *)
Lemma batch_norm_constant_batch (self self' : ClopiNet) (x out : Tensor2)
      (c : nat -> R) :
  call_batch_norm x self = (Ok out, self') ->
  (forall i j, i < t2_rows x -> j < t2_cols x -> t2_at x i j = c j) ->
  forall i, i < t2_rows x -> l2_row out i = 0%R.
Proof.
  intros H Hc i Hi.
  destruct (call_batch_norm_value self self' x out H) as [Hsz [eps Hval]].
  assert (Hcols : t2_cols out = t2_cols x) by (unfold size2 in Hsz; congruence).
  unfold l2_row. rewrite Hcols.
  rewrite rsum_zero; [apply sqrt_0|].
  intros j Hj. rewrite Hval.
  rewrite (batch_mean_constant x j (c j)) by (try lia; intros; apply Hc; lia).
  rewrite (Hc i j Hi Hj). unfold Rdiv. ring.
Qed.

Lemma batch_norm_example :
  exists m pooled e m',
    ClopiNet_init batch_norm_config (bias_init 1%R) = Ok m
    /\ forward (constant_sequence 1 2 1 0%R) m = (Ok (Embedding e), m')
    /\ pooled_output m (constant_sequence 1 2 1 0%R) = Ok pooled
    /\ t2_at pooled 0 0 <> 0%R
    /\ l2_row e 0 = 0%R.
Proof.
  set (x := constant_sequence 1 2 1 0%R).
  eexists.
  match goal with
  | |- exists pooled e m', ?I = Ok ?m /\ _ =>
      assert (Hinit : I = Ok m) by reflexivity;
      set (fixture := m) in *
  end.
  assert (Hready : call_ready batch_norm_config x)
    by solve_ready.
  destruct (forward_succeeds batch_norm_config (bias_init 1%R) fixture x
                             Hinit Hready) as [r [m' Hfw]].
  destruct (forward_pooled_shape batch_norm_config (bias_init 1%R) fixture x
                                 r m' Hinit I eq_refl Hfw) as [e [He [_ Hr]]].
  specialize (Hr eq_refl). subst r.
  destruct (forward_pooled_inv batch_norm_config (bias_init 1%R) fixture
                               Hinit x (Embedding e) m' eq_refl Hfw)
    as [Hx [frames [w [attn [normed [out [Hfr [Hst [Hn [Hbn Hrv]]]]]]]]]].
  destruct (weighted_frames_eq fixture x frames w attn Hfr Hst) as [_ Hp].
  destruct (pooled_bias_init batch_norm_config 1%R fixture x (sum_dim0 w)
              Hinit eq_refl ltac:(discriminate) eq_refl eq_refl Hp)
    as [Hpsz Hpval].
  simpl normalize in Hn. simpl batch_normalization in Hbn.
  unfold return_value in Hrv. simpl return_attention in Hrv.
  inversion Hrv; subst out.
  assert (Hrows : t2_rows (sum_dim0 w) = 2)
    by (unfold size2 in Hpsz; simpl in Hpsz; simpl; congruence).
  destruct (div2_norm2 (sum_dim0 w)) as [n' [Hn' [Hnsz Hnval]]].
  rewrite Hn in Hn'. inversion Hn'; subst n'.
  assert (Hnrows : t2_rows normed = 2)
    by (unfold size2 in Hnsz; congruence).
  assert (Hncols : t2_cols normed = t2_cols (sum_dim0 w))
    by (unfold size2 in Hnsz; congruence).
  exists (sum_dim0 w), e, m'.
  split; [exact Hinit|]. split; [exact Hfw|]. split; [exact Hp|]. split.
  - rewrite Hpval. simpl INR.
    pose proof (tanh_pos 1 ltac:(lra)). lra.
  - apply (batch_norm_constant_batch fixture m' normed e
             (fun j => (INR (t3_time x) * tanh 1
                        / sqrt (rsum (t2_cols (sum_dim0 w))
                                     (fun _ => (INR (t3_time x) * tanh 1
                                                * (INR (t3_time x) * tanh 1))%R)))%R)
             Hbn); [|lia].
    intros i j Hi Hj.
    rewrite Hnval by lia. rewrite Hpval. unfold l2_row.
    f_equal. f_equal. apply rsum_ext. intros k _. rewrite Hpval. reflexivity.
Qed.

(** C5, as stated, fails: with batch normalisation switched on, a batch of
    two identical sequences comes out as two zero vectors although
    [normalize] is set and the pooled vectors are not zero. *)
Lemma unit_norm_fails_with_batch_norm : ~ unit_norm_claim.
Proof.
  intros Hclaim.
  destruct batch_norm_example as [m [pooled [e [m' [Hinit [Hfw [_ [_ Hz]]]]]]]].
  specialize (Hclaim batch_norm_config (bias_init 1%R) m
                     (constant_sequence 1 2 1 0%R) (Embedding e) m' e 0
                     Hinit eq_refl Hfw eq_refl ltac:(simpl; lia)).
  rewrite Hz in Hclaim. lra.
Qed.

(** C5, amended.  When [normalize] is set, a call returns, and batch
    normalisation is off or the module is in internal mode, every output
    vector whose value before the division is not all zeros has Euclidean
    norm 1: each pooled embedding, and in internal mode each time step of
    each batch element. *)
Theorem unit_norm_without_batch_norm
        (cfg : Config) (init : Initializer) (m : ClopiNet) (x : Tensor3)
        (r : Output) (m' : ClopiNet) :
  ClopiNet_init cfg init = Ok m ->
  normalize cfg = true ->
  forward x m = (Ok r, m') ->
  (internal cfg = false -> batch_normalization cfg = false ->
   exists pooled e,
     pooled_output m x = Ok pooled
     /\ embedding_of r = Some e
     /\ forall i, i < t3_batch x ->
          (exists j, j < t2_cols pooled /\ t2_at pooled i j <> 0%R) ->
          l2_row e i = 1%R)
  /\ (internal cfg = true ->
      exists frames o,
        frame_embeddings m x = Ok frames
        /\ r = PerStep o
        /\ forall t i, t < t3_time x -> i < t3_batch x ->
             (exists j, j < t3_feat frames /\ t3_at frames t i j <> 0%R) ->
             l2_step o t i = 1%R).
Proof.
  intros Hinit Hnorm Hfw. split.
  - intros Hint Hbn.
    destruct (forward_pooled_inv cfg init m Hinit x r m' Hint Hfw)
      as [Hx [frames [w [attn [normed [out [Hfr [Hst [Hn [Hb Hrv]]]]]]]]]].
    rewrite Hnorm in Hn. rewrite Hbn in Hb. destruct Hb as [Hout _].
    subst out.
    destruct (weighted_frames_eq m x frames w attn Hfr Hst) as [_ Hp].
    destruct (frame_embeddings_inv cfg init m Hinit x frames Hx Hfr)
      as [_ [Hframe _]].
    destruct (attention_stage_frame cfg init m Hinit x Hx frames w attn
                                    Hframe Hst) as [[_ Hbw] _].
    exists (sum_dim0 w), normed.
    split; [exact Hp|].
    split; [apply (return_value_embedding cfg attn normed r Hrv)|].
    intros i Hi Hnz.
    apply (normalize_rows_unit (sum_dim0 w) normed i Hn); [|exact Hnz].
    simpl. lia.
  - intros Hint.
    destruct (forward_internal_inv cfg init m Hinit x r m' Hint Hfw)
      as [Hx [_ [frames [o [Hfr [Hn Hr]]]]]].
    rewrite Hnorm in Hn.
    destruct (frame_embeddings_inv cfg init m Hinit x frames Hx Hfr)
      as [_ [[Ht Hb] _]].
    exists frames, o. split; [exact Hfr|]. split; [exact Hr|].
    intros t i HT HB Hnz.
    apply (normalize_steps_unit frames o t i Hn); [lia | lia | exact Hnz].
Qed.

Lemma unit_norm_without_batch_norm_witness :
  exists m e m',
    ClopiNet_init example_config (bias_init 1%R) = Ok m
    /\ forward (constant_sequence 10 3 4 0%R) m = (Ok (Embedding e), m')
    /\ l2_row e 0 = 1%R /\ l2_row e 1 = 1%R /\ l2_row e 2 = 1%R.
Proof.
  set (x := constant_sequence 10 3 4 0%R).
  eexists.
  match goal with
  | |- exists e m', ?I = Ok ?m /\ _ =>
      assert (Hinit : I = Ok m) by reflexivity;
      set (fixture := m) in *
  end.
  assert (Hready : call_ready example_config x)
    by solve_ready.
  destruct (forward_succeeds example_config (bias_init 1%R) fixture x
                             Hinit Hready) as [r [m' Hfw]].
  destruct (forward_pooled_shape example_config (bias_init 1%R) fixture x
                                 r m' Hinit I eq_refl Hfw) as [e [He [_ Hr]]].
  specialize (Hr eq_refl). subst r.
  destruct (proj1 (unit_norm_without_batch_norm example_config (bias_init 1%R)
                     fixture x (Embedding e) m' Hinit eq_refl Hfw)
                  eq_refl eq_refl)
    as [pooled [e' [Hp [He' Hunit]]]].
  simpl in He'. inversion He'; subst e'.
  destruct (pooled_bias_init example_config 1%R fixture x pooled
              Hinit eq_refl ltac:(discriminate) eq_refl eq_refl Hp)
    as [Hpsz Hpval].
  assert (Hcols : t2_cols pooled = 5)
    by (unfold size2 in Hpsz; change (output_dim fixture) with 5 in Hpsz;
        congruence).
  assert (Hnz : forall i, exists j,
               j < t2_cols pooled /\ t2_at pooled i j <> 0%R).
  { intros i. exists 0. split; [lia|]. rewrite Hpval.
    pose proof (tanh_pos 1 ltac:(lra)) as Hpos.
    change (INR (t3_time x)) with (INR 10).
    assert (0 < INR 10)%R by (apply lt_0_INR; lia). nra. }
  exists e, m'. split; [exact Hinit|]. split; [exact Hfw|].
  split; [|split]; apply Hunit; try apply Hnz; simpl; lia.
Defined.

(* ================================================================= *)
(** ** What a call depends on, and what it changes *)

Lemma recurrent_loop_ext (a b : ClopiNet) (batch : nat) :
  rnn (config a) = rnn (config b) ->
  bidirectional (config a) = bidirectional (config b) ->
  num_directions_ a = num_directions_ b ->
  forall zipped x acc,
    recurrent_loop a batch zipped x acc = recurrent_loop b batch zipped x acc.
Proof.
  intros Hr Hb Hd zipped.
  induction zipped as [|[h layer] rest IH]; intros x acc; [reflexivity|].
  simpl. unfold recurrent_step, initial_hidden. rewrite Hr, Hb, Hd.
  destruct (h' <- (if String.eqb (rnn (config b)) "LSTM"
                   then Ok (HiddenLSTM (zeros3 (num_directions_ b) batch h)
                                       (zeros3 (num_directions_ b) batch h))
                   else if String.eqb (rnn (config b)) "GRU"
                        then Ok (HiddenGRU (zeros3 (num_directions_ b) batch h))
                        else Raise (UnboundLocalError "hidden")) ;;
            output <- rnn_apply layer x h' ;;
            (if bidirectional (config b)
             then average_directions h output
             else Ok output))%result as [o|e]; simpl; [apply IH | reflexivity].
Qed.

Lemma frame_embeddings_ext (a b : ClopiNet) (x : Tensor3) :
  rnn (config a) = rnn (config b) ->
  recurrent (config a) = recurrent (config b) ->
  bidirectional (config a) = bidirectional (config b) ->
  linear (config a) = linear (config b) ->
  weighted (config a) = weighted (config b) ->
  num_directions_ a = num_directions_ b ->
  recurrent_layers_ a = recurrent_layers_ b ->
  linear_layers_ a = linear_layers_ b ->
  alphas_ a = alphas_ b ->
  frame_embeddings a x = frame_embeddings b x.
Proof.
  intros Hr Hrec Hbi Hlin Hw Hd Hrl Hll Hal.
  unfold frame_embeddings, recurrent_stage, linear_stage, weight_stage.
  rewrite Hrec, Hrl, Hlin, Hll, Hw, Hal.
  rewrite (recurrent_loop_ext a b (t3_batch x) Hr Hbi Hd).
  reflexivity.
Qed.

Lemma attention_stage_ext (a b : ClopiNet) (x frames : Tensor3) :
  attention (config a) = attention (config b) ->
  attention_layers_ a = attention_layers_ b ->
  attention_stage a x frames = attention_stage b x frames.
Proof.
  intros Ha Hl. unfold attention_stage, attention_weights, attention_plus_one.
  rewrite Ha, Hl. reflexivity.
Qed.

Lemma call_batch_norm_ext (a b : ClopiNet) (x : Tensor2) :
  same_batch_norm (batch_norm_ a) (batch_norm_ b) ->
  fst (call_batch_norm x a) = fst (call_batch_norm x b).
Proof.
  unfold same_batch_norm, call_batch_norm, batch_norm_apply.
  destruct (batch_norm_ a) as [p|], (batch_norm_ b) as [q|];
    try contradiction; [|reflexivity].
  intros [Hn [He Hm]]. rewrite Hn, He.
  destruct (negb (t2_cols x =? num_features q)); [reflexivity|].
  destruct (t2_rows x =? 1); reflexivity.
Qed.

Lemma forward_ext (a b : ClopiNet) (x : Tensor3) :
  same_layers a b -> fst (forward x a) = fst (forward x b).
Proof.
  intros [Hc [Hd [Hrl [Hll [Hal [Hatt Hbn]]]]]].
  rewrite !forward_eq. cbv zeta.
  rewrite (frame_embeddings_ext a b x) by (rewrite ?Hc; auto).
  rewrite Hc.
  destruct (negb (t3_feat x =? n_features (config b))); [reflexivity|].
  destruct (frame_embeddings b x) as [frames|e]; [|reflexivity].
  destruct (internal (config b)); [reflexivity|].
  rewrite (attention_stage_ext a b x frames) by (rewrite ?Hc; auto).
  destruct (attention_stage b x frames) as [[w attn]|e]; [|reflexivity].
  destruct (if normalize (config b) then normalize_rows (sum_dim0 w)
            else Ok (sum_dim0 w)) as [normed|e]; [|reflexivity].
  destruct (batch_normalization (config b)); [|reflexivity].
  pose proof (call_batch_norm_ext a b normed Hbn) as Hcall.
  destruct (call_batch_norm normed a) as [[o1|e1] s1],
           (call_batch_norm normed b) as [[o2|e2] s2];
    simpl in Hcall; inversion Hcall; reflexivity.
Qed.

Lemma call_batch_norm_same_layers (self self' : ClopiNet) (x : Tensor2)
      (r : Result Tensor2) :
  call_batch_norm x self = (r, self') -> same_layers self self'.
Proof.
  unfold call_batch_norm. intros H.
  destruct (batch_norm_ self) as [bn|] eqn:Hbn.
  - destruct (batch_norm_apply bn x) as [[o bn']|e] eqn:Happly.
    + inversion H; subst. unfold same_layers. simpl. rewrite Hbn.
      unfold batch_norm_apply in Happly.
      destruct (negb (t2_cols x =? num_features bn)); [discriminate|].
      destruct (t2_rows x =? 1); [discriminate|].
      inversion Happly; subst. simpl. repeat split.
    + inversion H; subst. unfold same_layers. rewrite Hbn. simpl.
      repeat split.
  - inversion H; subst. unfold same_layers. rewrite Hbn. simpl.
    repeat split.
Qed.

Lemma same_layers_refl (self : ClopiNet) : same_layers self self.
Proof.
  unfold same_layers, same_batch_norm.
  destruct (batch_norm_ self); repeat split.
Qed.

Lemma forward_same_layers (self self' : ClopiNet) (x : Tensor3)
      (r : Result Output) :
  forward x self = (r, self') ->
  same_layers self self'
  /\ (batch_normalization (config self) = false \/ internal (config self) = true ->
      self' = self).
Proof.
  rewrite forward_eq. cbv zeta.
  assert (Hsame : forall r0, (r0, self) = (r, self') ->
            same_layers self self'
            /\ (batch_normalization (config self) = false
                \/ internal (config self) = true -> self' = self)).
  { intros r0 H. inversion H; subst. split; [apply same_layers_refl | auto]. }
  destruct (negb (t3_feat x =? n_features (config self))); [apply Hsame|].
  destruct (frame_embeddings self x) as [frames|e]; [|apply Hsame].
  destruct (internal (config self)) eqn:Hint; [apply Hsame|].
  destruct (attention_stage self x frames) as [[w attn]|e]; [|apply Hsame].
  destruct (if normalize (config self) then normalize_rows (sum_dim0 w)
            else Ok (sum_dim0 w)) as [normed|e]; [|apply Hsame].
  destruct (batch_normalization (config self)) eqn:Hbn; [|apply Hsame].
  destruct (call_batch_norm normed self) as [[out|e] s1] eqn:Hcall;
    intros H; inversion H; subst; split;
      try (eapply call_batch_norm_same_layers; exact Hcall);
      intros [Hf|Hf]; discriminate Hf.
Qed.

(** X1.  A call changes nothing of the module but the running statistics
    of its batch-normalisation sub-module: configuration, layers and
    parameters are the same after the call as before, whether the call
    returned or raised, and with batch normalisation off or in internal
    mode the module is left exactly as it was. *)
Theorem forward_module_state (self self' : ClopiNet) (x : Tensor3)
        (r : Result Output) :
  forward x self = (r, self') ->
  config self' = config self
  /\ recurrent_layers_ self' = recurrent_layers_ self
  /\ linear_layers_ self' = linear_layers_ self
  /\ alphas_ self' = alphas_ self
  /\ attention_layers_ self' = attention_layers_ self
  /\ same_batch_norm (batch_norm_ self) (batch_norm_ self')
  /\ (batch_normalization (config self) = false
      \/ internal (config self) = true -> self' = self).
Proof.
  intros H.
  destruct (forward_same_layers self self' x r H)
    as [[Hc [_ [Hr [Hl [Ha [Hat Hbn]]]]]] Hsame].
  repeat split; try (symmetry; assumption); assumption.
Qed.

Lemma forward_module_state_witness :
  exists m r m',
    ClopiNet_init batch_norm_only_config (bias_init 1%R) = Ok m
    /\ forward (constant_sequence 10 3 4 0%R) m = (r, m')
    /\ config m' = batch_norm_only_config
    /\ linear_layers_ m' = linear_layers_ m.
Proof.
  eexists.
  match goal with
  | |- exists r m', ?I = Ok ?m /\ _ =>
      assert (Hinit : I = Ok m) by reflexivity;
      set (fixture := m) in *
  end.
  destruct (forward (constant_sequence 10 3 4 0%R) fixture) as [r m'] eqn:Hfw.
  destruct (forward_module_state fixture m' (constant_sequence 10 3 4 0%R)
                                 r Hfw) as [Hc [_ [Hl _]]].
  exists r, m'. split; [exact Hinit|]. split; [reflexivity|].
  split; [rewrite Hc; reflexivity | exact Hl].
Defined.

(** X2.  What a call returns does not depend on the calls made before it:
    on the module an earlier call left behind, a call gives the result it
    gives on the module before that earlier call (the running statistics
    an earlier call updates are not read in training mode). *)
Theorem forward_independent_of_history (self self1 : ClopiNet)
        (x1 x2 : Tensor3) (r1 : Result Output) :
  forward x1 self = (r1, self1) ->
  fst (forward x2 self1) = fst (forward x2 self).
Proof.
  intros H. symmetry. apply forward_ext.
  apply (forward_same_layers self self1 x1 r1 H).
Qed.

Lemma forward_independent_of_history_witness :
  exists m r1 m1,
    ClopiNet_init batch_norm_only_config (bias_init 1%R) = Ok m
    /\ forward (constant_sequence 10 3 4 0%R) m = (r1, m1)
    /\ fst (forward (constant_sequence 7 2 4 1%R) m1)
       = fst (forward (constant_sequence 7 2 4 1%R) m).
Proof.
  eexists.
  match goal with
  | |- exists r1 m1, ?I = Ok ?m /\ _ =>
      assert (Hinit : I = Ok m) by reflexivity;
      set (fixture := m) in *
  end.
  destruct (forward (constant_sequence 10 3 4 0%R) fixture) as [r1 m1] eqn:Hfw.
  exists r1, m1. split; [exact Hinit|]. split; [reflexivity|].
  apply (forward_independent_of_history
           fixture m1 (constant_sequence 10 3 4 0%R)
           (constant_sequence 7 2 4 1%R) r1 Hfw).
Defined.

(** X3.  In internal mode the arguments of the pooled path have no effect:
    two modules built from the same initial parameters, with [internal]
    set and the same [n_features], [rnn], [recurrent], [bidirectional],
    [linear], [weighted] and [normalize], give the same result on every
    input, whatever [attention], [return_attention] and
    [batch_normalization] are. *)
Theorem internal_ignores_pooling_options
        (cfg cfg2 : Config) (init : Initializer) (m m2 : ClopiNet)
        (x : Tensor3) :
  ClopiNet_init cfg init = Ok m ->
  ClopiNet_init cfg2 init = Ok m2 ->
  same_embedding_options cfg cfg2 ->
  internal cfg = true ->
  internal cfg2 = true ->
  fst (forward x m) = fst (forward x m2).
Proof.
  intros Hinit Hinit2 [Hn [Hr [Hrec [Hbi [Hlin [Hw Hnorm]]]]]] Hint Hint2.
  destruct (ClopiNet_init_inv cfg init m Hinit)
    as [Hc [Hd [Hrl [Hll [Hal _]]]]].
  destruct (ClopiNet_init_inv cfg2 init m2 Hinit2)
    as [Hc2 [Hd2 [Hrl2 [Hll2 [Hal2 _]]]]].
  rewrite Hn, Hr, Hrec, Hbi in Hrl. rewrite Hrl2 in Hrl.
  assert (Hrl' : recurrent_layers_ m = recurrent_layers_ m2) by congruence.
  assert (Hd' : num_directions_ m = num_directions_ m2)
    by (rewrite Hd, Hd2, Hbi; reflexivity).
  assert (Hll' : linear_layers_ m = linear_layers_ m2)
    by (rewrite Hll, Hll2, Hrec, Hlin; reflexivity).
  assert (Hal' : alphas_ m = alphas_ m2)
    by (rewrite Hal, Hal2, Hrec, Hlin, Hw; reflexivity).
  assert (Hfr : frame_embeddings m x = frame_embeddings m2 x).
  { apply frame_embeddings_ext; rewrite ?Hc, ?Hc2; assumption. }
  rewrite !forward_eq. cbv zeta.
  rewrite Hfr, Hc, Hc2, Hint, Hint2, Hn, Hnorm.
  destruct (negb (t3_feat x =? n_features cfg2)); [reflexivity|].
  destruct (frame_embeddings m2 x); reflexivity.
Qed.

Lemma internal_ignores_pooling_options_witness :
  exists m m2,
    ClopiNet_init internal_all_config (bias_init 1%R) = Ok m
    /\ ClopiNet_init internal_weighted_config (bias_init 1%R) = Ok m2
    /\ fst (forward (constant_sequence 10 3 4 0%R) m)
       = fst (forward (constant_sequence 10 3 4 0%R) m2).
Proof.
  do 2 eexists. split; [reflexivity|]. split; [reflexivity|].
  apply (internal_ignores_pooling_options
           internal_all_config internal_weighted_config (bias_init 1%R));
    try reflexivity.
  repeat split.
Defined.

(** X4.  On a constructed module and an input of the right feature
    dimension with at least one time step and one sequence (attention
    dimensions positive, and more than one sequence in the batch when
    batch normalisation is applied), a call returns exactly when there is
    at least one recurrent layer and, outside internal mode,
    [return_attention] is not set without attention layers. *)
Theorem forward_returns_iff
        (cfg : Config) (init : Initializer) (m : ClopiNet) (x : Tensor3) :
  ClopiNet_init cfg init = Ok m ->
  t3_feat x = n_features cfg ->
  0 < t3_time x ->
  0 < t3_batch x ->
  attention_dims_positive cfg ->
  (internal cfg = false -> batch_normalization cfg = true -> t3_batch x <> 1) ->
  ((exists r m', forward x m = (Ok r, m'))
   <-> recurrent cfg <> []
       /\ (internal cfg = false -> return_attention cfg = true ->
           attention_truthy (attention cfg) = true)).
Proof.
  intros Hinit Hx Htime Hseq Hpos Hbatch. split.
  - intros [r [m' Hfw]].
    destruct (internal cfg) eqn:Hint.
    + destruct (forward_internal_inv cfg init m Hinit x r m' Hint Hfw)
        as [_ [_ [frames [o [Hfr _]]]]].
      destruct (frame_embeddings_inv cfg init m Hinit x frames Hx Hfr)
        as [Hne _].
      split; [exact Hne | discriminate].
    + destruct (forward_pooled_inv cfg init m Hinit x r m' Hint Hfw)
        as [_ [frames [w [attn [normed [out [Hfr [Hst [_ [_ Hrv]]]]]]]]]].
      destruct (frame_embeddings_inv cfg init m Hinit x frames Hx Hfr)
        as [Hne _].
      split; [exact Hne|]. intros _ Hra.
      destruct (attention_truthy (attention cfg)) eqn:Htr; [reflexivity|].
      rewrite (attention_stage_off cfg init m Hinit x frames Htr) in Hst.
      inversion Hst; subst attn.
      unfold return_value in Hrv. rewrite Hra in Hrv. discriminate.
  - intros [Hne Hret].
    apply (forward_succeeds cfg init m x Hinit).
    constructor; auto.
Qed.

Lemma forward_returns_iff_witness :
  exists m,
    ClopiNet_init attention_config (bias_init 1%R) = Ok m
    /\ exists r m', forward (constant_sequence 10 3 4 0%R) m = (Ok r, m').
Proof.
  eexists.
  match goal with
  | |- ?I = Ok ?m /\ _ =>
      assert (Hinit : I = Ok m) by reflexivity;
      set (fixture := m) in *
  end.
  split; [exact Hinit|].
  apply (proj2 (forward_returns_iff attention_config (bias_init 1%R) fixture
                  (constant_sequence 10 3 4 0%R) Hinit eq_refl
                  ltac:(simpl; lia) ltac:(simpl; lia)
                  ltac:(repeat constructor)
                  ltac:(intros _ Hbn; discriminate Hbn))).
  split; [discriminate | reflexivity].
Defined.

(** X5.  What kind of value a returning call gives back is decided by the
    configuration alone: the per-step tensor exactly in internal mode, and
    otherwise the embedding alone when [return_attention] is off and the
    pair of embedding and attention weights when it is on (which needs
    attention layers). *)
Theorem forward_return_kind
        (cfg : Config) (init : Initializer) (m : ClopiNet) (x : Tensor3)
        (r : Output) (m' : ClopiNet) :
  ClopiNet_init cfg init = Ok m ->
  forward x m = (Ok r, m') ->
  match r with
  | PerStep _ => internal cfg = true
  | Embedding _ => internal cfg = false /\ return_attention cfg = false
  | WithAttention _ _ =>
      internal cfg = false /\ return_attention cfg = true
      /\ attention_truthy (attention cfg) = true
  end.
Proof.
  intros Hinit Hfw.
  destruct (internal cfg) eqn:Hint.
  - destruct (forward_internal_inv cfg init m Hinit x r m' Hint Hfw)
      as [_ [_ [frames [o [_ [_ Hr]]]]]].
    subst r. reflexivity.
  - destruct (forward_pooled_inv cfg init m Hinit x r m' Hint Hfw)
      as [Hx [frames [w [attn [normed [out [Hfr [Hst [_ [_ Hrv]]]]]]]]]].
    unfold return_value in Hrv.
    destruct (return_attention cfg) eqn:Hra.
    + destruct attn as [a|]; [|discriminate].
      inversion Hrv; subst r. repeat split.
      destruct (attention_truthy (attention cfg)) eqn:Htr; [reflexivity|].
      rewrite (attention_stage_off cfg init m Hinit x frames Htr) in Hst.
      discriminate.
    + inversion Hrv; subst r. split; reflexivity.
Qed.

Lemma forward_return_kind_witness :
  exists m e attn m',
    ClopiNet_init attention_config (bias_init 1%R) = Ok m
    /\ forward (constant_sequence 10 3 4 0%R) m = (Ok (WithAttention e attn), m').
Proof.
  eexists.
  match goal with
  | |- exists e attn m', ?I = Ok ?m /\ _ =>
      assert (Hinit : I = Ok m) by reflexivity;
      set (fixture := m) in *
  end.
  assert (Hready : call_ready attention_config (constant_sequence 10 3 4 0%R))
    by solve_ready.
  destruct (forward_succeeds attention_config (bias_init 1%R) fixture _
                             Hinit Hready) as [r [m' Hfw]].
  pose proof (forward_return_kind attention_config (bias_init 1%R) fixture
                (constant_sequence 10 3 4 0%R) r m' Hinit Hfw) as Hkind.
  destruct r as [o|e|e attn].
  - discriminate Hkind.
  - destruct Hkind as [_ Hra]. discriminate Hra.
  - exists e, attn, m'. split; [exact Hinit | exact Hfw].
Defined.

(* ================================================================= *)
(** ** The layers the constructor creates *)

Lemma build_recurrent_chain (r : string) (bi : bool)
      (init : nat -> nat -> RNNParams) (dims : list nat) :
  forall i d layers,
    build_recurrent r bi init i d dims = Ok layers ->
    List.length layers = List.length dims
    /\ forall k layer,
        nth_error layers k = Some layer ->
        hidden_size layer = nth k dims 0
        /\ input_size layer = nth k (d :: dims) 0
        /\ rnn_bidirectional layer = bi
        /\ rnn_params layer = init (i + k)
        /\ (rnn_kind layer = LSTM <-> r = "LSTM"%string).
Proof.
  induction dims as [|h rest IH]; intros i d layers Hb.
  - simpl in Hb. inversion Hb; subst. split; [reflexivity|].
    intros [|k] layer Hk; discriminate Hk.
  - simpl in Hb.
    destruct (new_recurrent_layer r bi (init i) d h) as [l0|e] eqn:Hnew;
      [|discriminate]. simpl in Hb.
    destruct (build_recurrent r bi init (S i) h rest) as [ls|e] eqn:Hrest;
      [|discriminate]. simpl in Hb. inversion Hb; subst layers.
    destruct (IH (S i) h ls Hrest) as [Hlen Hnth].
    split; [simpl; congruence|].
    intros [|k] layer Hk.
    + simpl in Hk. inversion Hk; subst layer.
      destruct (new_recurrent_layer_inv _ _ _ _ _ _ Hnew)
        as [Hin [Hhid [Hlbi Hkind]]].
      destruct (new_recurrent_layer_positive _ _ _ _ _ _ Hnew) as [_ Hp].
      simpl. rewrite Nat.add_0_r, Hp.
      repeat (split; [assumption || reflexivity|]).
      destruct Hkind as [[E1 Hk0]|[E1 [E2 Hk0]]]; rewrite Hk0.
      * split; [intros _; apply String.eqb_eq; exact E1 | reflexivity].
      * split; [discriminate|].
        intros Hr. apply String.eqb_neq in E1. contradiction.
    + simpl in Hk. destruct (Hnth k layer Hk) as [H1 [H2 [H3 [H4 H5]]]].
      replace (i + S k) with (S i + k) by lia.
      repeat split; try assumption; apply H5.
Qed.

Lemma build_linear_chain (init : nat -> LinearParams) (dims : list nat) :
  forall i d k layer,
    nth_error (fst (build_linear init i d dims)) k = Some layer ->
    out_features layer = nth k dims 0
    /\ in_features layer = nth k (d :: dims) 0
    /\ lin_params layer = init (i + k).
Proof.
  induction dims as [|h rest IH]; intros i d k layer Hk.
  - destruct k; discriminate Hk.
  - simpl build_linear in Hk. specialize (IH (S i) h).
    destruct (build_linear init (S i) h rest) as [ls e]. simpl in Hk, IH.
    destruct k as [|k].
    + simpl in Hk. inversion Hk; subst layer. simpl. rewrite Nat.add_0_r.
      repeat split.
    + simpl in Hk. destruct (IH k layer Hk) as [H1 [H2 H3]].
      replace (i + S k) with (S i + k) by lia.
      repeat split; assumption.
Qed.

(** X6.  The constructor creates one recurrent layer per entry of
    [recurrent], in order: layer [k] has the configured hidden dimension,
    takes [n_features] inputs when it is the first and the hidden
    dimension of layer [k-1] otherwise, has the configured direction
    count, and is an LSTM exactly when [rnn] is "LSTM". *)
Theorem recurrent_layers_chain
        (cfg : Config) (init : Initializer) (m : ClopiNet) :
  ClopiNet_init cfg init = Ok m ->
  List.length (recurrent_layers_ m) = List.length (recurrent cfg)
  /\ num_directions_ m = (if bidirectional cfg then 2 else 1)
  /\ forall k layer,
      nth_error (recurrent_layers_ m) k = Some layer ->
      hidden_size layer = nth k (recurrent cfg) 0
      /\ input_size layer = nth k (n_features cfg :: recurrent cfg) 0
      /\ num_directions layer = num_directions_ m
      /\ (rnn_kind layer = LSTM <-> rnn cfg = "LSTM"%string)
      /\ (rnn_kind layer = GRU <-> rnn cfg = "GRU"%string).
Proof.
  intros Hinit.
  destruct (ClopiNet_init_inv cfg init m Hinit) as [_ [Hd [Hr _]]].
  destruct (build_recurrent_chain _ _ _ _ _ _ _ Hr) as [Hlen Hnth].
  split; [exact Hlen|]. split; [exact Hd|].
  intros k layer Hk.
  destruct (Hnth k layer Hk) as [H1 [H2 [H3 [_ H5]]]].
  split; [exact H1|]. split; [exact H2|].
  split; [unfold num_directions; rewrite H3, Hd; reflexivity|].
  split; [exact H5|].
  assert (Hk' : nth_error (recurrent cfg) k = Some (nth k (recurrent cfg) 0)).
  { apply nth_error_nth'. rewrite <- Hlen. apply nth_error_Some. congruence. }
  destruct (build_recurrent_nth _ _ _ _ _ _ _ _ _ _ Hr Hk Hk') as [p [d' Hnew]].
  destruct (new_recurrent_layer_inv _ _ _ _ _ _ Hnew)
    as [_ [_ [_ [[E1 Hkind]|[E1 [E2 Hkind]]]]]].
  - rewrite Hkind. split; [discriminate|].
    intros Hg. rewrite Hg in E1. discriminate E1.
  - rewrite Hkind. split; [intros _; apply String.eqb_eq; exact E2 | reflexivity].
Qed.

Lemma recurrent_layers_chain_witness :
  exists m l0 l1,
    ClopiNet_init bidirectional_config (bias_init 1%R) = Ok m
    /\ recurrent_layers_ m = [l0; l1]
    /\ (input_size l0, hidden_size l0) = (4, 8)
    /\ (input_size l1, hidden_size l1) = (8, 6)
    /\ num_directions l1 = 2.
Proof.
  eexists.
  match goal with
  | |- exists l0 l1, ?I = Ok ?m /\ _ =>
      assert (Hinit : I = Ok m) by reflexivity;
      set (fixture := m) in *
  end.
  destruct (recurrent_layers_chain bidirectional_config (bias_init 1%R)
                                   fixture Hinit) as [_ [Hd Hnth]].
  do 2 eexists. split; [exact Hinit|]. split; [reflexivity|].
  destruct (Hnth 0 _ eq_refl) as [H0h [H0i _]].
  destruct (Hnth 1 _ eq_refl) as [H1h [H1i [H1d _]]].
  rewrite H0h, H0i, H1h, H1i, H1d, Hd. repeat split.
Defined.

(** X7.  The constructor creates one linear layer per entry of [linear],
    in order: layer [k] has the configured output dimension and takes the
    sum of the recurrent hidden dimensions when it is the first (the
    recurrent outputs are concatenated) and the output dimension of layer
    [k-1] otherwise. *)
Theorem linear_layers_chain
        (cfg : Config) (init : Initializer) (m : ClopiNet) :
  ClopiNet_init cfg init = Ok m ->
  List.length (linear_layers_ m) = List.length (linear cfg)
  /\ forall k layer,
      nth_error (linear_layers_ m) k = Some layer ->
      out_features layer = nth k (linear cfg) 0
      /\ in_features layer
         = nth k (list_sum (recurrent cfg) :: linear cfg) 0
      /\ lin_params layer = init_linear init k.
Proof.
  intros Hinit.
  destruct (ClopiNet_init_inv cfg init m Hinit) as [_ [_ [_ [Hl _]]]].
  rewrite Hl. split; [apply build_linear_length|].
  intros k layer Hk.
  apply (build_linear_chain (init_linear init) (linear cfg) 0 _ k layer Hk).
Qed.

Lemma linear_layers_chain_witness :
  exists m l0,
    ClopiNet_init bidirectional_config (bias_init 1%R) = Ok m
    /\ linear_layers_ m = [l0]
    /\ (in_features l0, out_features l0) = (14, 5).
Proof.
  eexists.
  match goal with
  | |- exists l0, ?I = Ok ?m /\ _ =>
      assert (Hinit : I = Ok m) by reflexivity;
      set (fixture := m) in *
  end.
  destruct (linear_layers_chain bidirectional_config (bias_init 1%R)
                                fixture Hinit) as [_ Hnth].
  eexists. split; [exact Hinit|]. split; [reflexivity|].
  destruct (Hnth 0 _ eq_refl) as [Ho [Hi _]].
  rewrite Ho, Hi. reflexivity.
Defined.

(** X8.  The weight vector and the batch-normalisation sub-module exist
    exactly when [weighted] and [batch_normalization] ask for them, and
    both are sized to [output_dim]; the weights start as ones, the
    sub-module with eps 1e-5 and momentum 0.1. *)
Theorem weights_and_batch_norm_sized
        (cfg : Config) (init : Initializer) (m : ClopiNet) :
  ClopiNet_init cfg init = Ok m ->
  (weighted cfg = false -> alphas_ m = None)
  /\ (weighted cfg = true ->
      exists alphas, alphas_ m = Some alphas
                     /\ t1_len alphas = output_dim m
                     /\ forall j, t1_at alphas j = 1%R)
  /\ (batch_normalization cfg = false -> batch_norm_ m = None)
  /\ (batch_normalization cfg = true ->
      exists bn, batch_norm_ m = Some bn
                 /\ num_features bn = output_dim m
                 /\ bn_eps bn = (1 / 100000)%R
                 /\ bn_momentum bn = (1 / 10)%R).
Proof.
  intros Hinit.
  destruct (ClopiNet_init_inv cfg init m Hinit)
    as [Hc [_ [_ [_ [Ha [Hb _]]]]]].
  rewrite Ha, Hb, output_dim_last, Hc.
  split; [intros ->; reflexivity|].
  split; [intros ->; eexists; repeat split|].
  split; [intros ->; reflexivity|].
  intros ->. eexists. repeat split.
Qed.

Lemma weights_and_batch_norm_sized_witness :
  exists m alphas bn,
    ClopiNet_init internal_all_config (bias_init 1%R) = Ok m
    /\ alphas_ m = Some alphas /\ t1_len alphas = 5
    /\ batch_norm_ m = Some bn /\ num_features bn = 5.
Proof.
  eexists.
  match goal with
  | |- exists alphas bn, ?I = Ok ?m /\ _ =>
      assert (Hinit : I = Ok m) by reflexivity;
      set (fixture := m) in *
  end.
  destruct (weights_and_batch_norm_sized internal_all_config (bias_init 1%R)
                                         fixture Hinit)
    as [_ [Hw [_ Hbn]]].
  destruct (Hw eq_refl) as [alphas [Ha [Hlen _]]].
  destruct (Hbn eq_refl) as [bn [Hb [Hnf _]]].
  exists alphas, bn. split; [exact Hinit|].
  split; [exact Ha|]. split; [rewrite Hlen; reflexivity|].
  split; [exact Hb | rewrite Hnf; reflexivity].
Defined.

(** X9.  Attention layers exist exactly when [attention] is a non-empty
    list.  Then there is one layer per entry, the first taking
    [n_features] inputs and each next one the previous hidden dimension,
    followed by one more layer with a single output when the last hidden
    dimension exceeds 1, and by nothing when it does not. *)
Theorem attention_layers_chain
        (cfg : Config) (init : Initializer) (m : ClopiNet) :
  ClopiNet_init cfg init = Ok m ->
  (attention_truthy (attention cfg) = false -> attention_layers_ m = [])
  /\ forall dims,
      attention cfg = Some dims -> dims <> [] ->
      List.length (attention_layers_ m)
      = List.length dims + (if 1 <? last dims 0 then 1 else 0)
      /\ (forall k layer,
             k < List.length dims ->
             nth_error (attention_layers_ m) k = Some layer ->
             out_features layer = nth k dims 0
             /\ in_features layer = nth k (n_features cfg :: dims) 0)
      /\ (1 < last dims 0 ->
          exists layer,
            nth_error (attention_layers_ m) (List.length dims) = Some layer
            /\ in_features layer = last dims 0
            /\ out_features layer = 1).
Proof.
  intros Hinit.
  destruct (ClopiNet_init_inv cfg init m Hinit) as [_ [_ [_ [_ [_ [_ Ha]]]]]].
  rewrite Ha. unfold attention_chain. split.
  - intros ->. reflexivity.
  - intros dims Hatt Hne. rewrite Hatt.
    assert (Htr : attention_truthy (Some dims) = true)
      by (destruct dims; [congruence | reflexivity]).
    rewrite Htr.
    pose proof (build_linear_length (init_attention init) dims 0
                                    (n_features cfg)) as Hlen.
    pose proof (build_linear_snd (init_attention init) dims 0
                                 (n_features cfg)) as Hsnd.
    pose proof (build_linear_chain (init_attention init) dims 0
                                   (n_features cfg)) as Hchain.
    destruct (build_linear (init_attention init) 0 (n_features cfg) dims)
      as [ls e]. simpl in Hlen, Hsnd, Hchain. simpl fst. simpl snd.
    rewrite (last_default dims (n_features cfg) 0 Hne) in Hsnd. subst e.
    destruct (1 <? last dims 0) eqn:Hgt.
    + split; [rewrite length_app; simpl; lia|]. split.
      * intros k layer Hk Hnth.
        rewrite nth_error_app1 in Hnth by lia.
        destruct (Hchain k layer Hnth) as [H1 [H2 _]]. auto.
      * intros _. eexists.
        rewrite nth_error_app2 by lia.
        rewrite Hlen, Nat.sub_diag. simpl. repeat split.
    + split; [lia|]. split.
      * intros k layer Hk Hnth.
        destruct (Hchain k layer Hnth) as [H1 [H2 _]]. auto.
      * intros Hlt. apply Nat.ltb_ge in Hgt. lia.
Qed.

Lemma attention_layers_chain_witness :
  exists m l0 l1,
    ClopiNet_init attention_config (bias_init 1%R) = Ok m
    /\ attention_layers_ m = [l0; l1]
    /\ (in_features l0, out_features l0) = (4, 6)
    /\ (in_features l1, out_features l1) = (6, 1).
Proof.
  eexists.
  match goal with
  | |- exists l0 l1, ?I = Ok ?m /\ _ =>
      assert (Hinit : I = Ok m) by reflexivity;
      set (fixture := m) in *
  end.
  destruct (proj2 (attention_layers_chain attention_config (bias_init 1%R)
                                          fixture Hinit)
                  [6] eq_refl ltac:(discriminate))
    as [_ [Hnth Hlast]].
  do 2 eexists. split; [exact Hinit|]. split; [reflexivity|].
  destruct (Hnth 0 _ ltac:(simpl; lia) eq_refl) as [Ho Hi].
  destruct (Hlast ltac:(simpl; lia)) as [layer [Hl [Hli Hlo]]].
  simpl in Hl. injection Hl as <-.
  split; [exact (f_equal2 pair Hi Ho) | exact (f_equal2 pair Hli Hlo)].
Defined.

(* ================================================================= *)
(** ** The recurrent stack, layer by layer *)

(** X10.  The recurrent layers are stacked: the loop keeps one output per
    zipped (hidden dimension, layer) pair, the first layer reads the input
    sequence and every later layer reads the output kept for the layer
    before it (after the averaging of directions, if any), not the input
    sequence. *)
Theorem recurrent_stack_sequential
        (self : ClopiNet) (batch : nat) (zipped : list (nat * RNNLayer))
        (x : Tensor3) (outs : list Tensor3) :
  recurrent_loop self batch zipped x [] = Ok outs ->
  List.length outs = List.length zipped
  /\ forall k h layer o,
      nth_error zipped k = Some (h, layer) ->
      nth_error outs k = Some o ->
      recurrent_step self batch h layer (nth k (x :: outs) x) = Ok o.
Proof.
  intros Hloop.
  destruct (recurrent_loop_steps self batch zipped x [] outs Hloop)
    as [outs' [Hres [Hlen Hnth]]].
  simpl in Hres. subst outs'. split; assumption.
Qed.

Lemma recurrent_stack_sequential_witness :
  exists m l0 l1 o0 o1,
    ClopiNet_init bidirectional_config (bias_init 1%R) = Ok m
    /\ recurrent_layers_ m = [l0; l1]
    /\ recurrent_loop m 3 [(8, l0); (6, l1)]
                      (constant_sequence 10 3 4 0%R) [] = Ok [o0; o1]
    /\ recurrent_step m 3 8 l0 (constant_sequence 10 3 4 0%R) = Ok o0
    /\ recurrent_step m 3 6 l1 o0 = Ok o1.
Proof.
  eexists.
  match goal with
  | |- exists l0 l1 o0 o1, ?I = Ok ?m /\ _ =>
      assert (Hinit : I = Ok m) by reflexivity;
      set (fixture := m) in *
  end.
  do 4 eexists. split; [exact Hinit|]. split; [reflexivity|].
  match goal with
  | |- ?L = Ok ?outs /\ _ => assert (Hloop : L = Ok outs) by reflexivity
  end.
  split; [exact Hloop|].
  destruct (recurrent_stack_sequential _ _ _ _ _ Hloop) as [_ Hnth].
  split.
  - exact (Hnth 0 _ _ _ eq_refl eq_refl).
  - exact (Hnth 1 _ _ _ eq_refl eq_refl).
Defined.

(** X11.  In a unidirectional module nothing is averaged: when the loop
    body returns for a layer, what it keeps is the layer's output itself,
    the hidden values of its single forward direction started from zeros,
    with the hidden dimension the loop was given. *)
Theorem unidirectional_keeps_layer_output
        (cfg : Config) (init : Initializer) (m : ClopiNet)
        (h : nat) (layer : RNNLayer) (x0 o : Tensor3) :
  ClopiNet_init cfg init = Ok m ->
  bidirectional cfg = false ->
  recurrent_step m (t3_batch x0) h layer x0 = Ok o ->
  let z := zeros3 1 (t3_batch x0) h in
  o = rnn_output layer x0 z z
  /\ size3 o = (t3_time x0, t3_batch x0, h)
  /\ forall t i j, j < h ->
       t3_at o t i j = forward_direction layer x0 z z t i j.
Proof.
  intros Hinit Hbi Hstep z.
  destruct (ClopiNet_init_inv cfg init m Hinit) as [Hc [Hd _]].
  assert (Hnd : num_directions_ m = 1) by (rewrite Hd, Hbi; reflexivity).
  destruct (recurrent_step_inv m _ h layer x0 o Hstep)
    as [_ [_ [_ [Hhid [Hdir Ho]]]]].
  rewrite Hc, Hbi, Hnd in Ho. fold z in Ho. subst o.
  split; [reflexivity|]. split.
  - unfold size3, rnn_output. simpl. rewrite Hdir, Hnd, Hhid.
    f_equal. lia.
  - intros t i j Hj. unfold rnn_output. simpl. rewrite Hhid.
    replace (j <? h) with true by (symmetry; apply Nat.ltb_lt; exact Hj).
    reflexivity.
Qed.

Lemma unidirectional_keeps_layer_output_witness :
  exists m l0 o,
    ClopiNet_init example_config (bias_init 1%R) = Ok m
    /\ recurrent_layers_ m = [l0]
    /\ recurrent_step m 3 8 l0 (constant_sequence 10 3 4 0%R) = Ok o
    /\ size3 o = (10, 3, 8).
Proof.
  eexists.
  match goal with
  | |- exists l0 o, ?I = Ok ?m /\ _ =>
      assert (Hinit : I = Ok m) by reflexivity;
      set (fixture := m) in *
  end.
  do 2 eexists. split; [exact Hinit|]. split; [reflexivity|].
  match goal with
  | |- ?S = Ok ?o /\ _ => assert (Hstep : S = Ok o) by reflexivity
  end.
  split; [exact Hstep|].
  exact (proj1 (proj2 (unidirectional_keeps_layer_output
                         example_config (bias_init 1%R) fixture 8 _
                         (constant_sequence 10 3 4 0%R) _
                         Hinit eq_refl Hstep))).
Defined.

(* ================================================================= *)
(** ** Attention weights and the weighted sum *)

Lemma rsum_ge_term (n : nat) (f : nat -> R) (t : nat) :
  t < n -> (forall k, k < n -> (0 <= f k)%R) -> (f t <= rsum n f)%R.
Proof.
  induction n as [|n IH]; intros Ht Hpos; [lia|]. simpl.
  assert (0 <= rsum n f)%R by (apply rsum_nonneg; intros; apply Hpos; lia).
  destruct (Nat.eq_dec t n) as [->|Hne]; [lra|].
  assert (f t <= rsum n f)%R by (apply IH; [lia | intros; apply Hpos; lia]).
  assert (0 <= f n)%R by (apply Hpos; lia). lra.
Qed.

Lemma softmax_dim0_range (pre : Tensor3) (t i j : nat) :
  t < t3_time pre ->
  (0 < t3_at (softmax_dim0 pre) t i j <= 1)%R.
Proof.
  intros Ht. unfold softmax_dim0. simpl.
  set (s := rsum (t3_time pre) (fun s => exp (t3_at pre s i j))).
  assert (Hs : (0 < s)%R)
    by (apply rsum_pos; [lia | intros; apply exp_pos]).
  assert (Hle : (exp (t3_at pre t i j) <= s)%R).
  { apply (rsum_ge_term (t3_time pre) (fun s => exp (t3_at pre s i j)) t Ht).
    intros k _. left. apply exp_pos. }
  pose proof (exp_pos (t3_at pre t i j)) as He.
  split.
  - apply Rdiv_lt_0_compat; assumption.
  - apply (Rmult_le_reg_r s); [exact Hs|].
    unfold Rdiv. rewrite Rmult_assoc, Rinv_l by lra. lra.
Qed.

Lemma forward_attention_inv (cfg : Config) (init : Initializer) (m : ClopiNet)
      (x : Tensor3) (r : Output) (m' : ClopiNet) (a : Tensor3) :
  ClopiNet_init cfg init = Ok m ->
  forward x m = (Ok r, m') ->
  attention_of r = Some a ->
  exists frames pre w,
    frame_embeddings m x = Ok frames
    /\ tanh_layers (attention_layers_ m) x = Ok pre
    /\ a = softmax_dim0 pre
    /\ same_frame pre x
    /\ mul3 frames a = Ok w
    /\ pooled_output m x = Ok (sum_dim0 w).
Proof.
  intros Hinit Hfw Ha.
  destruct (internal cfg) eqn:Hint.
  - destruct (forward_internal_inv cfg init m Hinit x r m' Hint Hfw)
      as [_ [_ [frames [o [_ [_ Hr]]]]]].
    subst r. discriminate Ha.
  - destruct (forward_pooled_inv cfg init m Hinit x r m' Hint Hfw)
      as [Hx [frames [w [attn [normed [out [Hfr [Hst [_ [_ Hrv]]]]]]]]]].
    destruct (return_value_embedding cfg attn out r Hrv) as [_ Hkind].
    destruct (return_attention cfg).
    + destruct Hkind as [_ Hattn]. rewrite Ha in Hattn. subst attn.
      destruct (attention_truthy (attention cfg)) eqn:Htr.
      * destruct (attention_stage_on cfg init m Hinit x Hx frames Htr)
          as [pre [Hpre [Hframe [_ Heq]]]].
        rewrite Heq in Hst.
        destruct (mul3 frames (softmax_dim0 pre)) as [w'|e] eqn:Hmul;
          [|discriminate].
        simpl in Hst. inversion Hst; subst w' a.
        exists frames, pre, w. repeat split; try assumption; try apply Hframe.
        apply (weighted_frames_eq m x frames w (Some (softmax_dim0 pre)) Hfr).
        rewrite Heq. reflexivity.
      * rewrite (attention_stage_off cfg init m Hinit x frames Htr) in Hst.
        discriminate.
    + subst r. discriminate Ha.
Qed.

(** X12.  Every attention weight a call returns lies in (0, 1]: it is the
    share of one time step in a sum of positive terms over all steps. *)
Theorem attention_weights_range
        (cfg : Config) (init : Initializer) (m : ClopiNet) (x : Tensor3)
        (r : Output) (m' : ClopiNet) (a : Tensor3) :
  ClopiNet_init cfg init = Ok m ->
  forward x m = (Ok r, m') ->
  attention_of r = Some a ->
  t3_time a = t3_time x
  /\ t3_batch a = t3_batch x
  /\ forall t i j, t < t3_time x -> (0 < t3_at a t i j <= 1)%R.
Proof.
  intros Hinit Hfw Ha.
  destruct (forward_attention_inv cfg init m x r m' a Hinit Hfw Ha)
    as [frames [pre [w [_ [_ [Hsoft [[Ht Hb] _]]]]]]].
  subst a. simpl. split; [exact Ht|]. split; [exact Hb|].
  intros t i j HT. apply softmax_dim0_range. rewrite Ht. exact HT.
Qed.

Lemma attention_weights_range_witness :
  exists m e a m',
    ClopiNet_init attention_config (bias_init 1%R) = Ok m
    /\ forward (constant_sequence 10 3 4 0%R) m = (Ok (WithAttention e a), m')
    /\ (0 < t3_at a 0 0 0 <= 1)%R.
Proof.
  eexists.
  match goal with
  | |- exists e a m', ?I = Ok ?m /\ _ =>
      assert (Hinit : I = Ok m) by reflexivity;
      set (fixture := m) in *
  end.
  assert (Hready : call_ready attention_config (constant_sequence 10 3 4 0%R))
    by solve_ready.
  destruct (forward_succeeds attention_config (bias_init 1%R) fixture _
                             Hinit Hready) as [r [m' Hfw]].
  destruct (forward_pooled_shape attention_config (bias_init 1%R) fixture _
              r m' Hinit ltac:(repeat constructor) eq_refl Hfw)
    as [e [He _]].
  destruct r as [o|e0|e0 a]; try discriminate He.
  - destruct (forward_pooled_inv attention_config (bias_init 1%R) fixture
                Hinit _ _ _ eq_refl Hfw)
      as [_ [f [w [attn [n [out [_ [_ [_ [_ Hrv]]]]]]]]]].
    unfold return_value in Hrv. simpl in Hrv.
    destruct attn; discriminate Hrv.
  - destruct (attention_weights_range attention_config (bias_init 1%R)
                fixture (constant_sequence 10 3 4 0%R) (WithAttention e0 a)
                m' a Hinit Hfw eq_refl) as [_ [_ Hrange]].
    exists e0, a, m'. split; [exact Hinit|]. split; [exact Hfw|].
    apply Hrange. simpl. lia.
Defined.

(** X13.  With attention layers whose dimensions are positive, each entry
    of the pooled vector is the sum over the time steps of the per-step
    embedding times the (single) attention weight of that step and batch
    element. *)
Theorem attention_weighted_sum
        (cfg : Config) (init : Initializer) (m : ClopiNet) (x : Tensor3)
        (r : Output) (m' : ClopiNet) (a : Tensor3) :
  ClopiNet_init cfg init = Ok m ->
  attention_dims_positive cfg ->
  forward x m = (Ok r, m') ->
  attention_of r = Some a ->
  exists frames pooled,
    frame_embeddings m x = Ok frames
    /\ pooled_output m x = Ok pooled
    /\ size3 a = (t3_time x, t3_batch x, 1)
    /\ forall i j, i < t3_batch x -> j < output_dim m ->
         t2_at pooled i j
         = rsum (t3_time x) (fun t => (t3_at frames t i j * t3_at a t i 0)%R).
Proof.
  intros Hinit Hpos Hfw Ha.
  destruct (forward_attention_inv cfg init m x r m' a Hinit Hfw Ha)
    as [frames [pre [w [Hfr [Hpre [Hsoft [[Ht Hb] [Hmul Hp]]]]]]]].
  pose proof (forward_ok_feature cfg init m Hinit x r m' Hfw) as Hx.
  destruct (frame_embeddings_inv cfg init m Hinit x frames Hx Hfr)
    as [_ [[Hft Hfb] Hff]].
  assert (Htr : attention_truthy (attention cfg) = true).
  { apply (attention_layers_nonempty cfg init m Hinit).
    intros Hnil. rewrite Hnil in Hpre. simpl in Hpre.
    inversion Hpre; subst pre.
    destruct (frame_embeddings_inv cfg init m Hinit x frames Hx Hfr)
      as [Hne _].
    unfold attention_dims_positive in Hpos.
    destruct (ClopiNet_init_inv cfg init m Hinit)
      as [_ [_ [_ [_ [_ [_ Hchain]]]]]].
    rewrite Hnil in Hchain. unfold attention_chain in Hchain.
    destruct (forward_pooled_inv cfg init m Hinit x r m')
      as [_ [f2 [w2 [attn2 [n2 [o2 [Hf2 [Hst2 [_ [_ Hrv]]]]]]]]]];
      [|exact Hfw|].
    - destruct (internal cfg) eqn:Hint; [|reflexivity].
      destruct (forward_internal_inv cfg init m Hinit x r m' Hint Hfw)
        as [_ [_ [f3 [o3 [_ [_ Hr]]]]]]. subst r. discriminate Ha.
    - unfold attention_stage in Hst2. rewrite Hnil in Hst2.
      inversion Hst2; subst attn2.
      destruct (return_value_embedding cfg None o2 r Hrv) as [_ Hkind].
      destruct (return_attention cfg).
      + destruct Hkind as [Hbad _]. congruence.
      + subst r. discriminate Ha. }
  destruct (attention_weights_ok cfg init m Hinit x Hx Htr)
    as [pre' [Hpre' [_ [_ Hp1]]]].
  rewrite Hpre in Hpre'. inversion Hpre'; subst pre'.
  specialize (Hp1 Hpos).
  destruct (mul3_scalar_weights frames a) as [w' [Hw' [Hsz Hval]]].
  { subst a. split; simpl; congruence. }
  { subst a. simpl. exact Hp1. }
  rewrite Hmul in Hw'. inversion Hw'; subst w'.
  exists frames, (sum_dim0 w). split; [exact Hfr|]. split; [exact Hp|].
  split; [subst a; unfold size3; simpl; congruence|].
  intros i j Hi Hj. simpl.
  assert (Hwt : t3_time w = t3_time x)
    by (unfold size3 in Hsz; congruence).
  rewrite Hwt. apply rsum_ext. intros t HT.
  apply Hval; congruence.
Qed.

Lemma attention_weighted_sum_witness :
  exists m frames e a m',
    ClopiNet_init attention_config (bias_init 1%R) = Ok m
    /\ forward (constant_sequence 10 3 4 0%R) m = (Ok (WithAttention e a), m')
    /\ frame_embeddings m (constant_sequence 10 3 4 0%R) = Ok frames
    /\ size3 a = (10, 3, 1).
Proof.
  eexists.
  match goal with
  | |- exists frames e a m', ?I = Ok ?m /\ _ =>
      assert (Hinit : I = Ok m) by reflexivity;
      set (fixture := m) in *
  end.
  assert (Hready : call_ready attention_config (constant_sequence 10 3 4 0%R))
    by solve_ready.
  destruct (forward_succeeds attention_config (bias_init 1%R) fixture _
                             Hinit Hready) as [r [m' Hfw]].
  destruct (forward_pooled_inv attention_config (bias_init 1%R) fixture
              Hinit _ _ _ eq_refl Hfw)
    as [_ [f [w [attn [n [out [_ [_ [_ [_ Hrv]]]]]]]]]].
  unfold return_value in Hrv. simpl in Hrv.
  destruct attn as [a|]; [|discriminate Hrv]. inversion Hrv; subst r.
  destruct (attention_weighted_sum attention_config (bias_init 1%R) fixture
              (constant_sequence 10 3 4 0%R) (WithAttention out a) m' a
              Hinit ltac:(repeat constructor) Hfw eq_refl)
    as [frames [pooled [Hfr [_ [Hsz _]]]]].
  exists frames, out, a, m'.
  split; [exact Hinit|]. split; [exact Hfw|]. split; [exact Hfr | exact Hsz].
Defined.

(* ================================================================= *)
(** ** Fresh weights, and the range of the embeddings *)

Lemma weight_stage_fresh (cfg : Config) (init : Initializer) (m : ClopiNet)
      (o2 o : Tensor3) :
  ClopiNet_init cfg init = Ok m ->
  t3_feat o2 = output_dim m ->
  weight_stage m o2 = Ok o ->
  size3 o = size3 o2
  /\ forall t i j, j < output_dim m -> t3_at o t i j = t3_at o2 t i j.
Proof.
  intros Hinit Hf Hw.
  destruct (ClopiNet_init_inv cfg init m Hinit)
    as [Hc [_ [_ [_ [Ha _]]]]].
  unfold weight_stage in Hw. rewrite Hc, Ha in Hw.
  rewrite output_dim_last, Hc in Hf.
  destruct (weighted cfg).
  - unfold mul_vec3, ones in Hw. simpl in Hw.
    rewrite Hf, broadcast_dim_same in Hw. inversion Hw; subst o.
    unfold size3. simpl. split; [congruence|].
    intros t i j Hj. rewrite output_dim_last, Hc in Hj.
    rewrite bidx_lt by exact Hj. ring.
  - inversion Hw; subst o. split; reflexivity.
Qed.

Lemma frame_embeddings_stages (cfg : Config) (init : Initializer)
      (m : ClopiNet) (x frames : Tensor3) :
  ClopiNet_init cfg init = Ok m ->
  t3_feat x = n_features cfg ->
  frame_embeddings m x = Ok frames ->
  exists o1 o2,
    recurrent_stage m x = Ok o1
    /\ linear_stage m o1 = Ok o2
    /\ weight_stage m o2 = Ok frames
    /\ t3_feat o2 = output_dim m.
Proof.
  intros Hinit Hx Hfr.
  destruct (frame_embeddings_inv cfg init m Hinit x frames Hx Hfr)
    as [Hne _].
  pose proof (frame_embeddings_time cfg init m Hinit x frames Hfr) as Htime.
  destruct (recurrent_stage_ok cfg init m Hinit x Hx Htime Hne)
    as [o1 [H1 [_ Hf1]]].
  destruct (linear_stage_ok cfg init m Hinit o1 Hf1) as [o2 [H2 [_ Hf2]]].
  unfold frame_embeddings in Hfr. rewrite H1 in Hfr. simpl in Hfr.
  rewrite H2 in Hfr. simpl in Hfr.
  exists o1, o2. repeat split; try assumption.
  rewrite output_dim_last, (constructed_config cfg init m Hinit). exact Hf2.
Qed.

(** X14.  On a freshly constructed module the weighting stage changes no
    value: the weights start as ones, so the per-step embeddings are the
    output of the linear stage whether [weighted] is set or not. *)
Theorem fresh_weights_identity
        (cfg : Config) (init : Initializer) (m : ClopiNet)
        (x frames : Tensor3) :
  ClopiNet_init cfg init = Ok m ->
  t3_feat x = n_features cfg ->
  frame_embeddings m x = Ok frames ->
  exists o1 o2,
    recurrent_stage m x = Ok o1
    /\ linear_stage m o1 = Ok o2
    /\ size3 frames = size3 o2
    /\ forall t i j, j < output_dim m -> t3_at frames t i j = t3_at o2 t i j.
Proof.
  intros Hinit Hx Hfr.
  destruct (frame_embeddings_stages cfg init m x frames Hinit Hx Hfr)
    as [o1 [o2 [H1 [H2 [Hw Hf]]]]].
  destruct (weight_stage_fresh cfg init m o2 frames Hinit Hf Hw) as [Hsz Hval].
  exists o1, o2. repeat split; assumption.
Qed.

Lemma fresh_weights_identity_witness :
  exists m frames o1 o2,
    ClopiNet_init internal_weighted_config (bias_init 1%R) = Ok m
    /\ frame_embeddings m (constant_sequence 10 3 4 0%R) = Ok frames
    /\ recurrent_stage m (constant_sequence 10 3 4 0%R) = Ok o1
    /\ linear_stage m o1 = Ok o2
    /\ t3_at frames 0 0 0 = t3_at o2 0 0 0.
Proof.
  eexists.
  match goal with
  | |- exists frames o1 o2, ?I = Ok ?m /\ _ =>
      assert (Hinit : I = Ok m) by reflexivity;
      set (fixture := m) in *
  end.
  destruct (frame_embeddings_ok internal_weighted_config (bias_init 1%R)
              fixture Hinit (constant_sequence 10 3 4 0%R) eq_refl
              ltac:(simpl; lia) ltac:(discriminate)) as [frames [Hfr _]].
  destruct (fresh_weights_identity internal_weighted_config (bias_init 1%R)
              fixture (constant_sequence 10 3 4 0%R) frames Hinit eq_refl Hfr)
    as [o1 [o2 [H1 [H2 [_ Hval]]]]].
  exists frames, o1, o2. split; [exact Hinit|]. split; [exact Hfr|].
  split; [exact H1|]. split; [exact H2|].
  apply Hval. change (output_dim fixture) with 5. lia.
Defined.

Lemma tanh_bounds (a : R) : (-1 <= tanh a <= 1)%R.
Proof.
  unfold tanh, sinh, cosh.
  pose proof (exp_pos a) as Hp. pose proof (exp_pos (- a)) as Hn.
  set (p := exp a) in *. set (n := exp (- a)) in *.
  assert (Hc : (0 < (p + n) / 2)%R) by lra.
  split; apply Rlt_le.
  - apply (Rmult_lt_reg_r ((p + n) / 2)); [exact Hc|].
    unfold Rdiv at 2. rewrite Rmult_assoc, Rinv_l by lra. lra.
  - apply (Rmult_lt_reg_r ((p + n) / 2)); [exact Hc|].
    unfold Rdiv at 1. rewrite Rmult_assoc, Rinv_l by lra. lra.
Qed.

Lemma tanh_layers_range (layers : list Linear) :
  layers <> [] ->
  forall x o,
    tanh_layers layers x = Ok o ->
    forall t i j, (-1 <= t3_at o t i j <= 1)%R.
Proof.
  induction layers as [|l rest IH]; intros Hne x o Ho t i j; [congruence|].
  simpl in Ho.
  destruct (linear_apply l x) as [o1|e]; [|discriminate]. simpl in Ho.
  destruct rest as [|l' rest'].
  - simpl in Ho. inversion Ho; subst o. simpl. apply tanh_bounds.
  - apply (IH ltac:(discriminate) (tanh3 o1) o Ho).
Qed.

Lemma rsum_le (n : nat) (f g : nat -> R) :
  (forall k, k < n -> (f k <= g k)%R) -> (rsum n f <= rsum n g)%R.
Proof.
  induction n as [|n IH]; intros H; simpl; [lra|].
  assert (rsum n f <= rsum n g)%R by (apply IH; intros; apply H; lia).
  assert (f n <= g n)%R by (apply H; lia). lra.
Qed.

Lemma frames_range (cfg : Config) (init : Initializer) (m : ClopiNet)
      (x frames : Tensor3) :
  ClopiNet_init cfg init = Ok m ->
  t3_feat x = n_features cfg ->
  linear cfg <> [] ->
  frame_embeddings m x = Ok frames ->
  forall t i j, j < output_dim m -> (-1 <= t3_at frames t i j <= 1)%R.
Proof.
  intros Hinit Hx Hlin Hfr t i j Hj.
  destruct (frame_embeddings_stages cfg init m x frames Hinit Hx Hfr)
    as [o1 [o2 [H1 [H2 [Hw Hf]]]]].
  destruct (weight_stage_fresh cfg init m o2 frames Hinit Hf Hw) as [_ Hval].
  rewrite (Hval t i j Hj).
  destruct (ClopiNet_init_inv cfg init m Hinit) as [Hc [_ [_ [Hl _]]]].
  unfold linear_stage in H2.
  rewrite Hc, Hl, map_snd_combine in H2 by (rewrite build_linear_length; lia).
  refine (tanh_layers_range _ _ o1 o2 H2 t i j).
  intros Hnil. apply (f_equal (@List.length Linear)) in Hnil.
  rewrite build_linear_length in Hnil.
  destruct (linear cfg); [congruence | discriminate Hnil].
Qed.

(** X15.  With at least one linear layer, every entry of the per-step
    embeddings of a freshly constructed module lies between -1 and 1, the
    bounds included (the last operation is tanh and the weights start as
    ones).  Hence without attention each pooled entry is at most the
    number of time steps in absolute value. *)
Theorem embeddings_bounded
        (cfg : Config) (init : Initializer) (m : ClopiNet) (x : Tensor3) :
  ClopiNet_init cfg init = Ok m ->
  t3_feat x = n_features cfg ->
  linear cfg <> [] ->
  (forall frames,
      frame_embeddings m x = Ok frames ->
      forall t i j, j < output_dim m -> (-1 <= t3_at frames t i j <= 1)%R)
  /\ (forall pooled,
         attention_truthy (attention cfg) = false ->
         pooled_output m x = Ok pooled ->
         forall i j, j < output_dim m ->
           (- INR (t3_time x) <= t2_at pooled i j <= INR (t3_time x))%R).
Proof.
  intros Hinit Hx Hlin.
  split.
  - intros frames Hfr. apply (frames_range cfg init m x frames Hinit Hx Hlin Hfr).
  - intros pooled Hoff Hp i j Hj.
    unfold pooled_output, weighted_frames in Hp.
    destruct (frame_embeddings m x) as [frames|e] eqn:Hfr; [|discriminate].
    simpl rbind in Hp.
    rewrite (attention_stage_off cfg init m Hinit x frames Hoff) in Hp.
    simpl in Hp. inversion Hp; subst pooled. simpl.
    destruct (frame_embeddings_inv cfg init m Hinit x frames Hx Hfr)
      as [_ [[Ht _] _]].
    rewrite Ht.
    pose proof (frames_range cfg init m x frames Hinit Hx Hlin Hfr) as Hr.
    split.
    + replace (- INR (t3_time x))%R
        with (rsum (t3_time x) (fun _ => (-1)%R))
        by (rewrite rsum_const; ring).
      apply rsum_le. intros t _. apply Hr. exact Hj.
    + replace (INR (t3_time x)) with (rsum (t3_time x) (fun _ => 1%R))
        by (rewrite rsum_const; ring).
      apply rsum_le. intros t _. apply Hr. exact Hj.
Qed.

Lemma embeddings_bounded_witness :
  exists m frames,
    ClopiNet_init example_config (bias_init 1%R) = Ok m
    /\ frame_embeddings m (constant_sequence 10 3 4 0%R) = Ok frames
    /\ (-1 <= t3_at frames 0 0 0 <= 1)%R.
Proof.
  eexists.
  match goal with
  | |- exists frames, ?I = Ok ?m /\ _ =>
      assert (Hinit : I = Ok m) by reflexivity;
      set (fixture := m) in *
  end.
  destruct (frame_embeddings_ok example_config (bias_init 1%R)
              fixture Hinit (constant_sequence 10 3 4 0%R) eq_refl
              ltac:(simpl; lia) ltac:(discriminate)) as [frames [Hfr _]].
  exists frames. split; [exact Hinit|]. split; [exact Hfr|].
  apply (proj1 (embeddings_bounded example_config (bias_init 1%R) fixture
                  (constant_sequence 10 3 4 0%R) Hinit eq_refl
                  ltac:(discriminate)) frames Hfr).
  change (output_dim fixture) with 5. lia.
Defined.

(* ================================================================= *)
(** ** Every way a call can fail *)

Lemma call_batch_norm_single (cfg : Config) (init : Initializer) (m : ClopiNet)
      (x : Tensor2) :
  ClopiNet_init cfg init = Ok m ->
  batch_normalization cfg = true ->
  t2_cols x = output_dim m ->
  t2_rows x = 1 ->
  call_batch_norm x m
  = (Raise (TorchError "Expected more than 1 value per channel when training"),
     m).
Proof.
  intros Hinit Hbn Hc Hr.
  destruct (ClopiNet_init_inv cfg init m Hinit)
    as [Hcfg [_ [_ [_ [_ [Hb _]]]]]].
  unfold call_batch_norm, batch_norm_apply. rewrite Hb, Hbn. simpl.
  rewrite Hc, output_dim_last, Hcfg, Nat.eqb_refl, Hr. reflexivity.
Qed.

(** X16.  On a constructed module with positive attention dimensions, a
    call on an input with at least one time step and one sequence can fail
    in four ways only: the feature-dimension error on a
    mismatched input; the concatenation of an empty list when there is no
    recurrent layer; outside internal mode, batch normalisation refusing a
    batch of one sequence; and, outside internal mode, the unassigned
    [attn] when [return_attention] is set without attention layers.  No
    other exception is ever raised. *)
Theorem forward_failures
        (cfg : Config) (init : Initializer) (m : ClopiNet) (x : Tensor3)
        (e : Exception) (m' : ClopiNet) :
  ClopiNet_init cfg init = Ok m ->
  attention_dims_positive cfg ->
  0 < t3_time x ->
  0 < t3_batch x ->
  forward x m = (Raise e, m') ->
  (e = ValueError_feature (t3_feat x) (n_features cfg)
   /\ t3_feat x <> n_features cfg)
  \/ (e = TorchError "expected a non-empty list of Tensors"
      /\ recurrent cfg = [])
  \/ (e = TorchError "Expected more than 1 value per channel when training"
      /\ internal cfg = false /\ batch_normalization cfg = true
      /\ t3_batch x = 1)
  \/ (e = UnboundLocalError "attn"
      /\ internal cfg = false /\ return_attention cfg = true
      /\ attention_truthy (attention cfg) = false).
Proof.
  intros Hinit Hpos Htime Hseq Hfw.
  rewrite forward_eq in Hfw. cbv zeta in Hfw.
  rewrite (constructed_config cfg init m Hinit) in Hfw.
  destruct (t3_feat x =? n_features cfg) eqn:Hfeat; simpl negb in Hfw;
    cbv iota in Hfw.
  2:{ left. inversion Hfw. split; [reflexivity|].
      apply Nat.eqb_neq. exact Hfeat. }
  apply Nat.eqb_eq in Hfeat.
  destruct (recurrent cfg) as [|h0 rest] eqn:Hrec.
  { right. left. split; [|reflexivity].
    unfold frame_embeddings, recurrent_stage in Hfw.
    rewrite (constructed_config cfg init m Hinit), Hrec in Hfw.
    simpl in Hfw. inversion Hfw. reflexivity. }
  assert (Hne : recurrent cfg <> []) by (rewrite Hrec; discriminate).
  destruct (internal cfg) eqn:Hint.
  { exfalso.
    destruct (frame_embeddings_ok cfg init m Hinit x Hfeat Htime Hne)
      as [frames [Hfr _]].
    rewrite Hfr in Hfw.
    destruct (normalize cfg).
    - destruct (div3_norm3 frames) as [o [Ho _]]. rewrite Ho in Hfw.
      discriminate Hfw.
    - discriminate Hfw. }
  destruct (pooled_stages_ok cfg init m x Hinit Hfeat Htime Hne Hpos)
    as [frames [w [attn [normed [Hfr [Hst [Hnone [Hn Hsz]]]]]]]].
  rewrite Hfr, Hst, Hn in Hfw.
  assert (Hrows : t2_rows normed = t3_batch x)
    by (unfold size2 in Hsz; congruence).
  assert (Hcols : t2_cols normed = output_dim m)
    by (unfold size2 in Hsz; congruence).
  assert (Hret : forall out s,
             (return_value cfg attn out, s) = (Raise e, m') ->
             e = UnboundLocalError "attn"
             /\ return_attention cfg = true
             /\ attention_truthy (attention cfg) = false).
  { intros out s Hrv. unfold return_value in Hrv.
    destruct (return_attention cfg); [|discriminate Hrv].
    destruct attn as [a|]; [discriminate Hrv|].
    inversion Hrv. repeat split.
    apply Hnone. reflexivity. }
  destruct (batch_normalization cfg) eqn:Hbn.
  - destruct (Nat.eq_dec (t3_batch x) 1) as [Hone|Hmany].
    + right. right. left.
      rewrite (call_batch_norm_single cfg init m normed Hinit Hbn Hcols)
        in Hfw by congruence.
      inversion Hfw. repeat split; assumption.
    + destruct (call_batch_norm_ok cfg init m normed Hinit Hbn Hcols)
        as [out [s Hcall]]; [congruence|].
      rewrite Hcall in Hfw. right. right. right.
      destruct (Hret out s Hfw) as [H1 [H2 H3]]. auto.
  - right. right. right.
    destruct (Hret normed m Hfw) as [H1 [H2 H3]]. auto.
Qed.

Lemma forward_failures_witness :
  exists m m',
    ClopiNet_init return_attention_config (bias_init 0%R) = Ok m
    /\ forward (constant_sequence 10 3 4 0%R) m
       = (Raise (UnboundLocalError "attn"), m').
Proof.
  eexists.
  match goal with
  | |- exists m', ?I = Ok ?m /\ _ =>
      assert (Hinit : I = Ok m) by reflexivity;
      set (fixture := m) in *
  end.
  destruct (forward (constant_sequence 10 3 4 0%R) fixture) as [r m'] eqn:Hfw.
  destruct r as [r|e].
  - exfalso.
    destruct (forward_pooled_inv return_attention_config (bias_init 0%R)
                fixture Hinit _ _ _ eq_refl Hfw)
      as [_ [f [w [attn [n [out [Hfr [Hst [_ [_ Hrv]]]]]]]]]].
    rewrite (attention_stage_off return_attention_config (bias_init 0%R)
               fixture Hinit _ f eq_refl) in Hst.
    inversion Hst; subst attn. discriminate Hrv.
  - destruct (forward_failures return_attention_config (bias_init 0%R)
                fixture (constant_sequence 10 3 4 0%R) e m' Hinit I
                ltac:(simpl; lia) ltac:(simpl; lia) Hfw)
      as [[_ Hbad]|[[_ Hbad]|[[_ [_ [Hbad _]]]|[He _]]]];
      try discriminate Hbad.
    + exfalso. apply Hbad. reflexivity.
    + exists m'. split; [exact Hinit|]. rewrite He. reflexivity.
Defined.
